(** * Exploratory data analysis template: a verified model

    A shallow embedding of [src/eda_template.py].  The five functions of the
    module are thin compositions of pandas, pandas-datareader, matplotlib
    and seaborn calls; the embedding has three layers:

    - the values the program manipulates (dates, float cells, tables,
      figures) and the library operations on them, as pure functions;
    - the interpreter state the program runs in (object store of tables,
      pyplot's figure registry, file system, standard output, the remote
      data provider) with an exception-and-state monad over it;
    - the five functions of the module, written statement by statement in
      that monad.

    Numbers: a float64 cell is modelled as an exact real number, with [None]
    for NaN (the "no value" marker).  The rounding of the hardware format
    and its signed zeros are outside the model.  So are its overflow and
    underflow: a statement on the value of a sum, a mean or a coefficient
    takes as a hypothesis that the values lie in a range of magnitudes in
    which float64 does neither.  The pixels of a figure are outside the
    model as well: a figure is the list of what was drawn on each of its
    Axes, and the style set when the module is imported does not show in
    it. *)

From Stdlib Require Import Reals Lra ZArith Lia String Ascii.
From stdpp Require Import base tactics option list list_numbers sorting strings.

Local Open Scope string_scope.
Local Open Scope list_scope.
Local Open Scope Z_scope.

(** ** Dates *)

Module Dates.

Record Date := mkDate { year : Z; month : Z; day : Z }.

#[global] Instance Date_eq_dec : EqDecision Date.
Proof. solve_decision. Defined.

(** Months counted from year 0: the bin a date falls in under a monthly
    resampling. *)
Definition month_index (d : Date) : Z := 12 * year d + (month d - 1).

Definition is_leap (y : Z) : bool :=
  ((y mod 4 =? 0) && negb (y mod 100 =? 0)) || (y mod 400 =? 0).

Definition days_in_month (y m : Z) : Z :=
  if m =? 2 then (if is_leap y then 29 else 28)
  else if (m =? 4) || (m =? 6) || (m =? 9) || (m =? 11) then 30
  else 31.

(** Chronological order. *)
Definition date_le (a b : Date) : Prop :=
  year a < year b \/
  (year a = year b /\
   (month a < month b \/ (month a = month b /\ day a <= day b))).

#[global] Instance date_le_dec : RelDecision date_le.
Proof. intros a b. unfold date_le. solve_decision. Defined.

(** The label pandas gives a monthly bin: the last day of the month. *)
Definition month_end (mi : Z) : Date :=
  let y := mi / 12 in
  let m := mi mod 12 + 1 in
  mkDate y m (days_in_month y m).

Lemma month_index_month_end mi : month_index (month_end mi) = mi.
Proof.
  unfold month_index, month_end; simpl.
  pose proof (Z.div_mod mi 12). lia.
Qed.

Lemma month_end_inj a b : month_end a = month_end b -> a = b.
Proof.
  intros H. rewrite <- (month_index_month_end a), <- (month_index_month_end b).
  now rewrite H.
Qed.

End Dates.
Export Dates.

(** ** Cells, series and tables *)

(** A float64 cell; [None] is NaN. *)
Abbreviation float := (option R).

Definition NaN : float := None.

Definition isna_cell (x : float) : bool :=
  match x with None => true | Some _ => false end.

(** A cell of a table of statistics: a float, or a timestamp that may be
    absent ([Stamp None] stands for Python's [None]/[NaT]). *)
Inductive cell :=
| Num (x : float)
| Stamp (d : option Date).

(** A pandas Series: values with their index labels. *)
Abbreviation Series I C := (list (I * C)).

(** A pandas DataFrame: a row index and labelled columns, in column order.
    Each column holds one cell per row of the index. *)
Record Frame (I C : Type) := mkFrame {
  index : list I;
  columns : list (string * list C)
}.
Arguments mkFrame {I C}.
Arguments index {I C}.
Arguments columns {I C}.

(** The time-indexed table of the program: dates by float columns. *)
Abbreviation DataFrame := (Frame Date float).

(** Tables indexed by labels: [describe], the summary, the correlation
    matrix. *)
Abbreviation StatFrame := (Frame string cell).

Definition labels {I C} (t : Frame I C) : list string := (columns t).*1.

Definition nrows {I C} (t : Frame I C) : nat := length (index t).

(** Every column has one cell per row. *)
Definition well_formed {I C} (t : Frame I C) : Prop :=
  Forall (fun c => length c.2 = nrows t) (columns t).

(** ** Exceptions *)

Inductive exn :=
| ValueError (msg : string)
| TypeError (msg : string)
| KeyError (key : string)
| InvalidIndexError (msg : string)
| OSError (path : string)
| RemoteDataError (msg : string).

Inductive result (A : Type) :=
| Ok (a : A)
| Raise (e : exn).
Arguments Ok {A}.
Arguments Raise {A}.

(** ** pandas: operations on values *)

(** The operations the program calls, by their documented behaviour on
    tables of float columns indexed by dates. *)
Module pd.

(** The value of the first entry of a given label. *)
Fixpoint assoc {V} (k : string) (m : list (string * V)) : option V :=
  match m with
  | [] => None
  | (k', v) :: m' => if String.eqb k k' then Some v else assoc k m'
  end.

(** [DataFrame.rename(columns=mapping)]: labels found in the mapping are
    replaced, the others are kept. *)
Definition rename {I C} (mapping : list (string * string)) (t : Frame I C)
  : Frame I C :=
  mkFrame (index t)
    (map (fun c => (default c.1 (assoc c.1 mapping), c.2)) (columns t)).

(** Position of the first occurrence of a label in an index. *)
Fixpoint position (d : Date) (idx : list Date) : option nat :=
  match idx with
  | [] => None
  | d' :: idx' => if decide (d = d') then Some O else S <$> position d idx'
  end.

(** [Series.reindex(new_index)] on a uniquely indexed column: the cell of
    each date of the new index, NaN where the series has no such date. *)
Definition reindex (new_index idx : list Date) (col : list float)
  : list float :=
  map (fun d => match position d idx with
                | Some i => default NaN (col !! i)
                | None => NaN
                end) new_index.

(** [Index.union] of two date indexes, as the concatenation calls it.
    The left index is kept as it is when the right one is empty or equal to
    it, and the right one when the left is empty.  Otherwise the union
    holds every date as often as the index that repeats it most, and is
    sorted. *)
Fixpoint remove_one (d : Date) (l : list Date) : list Date :=
  match l with
  | [] => []
  | x :: l' => if decide (x = d) then l' else x :: remove_one d l'
  end.

(** The dates of [b] beyond those of [a], occurrence by occurrence. *)
Definition surplus (a b : list Date) : list Date :=
  foldl (fun rest d => remove_one d rest) b a.

Definition union_index (a b : list Date) : list Date :=
  if bool_decide (b = [] \/ a = b) then a
  else if bool_decide (a = []) then b
  else merge_sort date_le (a ++ surplus a b).

(** Outer join of date indexes: the first one united with the others, from
    left to right. *)
Definition union_indexes (idxs : list (list Date)) : list Date :=
  match idxs with
  | [] => []
  | idx :: rest => foldl union_index idx rest
  end.

(** The columns of a frame on the index of the concatenation: as they are
    when the frame has that index, reindexed otherwise. *)
Definition align (idx : list Date) (g : DataFrame)
  : list (string * list float) :=
  map (fun c => if bool_decide (index g = idx) then c
                else (c.1, reindex idx (index g) c.2))
    (columns g).

(** [pd.concat(frames, axis=1)] with the default outer join.  No frames:
    [ValueError].  Otherwise the columns side by side on the union of the
    indexes; a frame whose index is not the union is reindexed on it, which
    pandas refuses when that frame has duplicate labels. *)
Definition concat_axis1 (frames : list DataFrame) : result DataFrame :=
  match frames with
  | [] => Raise (ValueError "No objects to concatenate")
  | _ =>
      let idx := union_indexes (map index frames) in
      if bool_decide (Forall (fun g => index g = idx \/ NoDup (index g))
                        frames)
      then Ok (mkFrame idx (concat (map (align idx) frames)))
      else
        Raise (InvalidIndexError
                 "Reindexing only valid with uniquely valued Index objects")
  end.

(** *** Descriptive statistics of one column *)

#[global] Instance Rle_decision : RelDecision Rle := Rle_dec.
#[global] Instance R_eq_dec : EqDecision R := Req_dec_T.

(** The values of a column that are not NaN. *)
Definition present (col : list float) : list R :=
  omap (fun x : option R => x) col.

Definition rsum (xs : list R) : R := foldr Rplus 0%R xs.

(** Mean of the present values; NaN when there is none. *)
Definition mean (xs : list R) : float :=
  match xs with
  | [] => NaN
  | _ => Some (rsum xs / INR (length xs))%R
  end.

(** Sum of the squared deviations from the mean. *)
Definition ssqdm (xs : list R) : R :=
  let m := (rsum xs / INR (length xs))%R in
  rsum (map (fun x => (x - m) * (x - m))%R xs).

(** Sample standard deviation (one degree of freedom removed). *)
Definition std (xs : list R) : float :=
  match xs with
  | [] | [_] => NaN
  | _ => Some (sqrt (ssqdm xs / (INR (length xs) - 1)))%R
  end.

Definition rmin (xs : list R) : float :=
  match xs with [] => NaN | x :: xs' => Some (foldr Rmin x xs') end.

Definition rmax (xs : list R) : float :=
  match xs with [] => NaN | x :: xs' => Some (foldr Rmax x xs') end.

(** The [p]-th percentile by linear interpolation between the two closest
    ranks of the sorted values. *)
Definition percentile (p : nat) (xs : list R) : float :=
  let sorted := merge_sort Rle xs in
  let pos := ((length xs - 1) * p)%nat in
  let i := (pos / 100)%nat in
  match sorted !! i with
  | None => NaN
  | Some lo =>
      let hi := default lo (sorted !! S i) in
      Some (lo + (hi - lo) * (INR (pos mod 100) / 100))%R
  end.

Definition describe_index : list string :=
  ["count"; "mean"; "std"; "min"; "25%"; "50%"; "75%"; "max"].

Definition describe_column (col : list float) : list float :=
  let xs := present col in
  [Some (INR (length xs)); mean xs; std xs; rmin xs;
   percentile 25 xs; percentile 50 xs; percentile 75 xs; rmax xs].

(** [DataFrame.describe()] of a table of float columns: one column of
    eight statistics per column of the table. *)
Definition describe (t : DataFrame) : result StatFrame :=
  match columns t with
  | [] => Raise (ValueError "Cannot describe a DataFrame without columns")
  | _ => Ok (mkFrame describe_index
               (map (fun c => (c.1, map Num (describe_column c.2)))
                  (columns t)))
  end.

(** [DataFrame.T]: rows become columns, in order. *)
Definition transpose (s : StatFrame) : StatFrame :=
  mkFrame (labels s)
    (imap (fun i r => (r, map (fun c => default (Num NaN) (c.2 !! i))
                            (columns s)))
       (index s)).

(** *** Missing values *)

(** [DataFrame.isna()]. *)
Definition isna (t : DataFrame) : Frame Date bool :=
  mkFrame (index t) (map (fun c => (c.1, map isna_cell c.2)) (columns t)).

Definition count_true (bs : list bool) : nat :=
  length (filter (fun b => b = true) bs).

(** Mean of a boolean column, [True] counting for one: NaN on no rows. *)
Definition mean_bool (bs : list bool) : float :=
  match bs with
  | [] => NaN
  | _ => Some (INR (count_true bs) / INR (length bs))%R
  end.

(** [DataFrame.mean()] of a boolean table: one value per column. *)
Definition frame_mean (t : Frame Date bool) : Series string float :=
  map (fun c => (c.1, mean_bool c.2)) (columns t).

(** A function applied to the values of a series. *)
Definition series_map {I A B} (f : A -> B) (s : Series I A) : Series I B :=
  map (fun p => (p.1, f p.2)) s.

(** [series * k]; NaN stays NaN. *)
Definition scale (s : Series string float) (k : R) : Series string float :=
  series_map (fun v => match v with
                       | Some x => Some (x * k)%R
                       | None => NaN
                       end) s.

(** Dates of the rows of a column that hold a value, in row order. *)
Definition valid_dates (idx : list Date) (col : list float) : list Date :=
  (filter (fun p => isna_cell p.2 = false) (zip idx col)).*1.

(** [Series.first_valid_index()] and [Series.last_valid_index()]. *)
Definition first_valid_index (idx : list Date) (col : list float)
  : option Date := head (valid_dates idx col).

Definition last_valid_index (idx : list Date) (col : list float)
  : option Date := last (valid_dates idx col).

(** [DataFrame.apply(f)] with a function of a column that returns a
    scalar: one value per column. *)
Definition apply {C} (f : list Date -> list float -> C) (t : DataFrame)
  : Series string C :=
  map (fun c => (c.1, f (index t) c.2)) (columns t).

(** *** Assignment of a column *)

Fixpoint set_column {C} (name : string) (v : list C)
  (cols : list (string * list C)) : list (string * list C) :=
  match cols with
  | [] => [(name, v)]
  | c :: cols' =>
      if String.eqb name c.1 then (name, v) :: cols'
      else c :: set_column name v cols'
  end.

(** [frame[name] = series]: the series is aligned on the row labels of the
    frame (rows it lacks get NaN; a series with duplicate labels cannot be
    aligned), then replaces the column of that name or is appended as the
    last column. *)
Definition setitem (s : StatFrame) (name : string) (v : Series string cell)
  : result StatFrame :=
  if bool_decide (v.*1 = index s) then
    Ok (mkFrame (index s) (set_column name v.*2 (columns s)))
  else if bool_decide (NoDup v.*1) then
    Ok (mkFrame (index s)
          (set_column name
             (map (fun r => default (Num NaN) (assoc r v)) (index s))
             (columns s)))
  else Raise (ValueError "cannot reindex on an axis with duplicate labels").

(** *** Selection *)

(** [frame[col]]: the column as a series over the row index, with the
    label of the column as its name. *)
Definition getitem (t : DataFrame) (col : string)
  : result (string * Series Date float) :=
  match assoc col (columns t) with
  | Some c => Ok (col, zip (index t) c)
  | None => Raise (KeyError col)
  end.

(** [Series.dropna()], on the values of a series; the name of the series
    is kept. *)
Definition dropna (s : Series Date float) : Series Date float :=
  filter (fun p => isna_cell p.2 = false) s.

(** *** Monthly resampling *)

(** The monthly bins of an index: every month from the earliest to the
    latest one, also those without a row. *)
Definition month_bins (idx : list Date) : list Z :=
  match map month_index idx with
  | [] => []
  | m :: ms =>
      let lo := foldr Z.min m ms in
      let hi := foldr Z.max m ms in
      seqZ lo (hi - lo + 1)
  end.

(** The present values of a column on the rows of one month. *)
Definition bin_values (mi : Z) (idx : list Date) (col : list float)
  : list R :=
  omap (fun p => if decide (month_index p.1 = mi) then p.2 else None)
    (zip idx col).

(** [frame.resample("M").mean()]: one row per monthly bin, labelled by the
    month end; each cell is the mean of the present values of the column
    in that month, NaN when there is none. *)
Definition resample_M_mean (t : DataFrame) : DataFrame :=
  let bins := month_bins (index t) in
  mkFrame (map month_end bins)
    (map (fun c => (c.1, map (fun mi => mean (bin_values mi (index t) c.2))
                           bins))
       (columns t)).

(** *** Correlation *)

(** The rows on which two columns both hold a value. *)
Definition pairs (a b : list float) : list (R * R) :=
  omap (fun p => match p with
                 | (Some x, Some y) => Some (x, y)
                 | _ => None
                 end) (zip a b).

(** Pearson's coefficient of the paired observations: NaN without any
    observation or when a column does not vary. *)
Definition pearson (ps : list (R * R)) : float :=
  match ps with
  | [] => NaN
  | _ =>
      let n := INR (length ps) in
      let mx := (rsum ps.*1 / n)%R in
      let my := (rsum ps.*2 / n)%R in
      let sxy := rsum (map (fun p => (p.1 - mx) * (p.2 - my))%R ps) in
      let sxx := rsum (map (fun p => (p.1 - mx) * (p.1 - mx))%R ps) in
      let syy := rsum (map (fun p => (p.2 - my) * (p.2 - my))%R ps) in
      let divisor := sqrt (sxx * syy) in
      if decide (divisor = 0%R) then NaN else Some (sxy / divisor)%R
  end.

(** [frame.corr()]: the cell of row [i] and column [j] is the coefficient
    of columns [i] and [j] over their pairwise complete rows. *)
Definition corr (t : DataFrame) : StatFrame :=
  mkFrame (labels t)
    (map (fun cj => (cj.1, map (fun ci => Num (pearson (pairs ci.2 cj.2)))
                             (columns t)))
       (columns t)).

End pd.

(** ** matplotlib: figures as values *)

(** What a call draws on an Axes: the lines of a table, the annotated
    heatmap of a matrix, the colour bar of a heatmap, the histogram of the
    values of a series with, when [kde] is set, their density curve. *)
Inductive artist :=
| Line2D (label : string) (xs : list Date) (ys : list float)
| Heatmap (data : StatFrame) (annot : bool) (fmt cmap : string) (center : Z)
| Colorbar (cmap : string) (center : Z)
| Histogram (data : Series Date float) (kde : bool).

Record Legend := mkLegend {
  legend_title : string;
  bbox_to_anchor : R * R;
  loc : string;
  handles : list string
}.

Record Axes := mkAxes {
  title : string;
  xlabel : string;
  ylabel : string;
  artists : list artist;
  legend : option Legend
}.

Record Figure := mkFigure {
  figsize : Z * Z;
  axes : list Axes;
  tight : bool
}.

Definition empty_axes : Axes := mkAxes "" "" "" [] None.

Definition line_labels (a : Axes) : list string :=
  omap (fun x => match x with Line2D l _ _ => Some l | _ => None end)
    (artists a).

(** ** The interpreter state *)

(** References to the objects of the three classes the program handles. *)
Inductive tref := TRef (n : nat).
Inductive sref := SRef (n : nat).
Inductive figref := FigRef (n : nat).
Definition axref : Type := figref * nat.

(** What [plt.subplots] hands back for the axes, and what the program puts
    in its [axes] variable: one Axes object, or a sequence. *)
#[warnings="-register-all"]
Inductive pyaxes :=
| Ax (a : axref)
| AxSeq (l : list pyaxes).

Inductive file :=
| Csv (s : StatFrame)
| Png (fig : Figure) (dpi : Z).

Record World := mkWorld {
  (** the remote provider: series identifier, start and end of the range *)
  provider : string -> string -> string -> result (list (Date * float));
  (** the current date, formatted year-month-day *)
  today : string;
  (** the directories that exist *)
  dirs : list string;
  (** the DataFrame objects holding time-indexed tables *)
  tables : list DataFrame;
  (** the DataFrame objects holding label-indexed tables *)
  stats : list StatFrame;
  (** pyplot's registry of figures *)
  figures : list Figure;
  (** the files written so far, oldest first *)
  files : list (string * file);
  (** the series requested from the provider so far, oldest first *)
  requests : list string;
  (** the lines printed so far *)
  stdout : list string
}.

Definition set_tables (f : list DataFrame -> list DataFrame) (w : World) :=
  mkWorld (provider w) (today w) (dirs w) (f (tables w)) (stats w)
    (figures w) (files w) (requests w) (stdout w).
Definition set_stats (f : list StatFrame -> list StatFrame) (w : World) :=
  mkWorld (provider w) (today w) (dirs w) (tables w) (f (stats w))
    (figures w) (files w) (requests w) (stdout w).
Definition set_figures (f : list Figure -> list Figure) (w : World) :=
  mkWorld (provider w) (today w) (dirs w) (tables w) (stats w)
    (f (figures w)) (files w) (requests w) (stdout w).
Definition set_files (f : list (string * file) -> list (string * file))
  (w : World) :=
  mkWorld (provider w) (today w) (dirs w) (tables w) (stats w)
    (figures w) (f (files w)) (requests w) (stdout w).
Definition set_requests (f : list string -> list string) (w : World) :=
  mkWorld (provider w) (today w) (dirs w) (tables w) (stats w)
    (figures w) (files w) (f (requests w)) (stdout w).
Definition set_stdout (f : list string -> list string) (w : World) :=
  mkWorld (provider w) (today w) (dirs w) (tables w) (stats w)
    (figures w) (files w) (requests w) (f (stdout w)).

(** ** The monad of statements: state, and exceptions that keep it *)

Definition M (A : Type) : Type := World -> result A * World.

Definition ret {A} (a : A) : M A := fun w => (Ok a, w).

Definition raise {A} (e : exn) : M A := fun w => (Raise e, w).

Definition bind {A B} (m : M A) (k : A -> M B) : M B :=
  fun w => match m w with
           | (Ok a, w') => k a w'
           | (Raise e, w') => (Raise e, w')
           end.

Notation "x <- m ;; k" := (bind m (fun x => k))
  (at level 100, m at next level, right associativity,
   format "'[v' x  <-  m  ;; '/' k ']'").
Notation "m ;; k" := (bind m (fun _ => k))
  (at level 100, right associativity,
   format "'[v' m  ;; '/' k ']'").

Definition lift {A} (r : result A) : M A := fun w => (r, w).

(** [for x in xs: body] with the variables the body updates as [s]. *)
Fixpoint for_in {X S} (xs : list X) (s : S) (body : S -> X -> M S) : M S :=
  match xs with
  | [] => ret s
  | x :: xs' => s' <- body s x ;; for_in xs' s' body
  end.

(** *** The object store *)

(** The use of a reference to no object.  Python has no such reference;
    the properties assume the references they start from to be valid. *)
Definition dangling {A} : M A := raise (TypeError "dangling reference").

Definition new_table (t : DataFrame) : M tref :=
  fun w => (Ok (TRef (length (tables w))), set_tables (fun l => l ++ [t]) w).

Definition read_table (r : tref) : M DataFrame :=
  fun w => let 'TRef n := r in
           match tables w !! n with
           | Some t => (Ok t, w)
           | None => dangling w
           end.

Definition new_stats (s : StatFrame) : M sref :=
  fun w => (Ok (SRef (length (stats w))), set_stats (fun l => l ++ [s]) w).

Definition read_stats (r : sref) : M StatFrame :=
  fun w => let 'SRef n := r in
           match stats w !! n with
           | Some s => (Ok s, w)
           | None => dangling w
           end.

(** In-place update of a label-indexed table. *)
Definition write_stats (r : sref) (s : StatFrame) : M unit :=
  fun w => let 'SRef n := r in
           match stats w !! n with
           | Some _ => (Ok tt, set_stats (fun l => <[n := s]> l) w)
           | None => dangling w
           end.

Definition read_figure (r : figref) : M Figure :=
  fun w => let 'FigRef n := r in
           match figures w !! n with
           | Some f => (Ok f, w)
           | None => dangling w
           end.

Definition write_figure (r : figref) (f : Figure) : M unit :=
  fun w => let 'FigRef n := r in
           match figures w !! n with
           | Some _ => (Ok tt, set_figures (fun l => <[n := f]> l) w)
           | None => dangling w
           end.

(** In-place update of one Axes of a figure. *)
Definition update_axes (a : axref) (f : Axes -> Axes) : M unit :=
  fig <- read_figure a.1 ;;
  match axes fig !! a.2 with
  | Some ax =>
      write_figure a.1
        (mkFigure (figsize fig) (<[a.2 := f ax]> (axes fig)) (tight fig))
  | None => dangling
  end.

(** A new Axes on a figure, after those it has. *)
Definition add_axes (r : figref) (ax : Axes) : M unit :=
  fig <- read_figure r ;;
  write_figure r (mkFigure (figsize fig) (axes fig ++ [ax]) (tight fig)).

(** An [axes] value used where one Axes object is expected. *)
Definition as_axes (v : pyaxes) : M axref :=
  match v with
  | Ax a => ret a
  | AxSeq _ => raise (TypeError "sequence has no Axes attributes")
  end.

(** *** The file system and the standard output *)

(** The directory part of a path: what precedes its last slash. *)
Fixpoint dirname (path : string) : option string :=
  match path with
  | EmptyString => None
  | String c rest =>
      match dirname rest with
      | Some d => Some (String c d)
      | None => if Ascii.eqb c "/" then Some EmptyString else None
      end
  end.

(** Creation of a file: refused when its directory does not exist. *)
Definition write_file (path : string) (content : file) : M unit :=
  fun w =>
    match dirname path with
    | Some d =>
        if bool_decide (d ∈ dirs w)
        then (Ok tt, set_files (fun l => l ++ [(path, content)]) w)
        else (Raise (OSError path), w)
    | None => (Ok tt, set_files (fun l => l ++ [(path, content)]) w)
    end.

Definition print (line : string) : M unit :=
  fun w => (Ok tt, set_stdout (fun l => l ++ [line]) w).

(** [datetime.today().strftime("%Y-%m-%d")]. *)
Definition today_strftime : M string := fun w => (Ok (today w), w).

(** ** The library calls of the program, as statements *)

(** [pandas_datareader.data.DataReader(fred_id, "fred", start, end)]: one
    request to the provider; the reply becomes a new table with the dates
    as index and one column, named by the series identifier. *)
Module web.

Definition DataReader (fred_id start end_ : string) : M tref :=
  fun w =>
    let w' := set_requests (fun l => l ++ [fred_id]) w in
    match provider w fred_id start end_ with
    | Ok obs => new_table (mkFrame obs.*1 [(fred_id, obs.*2)]) w'
    | Raise e => (Raise e, w')
    end.

End web.

(** Methods of DataFrame objects.  A method that returns a table creates a
    new object; only [setitem] writes to an existing one. *)
Module obj.

Definition rename (df : tref) (mapping : list (string * string)) : M tref :=
  t <- read_table df ;; new_table (pd.rename mapping t).

Definition concat (frames : list tref) : M tref :=
  ts <- for_in frames [] (fun acc r => t <- read_table r ;; ret (acc ++ [t])) ;;
  t <- lift (pd.concat_axis1 ts) ;;
  new_table t.

Definition describe (df : tref) : M sref :=
  t <- read_table df ;; s <- lift (pd.describe t) ;; new_stats s.

Definition T (s : sref) : M sref :=
  v <- read_stats s ;; new_stats (pd.transpose v).

(** An expression over a table that yields a value which is not a table
    (a series, a scalar). *)
Definition eval {A} (df : tref) (f : DataFrame -> A) : M A :=
  t <- read_table df ;; ret (f t).

Definition setitem (s : sref) (name : string) (v : Series string cell)
  : M unit :=
  old <- read_stats s ;; new <- lift (pd.setitem old name v) ;;
  write_stats s new.

Definition resample_M_mean (df : tref) : M tref :=
  t <- read_table df ;; new_table (pd.resample_M_mean t).

Definition corr (df : tref) : M sref :=
  t <- read_table df ;; new_stats (pd.corr t).

Definition getitem (df : tref) (col : string)
  : M (string * Series Date float) :=
  t <- read_table df ;; lift (pd.getitem t col).

Definition to_csv (s : sref) (path : string) : M unit :=
  v <- read_stats s ;; write_file path (Csv v).

(** [df.plot(ax=ax)]: one line per column, labelled by the column, over
    the row index. *)
Definition plot (df : tref) (ax : pyaxes) : M unit :=
  t <- read_table df ;;
  a <- as_axes ax ;;
  match columns t with
  | [] => raise (TypeError "no numeric data to plot")
  | _ =>
      update_axes a (fun x =>
        mkAxes (title x) (xlabel x) (ylabel x)
          (artists x ++ map (fun c => Line2D c.1 (index t) c.2) (columns t))
          (legend x))
  end.

End obj.

Module plt.

(** [plt.subplots(nrows, 1, figsize=...)]: a new figure with [nrows] empty
    Axes; the axes come back as one object when there is one, as a
    sequence otherwise.  The figure is created and registered first, the
    grid of its subplots next: no rows is refused then, and the figure
    stays in the registry without any Axes. *)
Definition subplots (nrows : nat) (size : Z * Z) : M (figref * pyaxes) :=
  fun w =>
    match nrows with
    | O => (Raise (ValueError "Number of rows must be a positive integer"),
            set_figures (fun l => l ++ [mkFigure size [] false]) w)
    | _ =>
        let f := FigRef (length (figures w)) in
        let fig := mkFigure size (replicate nrows empty_axes) false in
        let ax := match nrows with
                  | 1%nat => Ax (f, O)
                  | _ => AxSeq (map (fun i => Ax (f, i)) (seq 0 nrows))
                  end in
        (Ok (f, ax), set_figures (fun l => l ++ [fig]) w)
    end.

Definition set_title (ax : pyaxes) (s : string) : M unit :=
  a <- as_axes ax ;;
  update_axes a (fun x =>
    mkAxes s (xlabel x) (ylabel x) (artists x) (legend x)).

Definition set_xlabel (ax : pyaxes) (s : string) : M unit :=
  a <- as_axes ax ;;
  update_axes a (fun x =>
    mkAxes (title x) s (ylabel x) (artists x) (legend x)).

Definition set_ylabel (ax : pyaxes) (s : string) : M unit :=
  a <- as_axes ax ;;
  update_axes a (fun x =>
    mkAxes (title x) (xlabel x) s (artists x) (legend x)).

(** [ax.legend(title=..., bbox_to_anchor=..., loc=...)]: a legend of the
    labelled lines of the Axes. *)
Definition legend (ax : pyaxes) (ttl : string) (bbox : R * R) (loc : string)
  : M unit :=
  a <- as_axes ax ;;
  update_axes a (fun x =>
    mkAxes (title x) (xlabel x) (ylabel x) (artists x)
      (Some (mkLegend ttl bbox loc (line_labels x)))).

Definition tight_layout (fig : figref) : M unit :=
  f <- read_figure fig ;;
  write_figure fig (mkFigure (figsize f) (axes f) true).

Definition savefig (fig : figref) (path : string) (dpi : Z) : M unit :=
  f <- read_figure fig ;; write_file path (Png f dpi).

End plt.

Module sns.

(** The Axes seaborn adds to the figure for the colour bar of a heatmap. *)
Definition colorbar_axes (cmap : string) (center : Z) : Axes :=
  mkAxes "" "" "" [Colorbar cmap center] None.

(** [sns.heatmap(data, annot=..., fmt=..., cmap=..., center=..., ax=ax)]:
    the colour limits are taken from the cells, which fails on a matrix
    without any.  The matrix is drawn on the Axes, whose two labels become
    the names of the axes of the matrix (a matrix of correlations has
    none); the colour bar, drawn by default, gets an Axes of its own on
    the same figure. *)
Definition heatmap (data : sref) (annot : bool) (fmt cmap : string)
  (center : Z) (ax : pyaxes) : M unit :=
  v <- read_stats data ;;
  a <- as_axes ax ;;
  match columns v with
  | [] => raise (ValueError "zero-size array to reduction operation fmin")
  | _ =>
      update_axes a (fun x =>
        mkAxes (title x) "" ""
          (artists x ++ [Heatmap v annot fmt cmap center]) (legend x)) ;;
      add_axes a.1 (colorbar_axes cmap center)
  end.

(** A label seaborn gives an axis that has none yet. *)
Definition default_label (old new : string) : string :=
  if String.eqb old "" then new else old.

(** [sns.histplot(data, kde=..., ax=ax)] on a named series: the histogram
    of its values, with the density curve when [kde] is set.  From a series
    that is not empty the axes that have no label get one: the name of the
    series below, "Count" on the left.  From an empty series nothing shows
    and the labels stay as they are. *)
Definition histplot (data : string * Series Date float) (kde : bool)
  (ax : pyaxes) : M unit :=
  a <- as_axes ax ;;
  update_axes a (fun x =>
    match data.2 with
    | [] =>
        mkAxes (title x) (xlabel x) (ylabel x)
          (artists x ++ [Histogram data.2 kde]) (legend x)
    | _ =>
        mkAxes (title x) (default_label (xlabel x) data.1)
          (default_label (ylabel x) "Count")
          (artists x ++ [Histogram data.2 kde]) (legend x)
    end).

End sns.

(** [zip(axes, cols)]: pairs of the elements of the two sequences; a lone
    Axes object cannot be iterated. *)
Definition py_zip (v : pyaxes) (cols : list string)
  : M (list (pyaxes * string)) :=
  match v with
  | AxSeq l => ret (zip l cols)
  | Ax _ => raise (TypeError "'Axes' object is not iterable")
  end.

(** ** The program *)

(** Download multiple FRED series. *)
Definition fetch_fred_series (series : list (string * string))
  (start : string) (end_ : option string) : M tref :=
  end_ <- match end_ with
          | None => today_strftime
          | Some e => ret e
          end ;;
  frames <- for_in series [] (fun frames item =>
              let label := item.1 in
              let fred_id := item.2 in
              ts <- web.DataReader fred_id start end_ ;;
              ts <- obj.rename ts [(fred_id, label)] ;;
              ret (frames ++ [ts])) ;;
  combined <- obj.concat frames ;;
  ret combined.

(** Compute exploratory summary statistics for time series data. *)
Definition summarize_timeseries (df : tref) : M sref :=
  d <- obj.describe df ;;
  summary <- obj.T d ;;
  missing_pct <- obj.eval df (fun t =>
                   pd.scale (pd.frame_mean (pd.isna t)) 100) ;;
  obj.setitem summary "missing_pct" (pd.series_map Num missing_pct) ;;
  start_date <- obj.eval df (pd.apply pd.first_valid_index) ;;
  obj.setitem summary "start_date" (pd.series_map Stamp start_date) ;;
  end_date <- obj.eval df (pd.apply pd.last_valid_index) ;;
  obj.setitem summary "end_date" (pd.series_map Stamp end_date) ;;
  ret summary.

Definition plot_time_series_title : string := "Macro & Market Time Series".

(** Line chart of all series in the frame. *)
Definition plot_time_series (df : tref) (title : string) : M figref :=
  fa <- plt.subplots 1 (12, 6) ;;
  let fig := fa.1 in
  let ax := fa.2 in
  obj.plot df ax ;;
  plt.set_title ax title ;;
  plt.set_xlabel ax "Date" ;;
  plt.set_ylabel ax "Value" ;;
  plt.legend ax "Series" (1.05, 1)%R "upper left" ;;
  plt.tight_layout fig ;;
  ret fig.

Definition plot_correlation_heatmap_title : string :=
  "Correlation (monthly freq)".

(** Correlation heatmap after monthly resampling to align frequencies. *)
Definition plot_correlation_heatmap (df : tref) (title : string)
  : M figref :=
  monthly <- obj.resample_M_mean df ;;
  corr <- obj.corr monthly ;;
  fa <- plt.subplots 1 (7, 5) ;;
  let fig := fa.1 in
  let ax := fa.2 in
  sns.heatmap corr true ".2f" "RdBu_r" 0 ax ;;
  plt.set_title ax title ;;
  plt.tight_layout fig ;;
  ret fig.

(** Histogram and KDE for selected columns. *)
Definition plot_distribution (df : tref) (columns : option (list string))
  : M figref :=
  cols <- match columns with
          | Some c => ret c
          | None => obj.eval df labels
          end ;;
  fa <- plt.subplots (length cols) (8, 3 * Z.of_nat (length cols)) ;;
  let fig := fa.1 in
  let axes := fa.2 in
  let axes := if (length cols =? 1)%nat then AxSeq [axes] else axes in
  it <- py_zip axes cols ;;
  for_in it tt (fun _ item =>
    let ax := item.1 in
    let col := item.2 in
    s <- obj.getitem df col ;;
    sns.histplot (s.1, pd.dropna s.2) true ax ;;
    plt.set_title ax ("Distribution of " +:+ col)) ;;
  plt.tight_layout fig ;;
  ret fig.

Definition fred_series : list (string * string) :=
  [("cpi", "CPIAUCSL");
   ("unemployment_rate", "UNRATE");
   ("fed_funds_rate", "FEDFUNDS");
   ("sp500", "SP500")].

(** Example workflow that fetches US macro and markets data and saves
    outputs. *)
Definition run_quick_eda : M unit :=
  df <- fetch_fred_series fred_series "2010-01-01" None ;;
  summary <- summarize_timeseries df ;;
  obj.to_csv summary "data/processed/summary.csv" ;;
  fig1 <- plot_time_series df plot_time_series_title ;;
  plt.savefig fig1 "figures/time_series.png" 200 ;;
  fig2 <- plot_correlation_heatmap df plot_correlation_heatmap_title ;;
  plt.savefig fig2 "figures/correlation.png" 200 ;;
  fig3 <- plot_distribution df
            (Some ["cpi"; "unemployment_rate"; "fed_funds_rate"]) ;;
  plt.savefig fig3 "figures/distributions.png" 200 ;;
  print "Exploratory analysis complete. Outputs saved to data/processed and figures/".

(** The module run as a script. *)
Definition main : M unit := run_quick_eda.

(** * Vocabulary of the properties *)

(** What the statements below speak of: the values the functions are
    expected to build, predicates on runs, and a few concrete states. *)

(** A statement leaves a component of the state as it is, whatever the
    outcome. *)
Definition preserves {X A} (proj : World -> X) (m : M A) : Prop :=
  forall w, proj (m w).2 = proj w.

(** The table [DataReader] builds from a reply, and what [rename] makes
    of it. *)
Definition raw_frame (item : string * string) (obs : list (Date * float))
  : DataFrame := mkFrame obs.*1 [(item.2, obs.*2)].

Definition series_frame (item : string * string)
  (obs : list (Date * float)) : DataFrame :=
  mkFrame obs.*1 [(item.1, obs.*2)].

(** The body of the loop of [fetch_fred_series]. *)
Definition fetch_body (start end_ : string) (frames : list tref)
  (item : string * string) : M (list tref) :=
  let label := item.1 in
  let fred_id := item.2 in
  ts <- web.DataReader fred_id start end_ ;;
  ts <- obj.rename ts [(fred_id, label)] ;;
  ret (frames ++ [ts]).

(** The objects the loop creates, and the references it collects, when
    the store holds [n] tables at its start. *)
Fixpoint fetched_objects (series : list (string * string))
  (replies : list (list (Date * float))) : list DataFrame :=
  match series, replies with
  | item :: series', obs :: replies' =>
      raw_frame item obs :: series_frame item obs
        :: fetched_objects series' replies'
  | _, _ => []
  end.

Fixpoint fetched_refs (n k : nat) : list tref :=
  match k with
  | O => []
  | S k' => TRef (S n) :: fetched_refs (S (S n)) k'
  end.

(** The provider answers the request of an item of the mapping with the
    observations [obs]. *)
Definition replied (start end_ : string) (w : World)
  (item : string * string) (obs : list (Date * float)) : Prop :=
  provider w item.2 start end_ = Ok obs.

(** The scenario of the specification: two series over three days, the
    second one without a value on the second day. *)
Module Scenario.

Definition day (n : Z) : Date := mkDate 2020 1 n.

Definition reply_a : list (Date * float) :=
  [(day 1, Some 1%R); (day 2, Some 2%R); (day 3, Some 3%R)].

Definition reply_b : list (Date * float) :=
  [(day 1, Some 10%R); (day 2, None); (day 3, Some 30%R)].

Definition fred (fred_id start end_ : string)
  : result (list (Date * float)) :=
  if String.eqb fred_id "ID1" then Ok reply_a
  else if String.eqb fred_id "ID2" then Ok reply_b
  else Raise (RemoteDataError fred_id).

Definition world : World :=
  mkWorld fred "2020-01-03" ["data/processed"; "figures"] [] [] [] [] [] [].

Definition series : list (string * string) := [("a", "ID1"); ("b", "ID2")].

(** The merged table of the scenario. *)
Definition merged : DataFrame :=
  mkFrame [day 1; day 2; day 3]
    [("a", [Some 1%R; Some 2%R; Some 3%R]);
     ("b", [Some 10%R; None; Some 30%R])].

End Scenario.

(** The table [describe] returns. *)
Definition describe_table (t : DataFrame) : StatFrame :=
  mkFrame pd.describe_index
    (map (fun c => (c.1, map Num (pd.describe_column c.2))) (columns t)).

(** The three columns the summarizer adds. *)
Definition missing_pct_column (t : DataFrame) : list cell :=
  (pd.series_map Num (pd.scale (pd.frame_mean (pd.isna t)) 100)).*2.

Definition start_date_column (t : DataFrame) : list cell :=
  (pd.series_map Stamp (pd.apply pd.first_valid_index t)).*2.

Definition end_date_column (t : DataFrame) : list cell :=
  (pd.series_map Stamp (pd.apply pd.last_valid_index t)).*2.

(** The table the summarizer returns. *)
Definition summary_table (t : DataFrame) : StatFrame :=
  mkFrame (labels t)
    (columns (pd.transpose (describe_table t))
     ++ [("missing_pct", missing_pct_column t);
         ("start_date", start_date_column t);
         ("end_date", end_date_column t)]).

(** The cell of a table of statistics at a row position, in the column of
    a given name. *)
Definition stat_cell (s : StatFrame) (row : nat) (col : string)
  : option cell :=
  match pd.assoc col (columns s) with
  | Some c => c !! row
  | None => None
  end.

(** The number of NaN entries of a column. *)
Definition count_na (col : list float) : nat :=
  length (filter (fun x => isna_cell x = true) col).

(** The scenario's merged table as the only object of the store. *)
Definition scenario_store : World :=
  set_tables (fun _ => [Scenario.merged]) Scenario.world.

(** The cell of a matrix at row [i] and column [j], by position. *)
Definition matrix_cell (m : StatFrame) (i j : nat) : option cell :=
  match columns m !! j with
  | Some c => c.2 !! i
  | None => None
  end.

(** The magnitudes within which a float64 sum or quotient is the sum or
    quotient of the model up to rounding: well inside the format, whose
    largest finite number is about 1.8e308 and whose smallest normal one
    about 2.2e-308. *)
Definition float_large : R := 1e300.
Definition float_small : R := 1e-300.

(** A real number float64 holds at full precision: 0, or one of a
    magnitude within these bounds. *)
Definition in_float_range (x : R) : Prop :=
  x = 0%R \/ (float_small <= Rabs x <= float_large)%R.

(** A column varies when two of its values differ. *)
Definition varies (col : list float) : Prop :=
  exists i j x y,
    col !! i = Some (Some x) /\ col !! j = Some (Some y) /\ x <> y.

(** A table with a column, all of whose columns vary. *)
Definition all_vary (t : DataFrame) : Prop :=
  columns t <> [] /\ Forall (fun c => varies c.2) (columns t).

(** No value of a column exceeds [M] in magnitude. *)
Definition bounded_by (M : R) (col : list float) : Prop :=
  Forall (fun x => match x with
                   | Some v => (Rabs v <= M)%R
                   | None => True
                   end) col.

(** Two values of a column differ by [M / 2^20] or more. *)
Definition spread (M : R) (col : list float) : Prop :=
  exists i j x y,
    col !! i = Some (Some x) /\ col !! j = Some (Some y) /\
    (M / 1048576 <= Rabs (x - y))%R.

(** The largest scale, and the inverse of the smallest, of the values of a
    non-degenerate table. *)
Definition scale_bound : R := 1e50.

(** A non-degenerate input of the correlation plotter: a table with a
    column and at most 2^20 rows whose values have a scale [M], neither
    huge nor tiny: none exceeds [M] in magnitude, and every column of the
    monthly table holds two means that differ by [M / 2^20] or more.

    The cells of the model are exact reals.  This range is the one in
    which the idealisation stands for the float64 arithmetic of [corr]:
    its sums and products of squared deviations neither overflow nor
    underflow there, and the variation of a column is far above the
    rounding of its means. *)
Definition nondegenerate (t : DataFrame) : Prop :=
  columns t <> [] /\
  (Z.of_nat (nrows t) <= 1048576)%Z /\
  exists M : R,
    (/ scale_bound <= M <= scale_bound)%R /\
    Forall (fun c => bounded_by M c.2) (columns t) /\
    Forall (fun c => spread M c.2) (columns (pd.resample_M_mean t)).

(** A pair of observations with its two sides exchanged. *)
Definition swap (p : R * R) : R * R := (p.2, p.1).

(** The coefficient of at least one observation. *)
Definition coefficient (ps : list (R * R)) : float :=
  let n := INR (length ps) in
  let mx := (pd.rsum ps.*1 / n)%R in
  let my := (pd.rsum ps.*2 / n)%R in
  let sxy := pd.rsum (map (fun p => (p.1 - mx) * (p.2 - my))%R ps) in
  let sxx := pd.rsum (map (fun p => (p.1 - mx) * (p.1 - mx))%R ps) in
  let syy := pd.rsum (map (fun p => (p.2 - my) * (p.2 - my))%R ps) in
  let divisor := sqrt (sxx * syy) in
  if decide (divisor = 0%R) then NaN else Some (sxy / divisor)%R.

(** A figure with one of its Axes replaced. *)
Definition with_axes (fig : Figure) (i : nat) (ax : Axes) : Figure :=
  mkFigure (figsize fig) (<[i := ax]> (axes fig)) (tight fig).

(** Two states with the same tables. *)
Definition same_store (w w' : World) : Prop :=
  tables w' = tables w /\ stats w' = stats w.

(** The figure the correlation plotter builds from a table: the Axes of
    the matrix, then the Axes of the colour bar. *)
Definition correlation_figure (t : DataFrame) (title : string) : Figure :=
  mkFigure (7, 5)
    [mkAxes title "" ""
       [Heatmap (pd.corr (pd.resample_M_mean t)) true ".2f" "RdBu_r" 0]
       None;
     sns.colorbar_axes "RdBu_r" 0]
    true.

(** A table over two months: a rising and a falling column. *)
Definition two_months : DataFrame :=
  mkFrame [mkDate 2020 1 15; mkDate 2020 2 15]
    [("a", [Some 1%R; Some 2%R]); ("b", [Some 3%R; Some 1%R])].

(** The values of a column of a table that are not NaN, with their
    dates. *)
Definition column_values (t : DataFrame) (c : string) : Series Date float :=
  pd.dropna (zip (index t) (default [] (pd.assoc c (columns t)))).

(** The subplot of one column: its title and the histogram, with density
    curve, of the values of the column that are not NaN; the labels of
    its axes when the column has a value. *)
Definition distribution_axes (t : DataFrame) (c : string) : Axes :=
  mkAxes ("Distribution of " +:+ c)
    (match column_values t c with [] => "" | _ => c end)
    (match column_values t c with [] => "" | _ => "Count" end)
    [Histogram (column_values t c) true]
    None.

(** The body of the loop of [plot_distribution]. *)
Definition distribution_body (n : nat) (_ : unit) (item : pyaxes * string)
  : M unit :=
  let ax := item.1 in
  let col := item.2 in
  s <- obj.getitem (TRef n) col ;;
  sns.histplot (s.1, pd.dropna s.2) true ax ;;
  plt.set_title ax ("Distribution of " +:+ col).

(** The selection of columns of a call: the given one, or every column. *)
Definition selection (t : DataFrame) (columns : option (list string))
  : list string := default (labels t) columns.

(** The figure the time-series plotter builds from a table. *)
Definition time_series_figure (t : DataFrame) (title : string) : Figure :=
  mkFigure (12, 6)
    [mkAxes title "Date" "Value"
       (map (fun c => Line2D c.1 (index t) c.2) (columns t))
       (Some (mkLegend "Series" (1.05, 1)%R "upper left" (labels t)))]
    true.

(** The four files of a run, in the order they are written. *)
Definition output_paths : list string :=
  ["data/processed/summary.csv"; "figures/time_series.png";
   "figures/correlation.png"; "figures/distributions.png"].

(** A step that writes no file, requests nothing and prints nothing. *)
Definition quiet {A} (m : M A) : Prop :=
  forall w, files (m w).2 = files w /\ requests (m w).2 = requests w /\
            stdout (m w).2 = stdout w.

(** A step that may write one file, at the given path, when it returns,
    and does nothing else that shows. *)
Definition writes_at_most {A} (path : string) (m : M A) : Prop :=
  forall w,
    requests (m w).2 = requests w /\ stdout (m w).2 = stdout w /\
    ((exists a, (m w).1 = Ok a) /\ (files (m w).2).*1 = (files w).*1 ++ [path]
     \/ (exists e, (m w).1 = Raise e) /\ files (m w).2 = files w).

(** How far a run has come: [k] files written, [j] series requested,
    nothing printed. *)
Definition progress (k j : nat) (w w' : World) : Prop :=
  (files w').*1 = (files w).*1 ++ take k output_paths /\
  requests w' = requests w ++ take j fred_series.*2 /\
  stdout w' = stdout w.

(** The line printed at the end of a run. *)
Definition completion_message : string :=
  "Exploratory analysis complete. Outputs saved to data/processed and figures/".

(** The figure of the three distributions of a run. *)
Definition distributions_figure (t : DataFrame) : Figure :=
  mkFigure (8, 9)
    (map (distribution_axes t) ["cpi"; "unemployment_rate"; "fed_funds_rate"])
    true.

(** Two states to run the orchestrator in: a provider that answers every
    request with the second series of the scenario, with both output
    directories, and without the directory of the figures. *)
Module Runs.

Definition answers (fred_id start end_ : string)
  : result (list (Date * float)) := Ok Scenario.reply_b.

Definition complete : World :=
  mkWorld answers "2020-01-03" ["data/processed"; "figures"]
    [] [] [] [] [] [].

Definition no_figures_directory : World :=
  mkWorld answers "2020-01-03" ["data/processed"] [] [] [] [] [] [].

End Runs.

(** A few more tables and states to run the functions on. *)
Module Cases.

(** A table whose first column has one value and whose second has none. *)
Definition sparse : DataFrame :=
  mkFrame [Scenario.day 1; Scenario.day 2]
    [("a", [Some 5%R; None]); ("b", [None; None])].

Definition sparse_store : World :=
  set_tables (fun _ => [sparse]) Scenario.world.

(** A table with rows and no column, and one with a column and no row. *)
Definition no_columns : DataFrame :=
  mkFrame [Scenario.day 1; Scenario.day 2] [].

Definition no_columns_store : World :=
  set_tables (fun _ => [no_columns]) Scenario.world.

Definition no_rows : DataFrame := mkFrame [] [("a", [])].

Definition no_rows_store : World :=
  set_tables (fun _ => [no_rows]) Scenario.world.

(** A table over two months whose first column does not vary, and a
    table with a month without any row between two months with one. *)
Definition flat : DataFrame :=
  mkFrame [mkDate 2020 1 15; mkDate 2020 2 15]
    [("a", [Some 1%R; Some 1%R]); ("b", [Some 3%R; Some 1%R])].

Definition gap : DataFrame :=
  mkFrame [mkDate 2020 1 15; mkDate 2020 3 15]
    [("a", [Some 1%R; Some 2%R])].

(** A provider whose first series repeats a date. *)
Definition repeating (fred_id start end_ : string)
  : result (list (Date * float)) :=
  if String.eqb fred_id "ID1"
  then Ok [(Scenario.day 1, Some 1%R); (Scenario.day 1, Some 2%R)]
  else Ok Scenario.reply_b.

Definition repeating_world : World :=
  mkWorld repeating "2020-01-03" [] [] [] [] [] [] [].

(** States to run the orchestrator in: a provider that fails on the third
    series, and a provider that answers, without the directory of the
    summary. *)
Definition failing (fred_id start end_ : string)
  : result (list (Date * float)) :=
  if String.eqb fred_id "FEDFUNDS" then Raise (RemoteDataError fred_id)
  else Ok Scenario.reply_b.

Definition failing_world : World :=
  mkWorld failing "2020-01-03" ["data/processed"; "figures"]
    [] [] [] [] [] [].

Definition no_data_directory : World :=
  mkWorld Runs.answers "2020-01-03" ["figures"] [] [] [] [] [] [].

End Cases.

(** * Properties *)

(** ** Running statements *)

Section Running.
Context {A B : Type}.

Lemma bind_run (m : M A) (k : A -> M B) w a w1 :
  m w = (Ok a, w1) -> bind m k w = k a w1.
Proof. unfold bind; now intros ->. Qed.

Lemma bind_raise (m : M A) (k : A -> M B) w e w1 :
  m w = (Raise e, w1) -> bind m k w = (Raise e, w1).
Proof. unfold bind; now intros ->. Qed.

Lemma bind_ok_inv (m : M A) (k : A -> M B) w b w' :
  bind m k w = (Ok b, w') ->
  exists a w1, m w = (Ok a, w1) /\ k a w1 = (Ok b, w').
Proof.
  unfold bind. destruct (m w) as [[a|e] w1]; [eauto | discriminate].
Qed.

Lemma bind_raise_inv (m : M A) (k : A -> M B) w e w' :
  bind m k w = (Raise e, w') ->
  m w = (Raise e, w') \/
  exists a w1, m w = (Ok a, w1) /\ k a w1 = (Raise e, w').
Proof.
  unfold bind. destruct (m w) as [[a|e1] w1]; [eauto | intros [= -> ->]; eauto].
Qed.
End Running.

Lemma read_table_run w n t :
  tables w !! n = Some t -> read_table (TRef n) w = (Ok t, w).
Proof. unfold read_table; now intros ->. Qed.

Lemma read_table_dangling w n :
  tables w !! n = None ->
  read_table (TRef n) w = (Raise (TypeError "dangling reference"), w).
Proof. unfold read_table; now intros ->. Qed.

Lemma read_stats_run w n s :
  stats w !! n = Some s -> read_stats (SRef n) w = (Ok s, w).
Proof. unfold read_stats; now intros ->. Qed.

Lemma read_figure_run w n f :
  figures w !! n = Some f -> read_figure (FigRef n) w = (Ok f, w).
Proof. unfold read_figure; now intros ->. Qed.

(** Methods that read one table and create an object. *)
Lemma rename_run w n t mapping :
  tables w !! n = Some t ->
  obj.rename (TRef n) mapping w =
    (Ok (TRef (length (tables w))),
     set_tables (fun l => l ++ [pd.rename mapping t]) w).
Proof.
  intros H. unfold obj.rename.
  now rewrite (bind_run _ _ _ _ _ (read_table_run _ _ _ H)).
Qed.

Lemma resample_M_mean_run w n t :
  tables w !! n = Some t ->
  obj.resample_M_mean (TRef n) w =
    (Ok (TRef (length (tables w))),
     set_tables (fun l => l ++ [pd.resample_M_mean t]) w).
Proof.
  intros H. unfold obj.resample_M_mean.
  now rewrite (bind_run _ _ _ _ _ (read_table_run _ _ _ H)).
Qed.

Lemma corr_run w n t :
  tables w !! n = Some t ->
  obj.corr (TRef n) w =
    (Ok (SRef (length (stats w))), set_stats (fun l => l ++ [pd.corr t]) w).
Proof.
  intros H. unfold obj.corr.
  now rewrite (bind_run _ _ _ _ _ (read_table_run _ _ _ H)).
Qed.

Lemma eval_run {A} w n t (f : DataFrame -> A) :
  tables w !! n = Some t -> obj.eval (TRef n) f w = (Ok (f t), w).
Proof.
  intros H. unfold obj.eval.
  now rewrite (bind_run _ _ _ _ _ (read_table_run _ _ _ H)).
Qed.

Lemma T_run w n s :
  stats w !! n = Some s ->
  obj.T (SRef n) w =
    (Ok (SRef (length (stats w))),
     set_stats (fun l => l ++ [pd.transpose s]) w).
Proof.
  intros H. unfold obj.T.
  now rewrite (bind_run _ _ _ _ _ (read_stats_run _ _ _ H)).
Qed.

(** ** Statements that leave a component of the state alone *)

Create HintDb frame.

Section Preserves.
Context {X : Type} (proj : World -> X).

Lemma preserves_ret {A} (a : A) : preserves proj (ret a).
Proof. now intros w. Qed.

Lemma preserves_raise {A} e : preserves proj (@raise A e).
Proof. now intros w. Qed.

Lemma preserves_lift {A} (r : result A) : preserves proj (lift r).
Proof. now intros w. Qed.

Lemma preserves_dangling {A} : preserves proj (@dangling A).
Proof. now intros w. Qed.

Lemma preserves_bind {A B} (m : M A) (k : A -> M B) :
  preserves proj m -> (forall a, preserves proj (k a)) ->
  preserves proj (bind m k).
Proof.
  intros Hm Hk w. unfold bind. specialize (Hm w).
  destruct (m w) as [[a|e] w1]; simpl in *; [|done].
  now rewrite Hk.
Qed.

Lemma preserves_for_in {Y S} (xs : list Y) (s : S) body :
  (forall s x, preserves proj (body s x)) ->
  preserves proj (for_in xs s body).
Proof.
  intros Hb. revert s. induction xs as [|x xs IH]; intros s; simpl.
  - apply preserves_ret.
  - apply preserves_bind; auto.
Qed.

Lemma preserves_read_table r : preserves proj (read_table r).
Proof.
  intros w. destruct r as [n]. unfold read_table.
  now destruct (tables w !! n).
Qed.

Lemma preserves_read_stats r : preserves proj (read_stats r).
Proof.
  intros w. destruct r as [n]. unfold read_stats.
  now destruct (stats w !! n).
Qed.

Lemma preserves_read_figure r : preserves proj (read_figure r).
Proof.
  intros w. destruct r as [n]. unfold read_figure.
  now destruct (figures w !! n).
Qed.

Lemma preserves_as_axes v : preserves proj (as_axes v).
Proof. now destruct v. Qed.

Lemma preserves_py_zip v cols : preserves proj (py_zip v cols).
Proof. now destruct v. Qed.

Lemma preserves_today : preserves proj today_strftime.
Proof. now intros w. Qed.

(** A write to one component leaves the projections that ignore it. *)
Lemma preserves_write_figure r f :
  (forall g w, proj (set_figures g w) = proj w) ->
  preserves proj (write_figure r f).
Proof.
  intros H w. destruct r as [n]. unfold write_figure.
  destruct (figures w !! n); simpl; auto.
Qed.

Lemma preserves_new_figure n size :
  (forall g w, proj (set_figures g w) = proj w) ->
  preserves proj (plt.subplots n size).
Proof.
  intros H w. unfold plt.subplots. destruct n; simpl; auto.
Qed.

Lemma preserves_write_stats r s :
  (forall g w, proj (set_stats g w) = proj w) ->
  preserves proj (write_stats r s).
Proof.
  intros H w. destruct r as [n]. unfold write_stats.
  destruct (stats w !! n); simpl; auto.
Qed.

Lemma preserves_new_stats s :
  (forall g w, proj (set_stats g w) = proj w) ->
  preserves proj (new_stats s).
Proof. intros H w. simpl. apply H. Qed.

Lemma preserves_new_table t :
  (forall g w, proj (set_tables g w) = proj w) ->
  preserves proj (new_table t).
Proof. intros H w. simpl. apply H. Qed.

Lemma preserves_write_file path content :
  (forall g w, proj (set_files g w) = proj w) ->
  preserves proj (write_file path content).
Proof.
  intros H w. unfold write_file.
  destruct (dirname path); [case_bool_decide|]; simpl; auto.
Qed.

Lemma preserves_print line :
  (forall g w, proj (set_stdout g w) = proj w) ->
  preserves proj (print line).
Proof. intros H w. simpl. apply H. Qed.

Lemma preserves_DataReader fred_id start end_ :
  (forall g w, proj (set_tables g w) = proj w) ->
  (forall g w, proj (set_requests g w) = proj w) ->
  preserves proj (web.DataReader fred_id start end_).
Proof.
  intros Ht Hr w. unfold web.DataReader.
  destruct (provider w fred_id start end_); simpl; rewrite ?Ht; apply Hr.
Qed.
End Preserves.

#[global] Hint Resolve preserves_ret preserves_raise preserves_lift
  preserves_dangling preserves_read_table preserves_read_stats
  preserves_read_figure preserves_as_axes preserves_py_zip preserves_today
  : frame.

#[global] Hint Unfold update_axes add_axes
  obj.rename obj.concat obj.describe obj.T obj.eval obj.setitem
  obj.resample_M_mean obj.corr obj.getitem obj.to_csv obj.plot
  plt.set_title plt.set_xlabel plt.set_ylabel plt.legend plt.tight_layout
  plt.savefig sns.heatmap sns.histplot : frame.

(** Decomposes a preservation goal along the structure of the statement. *)
Ltac frame_side := solve [reflexivity | assumption].

Ltac frame_step :=
  match goal with
  | |- preserves _ (bind _ _) => apply preserves_bind; [|intros ?]
  | |- preserves _ (for_in _ _ _) => apply preserves_for_in; intros ? ?
  | |- preserves _ (write_figure _ _) =>
      apply preserves_write_figure; frame_side
  | |- preserves _ (plt.subplots _ _) =>
      apply preserves_new_figure; frame_side
  | |- preserves _ (write_stats _ _) =>
      apply preserves_write_stats; frame_side
  | |- preserves _ (new_stats _) => apply preserves_new_stats; frame_side
  | |- preserves _ (new_table _) => apply preserves_new_table; frame_side
  | |- preserves _ (web.DataReader _ _ _) =>
      apply preserves_DataReader; frame_side
  | |- preserves _ (write_file _ _) => apply preserves_write_file; frame_side
  | |- preserves _ (print _) => apply preserves_print; frame_side
  | |- preserves _ (match ?x with _ => _ end) => destruct x
  | |- preserves _ (if ?x then _ else _) => destruct x
  | |- preserves _ _ => solve [auto with frame]
  | |- preserves _ _ => progress autounfold with frame
  end.

Ltac frame := repeat frame_step.

Section ProgramFrames.
Context {X : Type} (proj : World -> X).

Lemma fetch_fred_series_frame series start end_ :
  (forall g w, proj (set_tables g w) = proj w) ->
  (forall g w, proj (set_requests g w) = proj w) ->
  preserves proj (fetch_fred_series series start end_).
Proof. intros Ht Hr. unfold fetch_fred_series. frame. Qed.

Lemma summarize_timeseries_frame df :
  (forall g w, proj (set_stats g w) = proj w) ->
  preserves proj (summarize_timeseries df).
Proof. intros Hs. unfold summarize_timeseries. frame. Qed.

Lemma plot_time_series_frame df title :
  (forall g w, proj (set_figures g w) = proj w) ->
  preserves proj (plot_time_series df title).
Proof. intros Hf. unfold plot_time_series. frame. Qed.

Lemma plot_correlation_heatmap_frame df title :
  (forall g w, proj (set_tables g w) = proj w) ->
  (forall g w, proj (set_stats g w) = proj w) ->
  (forall g w, proj (set_figures g w) = proj w) ->
  preserves proj (plot_correlation_heatmap df title).
Proof. intros Ht Hs Hf. unfold plot_correlation_heatmap. frame. Qed.

Lemma plot_distribution_frame df columns :
  (forall g w, proj (set_figures g w) = proj w) ->
  preserves proj (plot_distribution df columns).
Proof. intros Hf. unfold plot_distribution. frame. Qed.
End ProgramFrames.

(** ** Concatenation of tables *)

Section Concat.
Import pd.

Lemma position_None d idx : position d idx = None <-> d ∉ idx.
Proof.
  induction idx as [|d' idx IH]; simpl.
  - split; [intros _; apply not_elem_of_nil | done].
  - destruct (decide (d = d')) as [->|Hne].
    + split; [done | intros H; destruct H; left].
    + rewrite not_elem_of_cons, <- IH.
      destruct (position d idx); simpl; split; try done; now intros [_ ?].
Qed.

Lemma position_Some d idx j : position d idx = Some j -> idx !! j = Some d.
Proof.
  revert j. induction idx as [|d' idx IH]; intros j; simpl; [done|].
  destruct (decide (d = d')) as [->|Hne].
  - now intros [= <-].
  - destruct (position d idx) as [j'|]; simpl; [|done].
    intros [= <-]. simpl. now apply IH.
Qed.

Lemma reindex_length new_index idx col :
  length (reindex new_index idx col) = length new_index.
Proof. unfold reindex. apply length_map. Qed.

Lemma reindex_absent new_index idx col i d :
  new_index !! i = Some d -> d ∉ idx ->
  reindex new_index idx col !! i = Some NaN.
Proof.
  intros Hi Hd. unfold reindex. rewrite list_lookup_fmap, Hi. simpl.
  apply position_None in Hd. now rewrite Hd.
Qed.

Lemma reindex_present new_index idx col i d :
  new_index !! i = Some d -> d ∈ idx -> length col = length idx ->
  exists j x, idx !! j = Some d /\ col !! j = Some x /\
              reindex new_index idx col !! i = Some x.
Proof.
  intros Hi Hd Hlen. unfold reindex. rewrite list_lookup_fmap, Hi. simpl.
  destruct (position d idx) as [j|] eqn:Hp.
  - apply position_Some in Hp. exists j.
    destruct (col !! j) as [x|] eqn:Hx.
    + exists x. auto.
    + apply lookup_ge_None in Hx. apply lookup_lt_Some in Hp. lia.
  - apply position_None in Hp. done.
Qed.

Lemma elem_of_remove_one x d l : x ∈ remove_one d l -> x ∈ l.
Proof.
  induction l as [|y l IH]; simpl; [done|].
  destruct (decide (y = d)); [now right|].
  rewrite !elem_of_cons. intros [->|H]; auto.
Qed.

Lemma elem_of_remove_one_ne x d l : x ∈ l -> x <> d -> x ∈ remove_one d l.
Proof.
  intros Hx Hne. induction l as [|y l IH]; simpl; [done|].
  apply elem_of_cons in Hx as [->|Hx].
  - rewrite decide_False by done. left.
  - destruct (decide (y = d)); [done|]. right. now apply IH.
Qed.

Lemma elem_of_surplus x a : forall b, x ∈ surplus a b -> x ∈ b.
Proof.
  unfold surplus. induction a as [|d a IH]; intros b; simpl; [done|].
  intros H%IH. now apply elem_of_remove_one in H.
Qed.

Lemma elem_of_surplus_fresh x a : forall b,
  x ∈ b -> x ∉ a -> x ∈ surplus a b.
Proof.
  unfold surplus. induction a as [|d a IH]; intros b Hb Ha; simpl; [done|].
  apply not_elem_of_cons in Ha as [Hne Ha].
  apply IH; [|done]. now apply elem_of_remove_one_ne.
Qed.

Lemma elem_of_union_index d a b : d ∈ union_index a b <-> d ∈ a \/ d ∈ b.
Proof.
  unfold union_index. case_bool_decide as H1.
  - destruct H1 as [-> | ->]; [|tauto].
    split; [auto | intros [H|H]; [done | inversion H]].
  - case_bool_decide as H2.
    + subst a. split; [auto | intros [H|H]; [inversion H | done]].
    + rewrite merge_sort_Permutation, elem_of_app. split.
      * intros [H|H]; [auto|]. right. now apply elem_of_surplus in H.
      * intros [H|H]; [auto|].
        destruct (decide (d ∈ a)); [auto|].
        right. now apply elem_of_surplus_fresh.
Qed.

Lemma elem_of_foldl_union d idxs acc :
  d ∈ foldl union_index acc idxs <->
  d ∈ acc \/ exists idx, idx ∈ idxs /\ d ∈ idx.
Proof.
  revert acc. induction idxs as [|a idxs IH]; intros acc; simpl.
  - split; [auto | intros [H|(idx & H & _)]; [done | inversion H]].
  - rewrite IH, elem_of_union_index. split.
    + intros [[H|H]|(idx & H1 & H2)]; eauto.
      * right. exists a. split; [left | done].
      * right. exists idx. split; [now right | done].
    + intros [H|(idx & H1 & H2)]; [auto|].
      apply elem_of_cons in H1 as [->|H1]; eauto.
Qed.

Lemma elem_of_union_indexes d idxs :
  d ∈ union_indexes idxs <-> exists idx, idx ∈ idxs /\ d ∈ idx.
Proof.
  unfold union_indexes. destruct idxs as [|idx rest].
  - split; [intros H; inversion H | intros (i & H & _); inversion H].
  - rewrite elem_of_foldl_union. split.
    + intros [H|(i & H1 & H2)].
      * exists idx. split; [left | done].
      * exists i. split; [now right | done].
    + intros (i & H1 & H2).
      apply elem_of_cons in H1 as [->|H1]; eauto.
Qed.

(** When every index is the same, that index is the union. *)
Lemma foldl_union_same idx rest :
  Forall (fun i => i = idx) rest -> foldl union_index idx rest = idx.
Proof.
  induction 1 as [|i rest -> _ IH]; simpl; [done|].
  unfold union_index at 2. rewrite bool_decide_eq_true_2 by auto. exact IH.
Qed.

(** How [concat_axis1] returns a table. *)
Lemma concat_axis1_Ok frames t :
  concat_axis1 frames = Ok t ->
  Forall (fun g => index g = union_indexes (map index frames)
                   \/ NoDup (index g)) frames /\
  t = mkFrame (union_indexes (map index frames))
        (concat (map (align (union_indexes (map index frames))) frames)).
Proof.
  unfold concat_axis1. destruct frames as [|f rest]; [done|].
  case_bool_decide as Hall; [|done].
  intros [= <-]. split; [exact Hall | done].
Qed.

Lemma labels_align idx g : (align idx g).*1 = labels g.
Proof.
  unfold align, labels. rewrite <- list_fmap_compose.
  apply list_fmap_ext. intros i c _. simpl. now case_bool_decide.
Qed.

Lemma concat_axis1_labels frames t :
  concat_axis1 frames = Ok t -> labels t = concat (map labels frames).
Proof.
  intros (_ & ->)%concat_axis1_Ok. unfold labels at 1. cbn [columns].
  generalize (union_indexes (map index frames)). intros idx.
  induction frames as [|f fs IH]; simpl; [done|].
  now rewrite fmap_app, IH, labels_align.
Qed.

Lemma concat_axis1_index frames t d :
  concat_axis1 frames = Ok t ->
  d ∈ index t <-> exists f, f ∈ frames /\ d ∈ index f.
Proof.
  intros (_ & ->)%concat_axis1_Ok. cbn [index].
  rewrite elem_of_union_indexes. split.
  - intros (idx & Hidx & Hd).
    apply list_elem_of_fmap in Hidx as (f & -> & Hf). eauto.
  - intros (f & Hf & Hd). exists (index f). split; [|done].
    apply list_elem_of_fmap. eauto.
Qed.

Lemma concat_axis1_succeeds frames :
  frames <> [] -> Forall (fun g => NoDup (index g)) frames ->
  exists t, concat_axis1 frames = Ok t.
Proof.
  intros Hne Hnd. unfold concat_axis1. destruct frames as [|f rest]; [done|].
  rewrite bool_decide_eq_true_2; [eauto|].
  eapply Forall_impl; [exact Hnd|]. intros g Hg. now right.
Qed.
End Concat.

(** ** The fetcher *)

Section Fetch.
Variables start end_ : string.

Lemma rename_raw_frame item obs :
  pd.rename [(item.2, item.1)] (raw_frame item obs) = series_frame item obs.
Proof.
  unfold pd.rename, raw_frame, series_frame. simpl.
  now rewrite String.eqb_refl.
Qed.

Lemma fetch_body_run frames item obs w :
  replied start end_ w item obs ->
  fetch_body start end_ frames item w =
    (Ok (frames ++ [TRef (S (length (tables w)))]),
     set_tables (fun l => l ++ [series_frame item obs])
       (set_tables (fun l => l ++ [raw_frame item obs])
          (set_requests (fun l => l ++ [item.2]) w))).
Proof.
  intros Hp. unfold replied in Hp. unfold fetch_body, web.DataReader.
  unfold bind at 1. rewrite Hp. unfold new_table at 1. simpl.
  erewrite bind_run; cycle 1.
  { apply rename_run. simpl. now apply list_lookup_middle. }
  fold (raw_frame item obs). rewrite rename_raw_frame.
  unfold ret. simpl. now rewrite length_app, Nat.add_comm.
Qed.

Lemma fetch_body_inv frames item w frames' w' :
  fetch_body start end_ frames item w = (Ok frames', w') ->
  exists obs, replied start end_ w item obs.
Proof.
  unfold fetch_body, web.DataReader, replied. unfold bind at 1.
  destruct (provider w item.2 start end_) as [obs|e]; [eauto | done].
Qed.

Lemma fetch_body_provider frames item :
  preserves provider (fetch_body start end_ frames item).
Proof. unfold fetch_body. frame. Qed.

Lemma fetch_loop_run series : forall replies frames w,
  Forall2 (replied start end_ w) series replies ->
  exists w',
    for_in series frames (fetch_body start end_) w =
      (Ok (frames ++ fetched_refs (length (tables w)) (length series)), w')
    /\ tables w' = tables w ++ fetched_objects series replies
    /\ requests w' = requests w ++ series.*2.
Proof.
  induction series as [|item series IH]; intros replies frames w Hall.
  - inversion Hall; subst. exists w. simpl.
    now rewrite !app_nil_r.
  - inversion Hall as [|? obs ? replies' Hp Hrest]; subst. simpl.
    erewrite bind_run by (apply fetch_body_run; eassumption).
    match goal with
    | |- context [for_in series ?fr (fetch_body start end_) ?w2] =>
        destruct (IH replies' fr w2) as (w' & Hrun & Htab & Hreq)
    end.
    { eapply Forall2_impl; [exact Hrest|]. intros it o Hr; exact Hr. }
    exists w'. rewrite Hrun, Htab, Hreq. simpl.
    rewrite !length_app. simpl.
    rewrite <- !app_assoc. simpl.
    repeat split; repeat f_equal; lia.
Qed.

Lemma fetch_loop_inv series : forall frames w frames' w',
  for_in series frames (fetch_body start end_) w = (Ok frames', w') ->
  exists replies, Forall2 (replied start end_ w) series replies.
Proof.
  induction series as [|item series IH]; intros frames w frames' w' Hrun.
  - exists []. constructor.
  - simpl in Hrun. apply bind_ok_inv in Hrun as (fr1 & w1 & Hb & Hrest).
    pose proof (fetch_body_inv _ _ _ _ _ Hb) as [obs Hobs].
    apply IH in Hrest as [replies Hall].
    exists (obs :: replies). constructor; [done|].
    eapply Forall2_impl; [exact Hall|].
    intros it o. unfold replied.
    pose proof (fetch_body_provider frames item w) as Hpr.
    rewrite Hb in Hpr. simpl in Hpr. now rewrite Hpr.
Qed.
End Fetch.

Section FetchResult.
Variables start : string.

Lemma concat_read_run refs : forall ts acc w,
  Forall2 (fun r t => exists n, r = TRef n /\ tables w !! n = Some t)
    refs ts ->
  for_in refs acc (fun acc r => t <- read_table r ;; ret (acc ++ [t])) w
  = (Ok (acc ++ ts), w).
Proof.
  induction refs as [|r refs IH]; intros ts acc w Hall.
  - inversion Hall; subst. simpl. now rewrite app_nil_r.
  - inversion Hall as [|? t ? ts' (n & -> & Hn) Hrest]; subst. simpl.
    erewrite bind_run; cycle 1.
    { erewrite bind_run; [reflexivity | apply read_table_run; exact Hn]. }
    rewrite (IH ts') by done. now rewrite <- app_assoc.
Qed.

Lemma fetched_lookup series : forall replies pre,
  length series = length replies ->
  Forall2 (fun r t => exists n, r = TRef n /\
             (pre ++ fetched_objects series replies) !! n = Some t)
    (fetched_refs (length pre) (length series))
    (zip_with series_frame series replies).
Proof.
  induction series as [|item series IH]; intros [|obs replies] pre Hlen;
    simpl in *; try done; try constructor.
  - exists (S (length pre)). split; [done|].
    change (pre ++ raw_frame item obs :: series_frame item obs
              :: fetched_objects series replies)
      with (pre ++ [raw_frame item obs] ++ series_frame item obs
              :: fetched_objects series replies).
    rewrite app_assoc. apply list_lookup_middle.
    rewrite length_app. simpl. lia.
  - specialize (IH replies (pre ++ [raw_frame item obs;
                                     series_frame item obs])).
    rewrite length_app, <- app_assoc in IH. simpl in IH.
    replace (length pre + 2)%nat with (S (S (length pre))) in IH by lia.
    apply IH. lia.
Qed.

(** What a call of the fetcher does once the provider has replied to
    every request. *)
Lemma fetch_fred_series_run series end_ w replies :
  Forall2 (replied start (default (today w) end_) w) series replies ->
  exists w1,
    tables w1 = tables w ++ fetched_objects series replies /\
    requests w1 = requests w ++ series.*2 /\
    fetch_fred_series series start end_ w =
      match pd.concat_axis1 (zip_with series_frame series replies) with
      | Ok t => (Ok (TRef (length (tables w1))),
                 set_tables (fun l => l ++ [t]) w1)
      | Raise e => (Raise e, w1)
      end.
Proof.
  intros Hall.
  destruct (fetch_loop_run start (default (today w) end_) series replies
              [] w Hall) as (w1 & Hloop & Htab & Hreq).
  exists w1. split; [done|]. split; [done|].
  unfold fetch_fred_series.
  erewrite bind_run; cycle 1.
  { instantiate (1 := w). instantiate (1 := default (today w) end_).
    now destruct end_. }
  erewrite bind_run by exact Hloop.
  unfold obj.concat. unfold bind at 1.
  erewrite bind_run; cycle 1.
  { apply concat_read_run. rewrite Htab. apply fetched_lookup.
    now apply Forall2_length in Hall. }
  unfold bind, lift, ret, new_table. simpl.
  destruct (pd.concat_axis1 _) as [t|e]; reflexivity.
Qed.

Lemma series_frames_columns {C} series :
  forall replies
    (h : DataFrame -> string * list float -> C),
  concat (map (fun g => map (h g) (columns g))
            (zip_with series_frame series replies))
  = zip_with (fun item obs => h (series_frame item obs) (item.1, obs.*2))
      series replies.
Proof.
  induction series as [|item series IH]; intros [|obs replies] h; simpl;
    try done.
  now rewrite IH.
Qed.

Lemma series_frames_concat series : forall replies,
  concat (map columns (zip_with series_frame series replies))
  = zip_with (fun item obs => (item.1, obs.*2)) series replies.
Proof.
  induction series as [|item series IH]; intros [|obs replies]; simpl;
    try done.
  now rewrite IH.
Qed.

Lemma lookup_fst_snd {A B} (l : list (A * B)) i a b :
  l.*1 !! i = Some a -> l.*2 !! i = Some b -> l !! i = Some (a, b).
Proof.
  rewrite !list_lookup_fmap. destruct (l !! i) as [[a' b']|]; simpl; [|done].
  now intros [= ->] [= ->].
Qed.
End FetchResult.



(** C9.  On the empty mapping the fetcher raises the error of a
    concatenation of no frames; it requests nothing and creates no
    table. *)
Theorem fetch_fred_series_empty start end_ w :
  fetch_fred_series [] start end_ w
  = (Raise (ValueError "No objects to concatenate"), w).
Proof. destruct end_; reflexivity. Qed.

(** The fetcher of the scenario returns the merged table of the
    scenario, as the fifth table of the store. *)
Example scenario_fetch :
  exists w',
    fetch_fred_series Scenario.series "2020-01-01" (Some "2020-01-03")
      Scenario.world = (Ok (TRef 4), w') /\
    tables w' !! 4%nat = Some Scenario.merged /\
    requests w' = ["ID1"; "ID2"].
Proof. eexists. repeat split; lazy; reflexivity. Qed.

(** ** The summarizer *)

Section Summary.
Import pd.

Lemma set_column_fresh {C} name (v : list C) cols :
  name ∉ cols.*1 -> set_column name v cols = cols ++ [(name, v)].
Proof.
  induction cols as [|c cols IH]; simpl; [done|].
  rewrite not_elem_of_cons. intros [Hne Hnin].
  apply String.eqb_neq in Hne. rewrite Hne. now rewrite IH.
Qed.

Lemma assoc_app_fresh {V} k (l l' : list (string * V)) :
  k ∉ l.*1 -> assoc k (l ++ l') = assoc k l'.
Proof.
  induction l as [|[k' v] l IH]; simpl; [done|].
  rewrite not_elem_of_cons. intros [Hne Hnin].
  apply String.eqb_neq in Hne. rewrite Hne. now apply IH.
Qed.

Lemma imap_fst {A B} (g : nat -> A -> B) (l : list A) :
  (imap (fun i r => (r, g i r)) l).*1 = l.
Proof.
  revert g. induction l as [|x l IH]; intros g; simpl; [done|].
  f_equal. apply (IH (fun i r => g (S i) r)).
Qed.

Lemma labels_transpose s : labels (transpose s) = index s.
Proof. unfold labels, transpose. simpl. apply imap_fst. Qed.

Lemma series_map_fst {I A B} (f : A -> B) (s : Series I A) :
  (series_map f s).*1 = s.*1.
Proof.
  unfold series_map. rewrite <- list_fmap_compose. now apply list_fmap_ext.
Qed.

Lemma series_map_snd {I A B} (f : A -> B) (s : Series I A) :
  (series_map f s).*2 = f <$> s.*2.
Proof.
  unfold series_map. rewrite <- !list_fmap_compose.
  apply list_fmap_ext; intros; reflexivity.
Qed.

(** Assignment of a new column whose series is indexed like the
    frame. *)
Lemma setitem_fresh s name v :
  v.*1 = index s -> name ∉ labels s ->
  setitem s name v = Ok (mkFrame (index s) (columns s ++ [(name, v.*2)])).
Proof.
  intros Hidx Hnin. unfold setitem.
  rewrite bool_decide_eq_true_2 by done.
  now rewrite set_column_fresh.
Qed.

Lemma describe_Ok t :
  columns t <> [] -> describe t = Ok (describe_table t).
Proof. unfold describe, describe_table. now destruct (columns t). Qed.

Lemma labels_describe_table t : labels (describe_table t) = labels t.
Proof.
  unfold labels, describe_table. simpl.
  rewrite <- list_fmap_compose. now apply list_fmap_ext.
Qed.

Lemma setitem_run w l old name v new :
  stats w = l ++ [old] -> setitem old name v = Ok new ->
  exists w', obj.setitem (SRef (length l)) name v w = (Ok tt, w') /\
             stats w' = l ++ [new] /\ tables w' = tables w.
Proof.
  intros Hst Hset. unfold obj.setitem.
  assert (Hl : stats w !! length l = Some old)
    by (rewrite Hst; now apply list_lookup_middle).
  rewrite (bind_run _ _ _ _ _ (read_stats_run _ _ _ Hl)).
  unfold bind, lift. rewrite Hset. unfold write_stats. rewrite Hl.
  eexists. split; [reflexivity|]. simpl. split; [|done].
  rewrite Hst. rewrite insert_app_r_alt by done.
  now rewrite Nat.sub_diag.
Qed.

Lemma summarize_timeseries_run w n t :
  tables w !! n = Some t -> columns t <> [] ->
  exists w',
    summarize_timeseries (TRef n) w = (Ok (SRef (S (length (stats w)))), w')
    /\ stats w' = stats w ++ [describe_table t; summary_table t]
    /\ tables w' = tables w.
Proof.
  intros Ht Hcols. unfold summarize_timeseries.
  (* d = df.describe() *)
  erewrite bind_run; cycle 1.
  { unfold obj.describe.
    rewrite (bind_run _ _ _ _ _ (read_table_run _ _ _ Ht)).
    unfold bind, lift. rewrite (describe_Ok _ Hcols). reflexivity. }
  (* summary = d.T *)
  erewrite bind_run; cycle 1.
  { apply T_run. simpl. now apply list_lookup_middle. }
  set (d := describe_table t).
  assert (Hld : index (transpose d) = labels t)
    by (simpl; apply labels_describe_table).
  set (w2 := set_stats _ (set_stats _ w)).
  assert (Hst2 : stats w2 = (stats w ++ [d]) ++ [transpose d]) by done.
  assert (Hrow : forall {C} (f : list Date -> list float -> C),
             (apply f t).*1 = labels t).
  { intros C f. unfold apply, labels.
    rewrite <- list_fmap_compose. now apply list_fmap_ext. }
  assert (Hlen : length (stats (set_stats (fun l => l ++ [d]) w))
                 = length (stats w ++ [d])) by done.
  rewrite Hlen.
  (* summary["missing_pct"] = ... *)
  erewrite bind_run by (apply eval_run; exact Ht).
  set (v1 := series_map Num (scale (frame_mean (isna t)) 100)).
  assert (Hidx1 : v1.*1 = index (transpose d)).
  { rewrite Hld. unfold v1, scale. rewrite !series_map_fst.
    unfold frame_mean, isna, labels. simpl.
    rewrite <- !list_fmap_compose. apply list_fmap_ext; intros; reflexivity. }
  assert (Hf1 : "missing_pct" ∉ labels (transpose d)).
  { unfold labels. simpl. apply (bool_decide_unpack _).
    vm_compute. exact I. }
  destruct (setitem_run w2 _ _ "missing_pct" v1 _ Hst2
              (setitem_fresh _ _ _ Hidx1 Hf1))
    as (w3 & Hrun3 & Hst3 & Htab3).
  erewrite bind_run by exact Hrun3.
  (* summary["start_date"] = ... *)
  erewrite bind_run by (apply eval_run; rewrite Htab3; exact Ht).
  set (v2 := series_map Stamp (apply first_valid_index t)).
  assert (Hidx2 : v2.*1 = index (transpose d))
    by (rewrite Hld; unfold v2; now rewrite series_map_fst, Hrow).
  set (s1 := mkFrame (index (transpose d))
               (columns (transpose d) ++ [("missing_pct", v1.*2)])) in *.
  assert (Hf2 : "start_date" ∉ labels s1).
  { unfold labels, s1. simpl. apply (bool_decide_unpack _).
    vm_compute. exact I. }
  destruct (setitem_run w3 _ _ "start_date" v2 _ Hst3
              (setitem_fresh s1 _ _ Hidx2 Hf2))
    as (w4 & Hrun4 & Hst4 & Htab4).
  erewrite bind_run by exact Hrun4.
  (* summary["end_date"] = ... *)
  erewrite bind_run by (apply eval_run; rewrite Htab4, Htab3; exact Ht).
  set (v3 := series_map Stamp (apply last_valid_index t)).
  assert (Hidx3 : v3.*1 = index (transpose d))
    by (rewrite Hld; unfold v3; now rewrite series_map_fst, Hrow).
  set (s2 := mkFrame (index s1)
               (columns s1 ++ [("start_date", v2.*2)])) in *.
  assert (Hf3 : "end_date" ∉ labels s2).
  { unfold labels, s2, s1. simpl. apply (bool_decide_unpack _).
    vm_compute. exact I. }
  destruct (setitem_run w4 _ _ "end_date" v3 _ Hst4
              (setitem_fresh s2 _ _ Hidx3 Hf3))
    as (w5 & Hrun5 & Hst5 & Htab5).
  erewrite bind_run by exact Hrun5.
  exists w5. split.
  { unfold ret. now rewrite length_app, Nat.add_comm. }
  split; [|now rewrite Htab5, Htab4, Htab3].
  rewrite Hst5, <- app_assoc. f_equal.
  change ([d] ++ ?x) with (d :: x). do 2 f_equal.
  unfold summary_table, s2, s1. cbn [index columns].
  rewrite Hld, <- !app_assoc. reflexivity.
Qed.
End Summary.

Section SummaryCells.
Import pd.

Lemma count_true_isna col : count_true (map isna_cell col) = count_na col.
Proof.
  unfold count_true, count_na.
  induction col as [|x col IH]; simpl; [done|].
  rewrite !filter_cons. destruct x; simpl.
  - exact IH.
  - now rewrite IH.
Qed.

Lemma count_na_none col : Forall (fun x => x <> NaN) col -> count_na col = O.
Proof.
  unfold count_na. induction 1 as [|x col Hx _ IH]; simpl; [done|].
  rewrite filter_cons. destruct x; [|done]. exact IH.
Qed.

Lemma valid_dates_all_na idx col :
  Forall (fun x => x = NaN) col -> valid_dates idx col = [].
Proof.
  unfold valid_dates. intros Hall. revert idx.
  induction Hall as [|x col Hx _ IH]; intros [|d idx]; simpl; try done.
  rewrite filter_cons. subst x. simpl. apply IH.
Qed.

Lemma summary_column name t (v : list cell) :
  assoc name [("missing_pct", missing_pct_column t);
              ("start_date", start_date_column t);
              ("end_date", end_date_column t)] = Some v ->
  name ∉ describe_index ->
  forall k, stat_cell (summary_table t) k name = v !! k.
Proof.
  intros Hv Hnin k. unfold stat_cell, summary_table. cbn [columns].
  rewrite assoc_app_fresh.
  - now rewrite Hv.
  - fold (labels (transpose (describe_table t))).
    now rewrite labels_transpose.
Qed.

Lemma describe_index_fresh name :
  bool_decide (name ∈ describe_index) = false -> name ∉ describe_index.
Proof. now intros H%bool_decide_eq_false. Qed.

(** The cells of the three added columns, for the column at position
    [k] of the table. *)
Lemma summary_missing_pct t k c col :
  columns t !! k = Some (c, col) -> col <> [] ->
  stat_cell (summary_table t) k "missing_pct"
  = Some (Num (Some (INR (count_na col) / INR (length col) * 100)%R)).
Proof.
  intros Hk Hne.
  rewrite (summary_column _ _ (missing_pct_column t)); [|done|].
  - unfold missing_pct_column, scale, frame_mean, isna. cbn [columns].
    rewrite !series_map_snd, !list_lookup_fmap.
    rewrite Hk. simpl.
    unfold mean_bool. destruct col as [|x col]; [done|].
    rewrite <- (count_true_isna (x :: col)). simpl map.
    cbn [length]. now rewrite length_map.
  - now apply describe_index_fresh.
Qed.

(** Without a row the percentage is NaN: the mean of no value. *)
Lemma summary_missing_pct_no_rows t k c :
  columns t !! k = Some (c, []) ->
  stat_cell (summary_table t) k "missing_pct" = Some (Num NaN).
Proof.
  intros Hk.
  rewrite (summary_column _ _ (missing_pct_column t)); [|done|].
  - unfold missing_pct_column, scale, frame_mean, isna. cbn [columns].
    rewrite !series_map_snd, !list_lookup_fmap.
    now rewrite Hk.
  - now apply describe_index_fresh.
Qed.

Lemma summary_dates_absent t k c col :
  columns t !! k = Some (c, col) -> Forall (fun x => x = NaN) col ->
  stat_cell (summary_table t) k "start_date" = Some (Stamp None) /\
  stat_cell (summary_table t) k "end_date" = Some (Stamp None).
Proof.
  intros Hk Hall. split.
  - rewrite (summary_column _ _ (start_date_column t)); [|done|].
    + unfold start_date_column, apply.
      rewrite series_map_snd, !list_lookup_fmap, Hk. simpl.
      unfold first_valid_index. now rewrite valid_dates_all_na.
    + now apply describe_index_fresh.
  - rewrite (summary_column _ _ (end_date_column t)); [|done|].
    + unfold end_date_column, apply.
      rewrite series_map_snd, !list_lookup_fmap, Hk. simpl.
      unfold last_valid_index. now rewrite valid_dates_all_na.
    + now apply describe_index_fresh.
Qed.
End SummaryCells.

(** C2 (as the code has it).  On a table with at least one column and one
    row, the summarizer returns a table with one row per column of the
    input; its missing-value percentage for a column is the number of NaN
    entries divided by the number of rows, times 100: 0 for a column
    without missing entries, one hundred thirds (not 33.33) for one
    missing entry out of three; and for a column of NaN only the first and
    last valid dates are both absent. *)
Theorem summarize_timeseries_missing_pct w n t :
  tables w !! n = Some t -> columns t <> [] -> well_formed t ->
  (0 < nrows t)%nat ->
  exists m w' s,
    summarize_timeseries (TRef n) w = (Ok (SRef m), w') /\
    stats w' !! m = Some s /\
    index s = labels t /\
    forall k c col, columns t !! k = Some (c, col) ->
      stat_cell s k "missing_pct"
        = Some (Num (Some (INR (count_na col) / INR (nrows t) * 100)%R)) /\
      (Forall (fun x => x <> NaN) col ->
         stat_cell s k "missing_pct" = Some (Num (Some 0%R))) /\
      (count_na col = 1%nat -> nrows t = 3%nat ->
         stat_cell s k "missing_pct" = Some (Num (Some (100 / 3)%R))) /\
      (Forall (fun x => x = NaN) col ->
         stat_cell s k "start_date" = Some (Stamp None) /\
         stat_cell s k "end_date" = Some (Stamp None)).
Proof.
  intros Ht Hcols Hwf Hrows.
  destruct (summarize_timeseries_run w n t Ht Hcols) as (w' & Hrun & Hst & _).
  exists (S (length (stats w))), w', (summary_table t).
  split; [done|]. split.
  { rewrite Hst.
    change (stats w ++ [describe_table t; summary_table t])
      with (stats w ++ [describe_table t] ++ [summary_table t]).
    rewrite app_assoc. apply list_lookup_middle.
    rewrite length_app. simpl. lia. }
  split; [done|].
  intros k c col Hk.
  assert (Hlen : length col = nrows t).
  { unfold well_formed in Hwf. rewrite Forall_forall in Hwf.
    apply (Hwf (c, col)). apply list_elem_of_lookup. eauto. }
  assert (Hne : col <> []) by (intros ->; simpl in Hlen; lia).
  pose proof (summary_missing_pct t k c col Hk Hne) as Hpct.
  rewrite Hlen in Hpct.
  split; [done|]. split; [|split].
  - intros Hall. rewrite Hpct, (count_na_none col Hall). simpl.
    do 3 f_equal. unfold Rdiv. now rewrite !Rmult_0_l.
  - intros H1 H3. rewrite Hpct, H1, H3. simpl. do 3 f_equal. lra.
  - intros Hall. now apply (summary_dates_absent t k c col).
Qed.

Lemma summarize_timeseries_missing_pct_witness :
  exists m w' s,
    summarize_timeseries (TRef 0) scenario_store = (Ok (SRef m), w') /\
    stats w' !! m = Some s /\
    stat_cell s 0 "missing_pct" = Some (Num (Some 0%R)) /\
    stat_cell s 1 "missing_pct" = Some (Num (Some (100 / 3)%R)).
Proof.
  destruct (summarize_timeseries_missing_pct scenario_store 0 Scenario.merged)
    as (m & w' & s & Hrun & Hs & _ & Hcells).
  - reflexivity.
  - discriminate.
  - repeat constructor.
  - unfold nrows. simpl. lia.
  - exists m, w', s. split; [exact Hrun|]. split; [exact Hs|]. split.
    + apply (Hcells 0%nat "a" [Some 1%R; Some 2%R; Some 3%R]); [reflexivity|].
      repeat constructor; discriminate.
    + apply (Hcells 1%nat "b" [Some 10%R; None; Some 30%R]); reflexivity.
Defined.

(** C2, the figure of the specification's scenario: with one missing entry
    out of three rows the reported percentage is one hundred thirds, which
    is not 33.33. *)
Lemma missing_pct_one_of_three_is_not_33_33 :
  exists m w' s,
    summarize_timeseries (TRef 0) scenario_store = (Ok (SRef m), w') /\
    stats w' !! m = Some s /\
    stat_cell s 1 "missing_pct" = Some (Num (Some (100 / 3)%R)) /\
    stat_cell s 1 "missing_pct" <> Some (Num (Some 33.33%R)).
Proof.
  destruct (summarize_timeseries_run scenario_store 0 Scenario.merged)
    as (w' & Hrun & Hst & _); [reflexivity | discriminate |].
  exists 1%nat, w', (summary_table Scenario.merged).
  split; [exact Hrun|]. split; [now rewrite Hst|].
  assert (Hcell : stat_cell (summary_table Scenario.merged) 1 "missing_pct"
                  = Some (Num (Some (100 / 3)%R))).
  { rewrite (summary_missing_pct Scenario.merged 1 "b"
               [Some 10%R; None; Some 30%R]) by done.
    simpl. do 3 f_equal. lra. }
  split; [exact Hcell|].
  rewrite Hcell. intros [= H]. lra.
Qed.

(** ** Monthly resampling *)

Section Resample.
Import pd.

Lemma foldr_min_le m ms x : x ∈ m :: ms -> foldr Z.min m ms <= x.
Proof.
  induction ms as [|y ms IH]; simpl.
  - intros Hx. apply list_elem_of_singleton in Hx. lia.
  - rewrite !elem_of_cons. intros [->|[->|Hx]].
    + assert (foldr Z.min m ms <= m) by (apply IH; left). lia.
    + lia.
    + assert (foldr Z.min m ms <= x) by (apply IH; now right). lia.
Qed.

Lemma foldr_max_ge m ms x : x ∈ m :: ms -> x <= foldr Z.max m ms.
Proof.
  induction ms as [|y ms IH]; simpl.
  - intros Hx. apply list_elem_of_singleton in Hx. lia.
  - rewrite !elem_of_cons. intros [->|[->|Hx]].
    + assert (m <= foldr Z.max m ms) by (apply IH; left). lia.
    + lia.
    + assert (x <= foldr Z.max m ms) by (apply IH; now right). lia.
Qed.

(** A month with a row is one of the bins, and is so exactly once. *)
Lemma month_bins_lookup idx mi :
  mi ∈ map month_index idx ->
  exists j, month_bins idx !! j = Some mi /\
            forall j', month_bins idx !! j' = Some mi -> j' = j.
Proof.
  unfold month_bins. destruct (map month_index idx) as [|m ms]; intros Hin.
  - inversion Hin.
  - pose proof (foldr_min_le m ms mi Hin) as Hlo.
    pose proof (foldr_max_ge m ms mi Hin) as Hhi.
    set (lo := foldr Z.min m ms) in *. set (hi := foldr Z.max m ms) in *.
    exists (Z.to_nat (mi - lo)). split.
    + apply lookup_seqZ. lia.
    + intros j' Hj'. apply lookup_seqZ in Hj'. lia.
Qed.

Lemma bin_values_month mi idx col :
  bin_values mi idx col <> [] -> mi ∈ map month_index idx.
Proof.
  unfold bin_values. revert col.
  induction idx as [|d idx IH]; intros [|x col]; simpl; try done.
  destruct (decide (month_index d = mi)) as [<-|Hne].
  - intros _. left.
  - intros H. right. now apply (IH col).
Qed.

(** The row of a month in the resampled table, and its cell in the
    column at position [k]. *)
Lemma resample_M_mean_cell t k c col mi :
  columns t !! k = Some (c, col) ->
  bin_values mi (index t) col <> [] ->
  exists j,
    index (resample_M_mean t) !! j = Some (month_end mi) /\
    (forall j', index (resample_M_mean t) !! j' = Some (month_end mi) ->
                j' = j) /\
    exists col',
      columns (resample_M_mean t) !! k = Some (c, col') /\
      col' !! j = Some (mean (bin_values mi (index t) col)).
Proof.
  intros Hk Hne.
  destruct (month_bins_lookup (index t) mi (bin_values_month _ _ _ Hne))
    as (j & Hj & Huniq).
  exists j. unfold resample_M_mean. cbn [index columns]. split; [|split].
  - now rewrite list_lookup_fmap, Hj.
  - intros j' Hj'. apply Huniq.
    rewrite list_lookup_fmap in Hj'.
    destruct (month_bins (index t) !! j') as [mi'|]; [|done].
    apply (inj Some) in Hj'. now apply month_end_inj in Hj' as ->.
  - eexists. split.
    + rewrite list_lookup_fmap, Hk. reflexivity.
    + cbn [snd]. now rewrite list_lookup_fmap, Hj.
Qed.
End Resample.



(** ** Correlation *)

Section Correlation.
Import pd.
Local Open Scope R_scope.

Lemma pairs_swap a : forall b, pairs b a = map swap (pairs a b).
Proof.
  unfold pairs.
  induction a as [|x a IH]; intros [|y b]; simpl; try done.
  rewrite IH. now destruct x, y.
Qed.

Lemma rsum_ext {A} (f g : A -> R) l :
  (forall x, f x = g x) -> rsum (map f l) = rsum (map g l).
Proof.
  intros H. induction l as [|x l IH]; simpl; [done|].
  now rewrite H, IH.
Qed.

Lemma pearson_coefficient ps : ps <> [] -> pearson ps = coefficient ps.
Proof. now destruct ps. Qed.

Lemma pearson_swap ps : pearson (map swap ps) = pearson ps.
Proof.
  destruct (decide (ps = [])) as [->|Hne]; [done|].
  rewrite !pearson_coefficient by (try done; now destruct ps).
  unfold coefficient.
  assert (H1 : (map swap ps).*1 = ps.*2).
  { change (map swap ps) with (swap <$> ps). rewrite <- list_fmap_compose.
    apply list_fmap_ext; intros; reflexivity. }
  assert (H2 : (map swap ps).*2 = ps.*1).
  { change (map swap ps) with (swap <$> ps). rewrite <- list_fmap_compose.
    apply list_fmap_ext; intros; reflexivity. }
  rewrite H1, H2, length_map, !map_map.
  set (mx := rsum ps.*1 / INR (length ps)).
  set (my := rsum ps.*2 / INR (length ps)).
  rewrite (rsum_ext (fun x => ((swap x).1 - my) * ((swap x).2 - mx))
             (fun x => (x.1 - mx) * (x.2 - my)))
    by (intros; simpl; lra).
  rewrite (rsum_ext (fun x => ((swap x).1 - my) * ((swap x).1 - my))
             (fun x => (x.2 - my) * (x.2 - my))) by done.
  rewrite (rsum_ext (fun x => ((swap x).2 - mx) * ((swap x).2 - mx))
             (fun x => (x.1 - mx) * (x.1 - mx))) by done.
  now rewrite (Rmult_comm (rsum (map (fun x => (x.2 - my) * (x.2 - my)) ps))).
Qed.

(** The matrix is symmetric, cell by cell. *)
Lemma corr_symmetric t i j :
  matrix_cell (corr t) i j = matrix_cell (corr t) j i.
Proof.
  unfold matrix_cell, corr. cbn [columns].
  rewrite !list_lookup_fmap.
  destruct (columns t !! i) as [ci|] eqn:Hi,
           (columns t !! j) as [cj|] eqn:Hj; simpl;
    rewrite ?list_lookup_fmap, ?Hi, ?Hj; simpl; try done.
  now rewrite (pairs_swap cj.2 ci.2), pearson_swap.
Qed.

Lemma pairs_diag col : pairs col col = map (fun x => (x, x)) (present col).
Proof.
  unfold pairs, present. induction col as [|x col IH]; simpl; [done|].
  destruct x; simpl; [f_equal|]; exact IH.
Qed.

Lemma rsum_nonneg {A} (f : A -> R) l :
  (forall x, 0 <= f x) -> 0 <= rsum (map f l).
Proof.
  intros H. induction l as [|x l IH]; simpl; [lra|].
  specialize (H x). lra.
Qed.

Lemma rsum_zero {A} (f : A -> R) l x :
  (forall y, 0 <= f y) -> rsum (map f l) = 0 -> x ∈ l -> f x = 0.
Proof.
  intros Hf. induction l as [|y l IH]; simpl; intros Hs Hx.
  - inversion Hx.
  - pose proof (Hf y). pose proof (rsum_nonneg f l Hf).
    apply elem_of_cons in Hx as [->|Hx]; [lra|].
    apply IH; [lra | done].
Qed.

Lemma elem_of_present col i x :
  col !! i = Some (Some x) -> x ∈ present col.
Proof.
  intros H. unfold present. apply list_elem_of_omap.
  exists (Some x). split; [|done]. apply list_elem_of_lookup. eauto.
Qed.

(** The squared deviations of a column that varies do not sum to 0. *)
Lemma varies_ssqdm col m :
  varies col ->
  rsum (map (fun x => (x - m) * (x - m)) (present col)) <> 0.
Proof.
  intros (i & j & x & y & Hi & Hj & Hxy) Hs.
  assert (Hsq : forall z : R, 0 <= (z - m) * (z - m))
    by (intros z; apply (Rle_0_sqr (z - m))).
  pose proof (rsum_zero _ _ x Hsq Hs (elem_of_present _ _ _ Hi)) as Hx.
  pose proof (rsum_zero _ _ y Hsq Hs (elem_of_present _ _ _ Hj)) as Hy.
  apply (Rsqr_0_uniq (x - m)) in Hx. apply (Rsqr_0_uniq (y - m)) in Hy.
  lra.
Qed.

(** A column that varies correlates with itself with coefficient 1. *)
Lemma pearson_diag col : varies col -> pearson (pairs col col) = Some 1.
Proof.
  intros Hv. rewrite pairs_diag.
  set (l := map (fun x => (x, x)) (present col)).
  assert (Hne : l <> []).
  { destruct Hv as (i & _ & x & _ & Hi & _).
    apply elem_of_present in Hi. unfold l.
    destruct (present col); [inversion Hi | done]. }
  rewrite pearson_coefficient by exact Hne. unfold coefficient.
  assert (H1 : l.*1 = present col).
  { unfold l. change (map ?f ?x) with (f <$> x).
    rewrite <- list_fmap_compose.
    rewrite <- (list_fmap_id (present col)) at 2.
    apply list_fmap_ext; intros; reflexivity. }
  assert (H2 : l.*2 = present col).
  { unfold l. change (map ?f ?x) with (f <$> x).
    rewrite <- list_fmap_compose.
    rewrite <- (list_fmap_id (present col)) at 2.
    apply list_fmap_ext; intros; reflexivity. }
  rewrite H1, H2. unfold l. rewrite !map_map. cbn [fst snd].
  set (m := rsum (present col) / INR (length _)).
  set (s := rsum (map (fun x => (x - m) * (x - m)) (present col))).
  assert (Hs : 0 <= s)
    by (apply rsum_nonneg; intros z; apply (Rle_0_sqr (z - m))).
  assert (Hs0 : s <> 0) by now apply varies_ssqdm.
  rewrite sqrt_square by exact Hs.
  rewrite decide_False by exact Hs0.
  f_equal. now field.
Qed.

Lemma corr_diagonal t i :
  all_vary t -> (i < length (columns t))%nat ->
  matrix_cell (corr t) i i = Some (Num (Some 1)).
Proof.
  intros Hnd Hi. unfold matrix_cell, corr. cbn [columns].
  destruct (columns t !! i) as [ci|] eqn:Hci.
  - rewrite list_lookup_fmap, Hci. simpl.
    rewrite list_lookup_fmap, Hci. simpl. do 2 f_equal.
    apply pearson_diag.
    destruct Hnd as [_ Hnd]. rewrite Forall_forall in Hnd.
    apply (Hnd ci). apply list_elem_of_lookup. eauto.
  - apply lookup_ge_None in Hci. lia.
Qed.
End Correlation.

(** ** Drawing on the figure created last *)

Section Drawing.
Variables (w : World) (l : list Figure) (fig : Figure).
Hypothesis Hfig : figures w = l ++ [fig].

Lemma read_last_figure : read_figure (FigRef (length l)) w = (Ok fig, w).
Proof. apply read_figure_run. rewrite Hfig. now apply list_lookup_middle. Qed.

Lemma write_last_figure fig' :
  exists w', write_figure (FigRef (length l)) fig' w = (Ok tt, w') /\
             figures w' = l ++ [fig'] /\ same_store w w'.
Proof.
  unfold write_figure.
  assert (Hl : figures w !! length l = Some fig)
    by (rewrite Hfig; now apply list_lookup_middle).
  rewrite Hl. eexists. split; [reflexivity|]. split; [|done]. simpl.
  rewrite Hfig, insert_app_r_alt by done. now rewrite Nat.sub_diag.
Qed.

Lemma update_axes_run i ax f :
  axes fig !! i = Some ax ->
  exists w', update_axes (FigRef (length l), i) f w = (Ok tt, w') /\
             figures w' = l ++ [with_axes fig i (f ax)] /\ same_store w w'.
Proof.
  intros Hax. unfold update_axes. cbn [fst snd].
  rewrite (bind_run _ _ _ _ _ read_last_figure), Hax.
  apply write_last_figure.
Qed.

Lemma tight_layout_run :
  exists w', plt.tight_layout (FigRef (length l)) w = (Ok tt, w') /\
             figures w' = l ++ [mkFigure (figsize fig) (axes fig) true] /\
             same_store w w'.
Proof.
  unfold plt.tight_layout.
  rewrite (bind_run _ _ _ _ _ read_last_figure).
  apply write_last_figure.
Qed.

Lemma set_title_run i ax s :
  axes fig !! i = Some ax ->
  exists w', plt.set_title (Ax (FigRef (length l), i)) s w = (Ok tt, w') /\
             figures w' = l ++ [with_axes fig i
                 (mkAxes s (xlabel ax) (ylabel ax) (artists ax) (legend ax))]
             /\ same_store w w'.
Proof. intros Hax. exact (update_axes_run i ax _ Hax). Qed.

Lemma set_xlabel_run i ax s :
  axes fig !! i = Some ax ->
  exists w', plt.set_xlabel (Ax (FigRef (length l), i)) s w = (Ok tt, w') /\
             figures w' = l ++ [with_axes fig i
                 (mkAxes (title ax) s (ylabel ax) (artists ax) (legend ax))]
             /\ same_store w w'.
Proof. intros Hax. exact (update_axes_run i ax _ Hax). Qed.

Lemma set_ylabel_run i ax s :
  axes fig !! i = Some ax ->
  exists w', plt.set_ylabel (Ax (FigRef (length l), i)) s w = (Ok tt, w') /\
             figures w' = l ++ [with_axes fig i
                 (mkAxes (title ax) (xlabel ax) s (artists ax) (legend ax))]
             /\ same_store w w'.
Proof. intros Hax. exact (update_axes_run i ax _ Hax). Qed.

Lemma legend_run i ax ttl bbox loc :
  axes fig !! i = Some ax ->
  exists w',
    plt.legend (Ax (FigRef (length l), i)) ttl bbox loc w = (Ok tt, w') /\
    figures w' = l ++ [with_axes fig i
        (mkAxes (title ax) (xlabel ax) (ylabel ax) (artists ax)
           (Some (mkLegend ttl bbox loc (line_labels ax))))]
    /\ same_store w w'.
Proof. intros Hax. exact (update_axes_run i ax _ Hax). Qed.

Lemma add_axes_run ax :
  exists w', add_axes (FigRef (length l)) ax w = (Ok tt, w') /\
             figures w' = l ++ [mkFigure (figsize fig) (axes fig ++ [ax])
                                  (tight fig)] /\
             same_store w w'.
Proof.
  unfold add_axes.
  rewrite (bind_run _ _ _ _ _ read_last_figure).
  apply write_last_figure.
Qed.

Lemma histplot_run i ax data kde :
  axes fig !! i = Some ax ->
  exists w',
    sns.histplot data kde (Ax (FigRef (length l), i)) w = (Ok tt, w') /\
    figures w' = l ++ [with_axes fig i
        match data.2 with
        | [] =>
            mkAxes (title ax) (xlabel ax) (ylabel ax)
              (artists ax ++ [Histogram data.2 kde]) (legend ax)
        | _ =>
            mkAxes (title ax) (sns.default_label (xlabel ax) data.1)
              (sns.default_label (ylabel ax) "Count")
              (artists ax ++ [Histogram data.2 kde]) (legend ax)
        end]
    /\ same_store w w'.
Proof. intros Hax. exact (update_axes_run i ax _ Hax). Qed.

Lemma plot_run n t i ax :
  tables w !! n = Some t -> columns t <> [] -> axes fig !! i = Some ax ->
  exists w',
    obj.plot (TRef n) (Ax (FigRef (length l), i)) w = (Ok tt, w') /\
    figures w' = l ++ [with_axes fig i
        (mkAxes (title ax) (xlabel ax) (ylabel ax)
           (artists ax ++ map (fun c => Line2D c.1 (index t) c.2) (columns t))
           (legend ax))]
    /\ same_store w w'.
Proof.
  intros Ht Hcols Hax. unfold obj.plot.
  rewrite (bind_run _ _ _ _ _ (read_table_run _ _ _ Ht)).
  destruct (columns t) as [|c cs] eqn:Hc; [done|].
  exact (update_axes_run i ax _ Hax).
Qed.
End Drawing.

Lemma heatmap_run w l fig n v annot fmt cmap center i ax :
  figures w = l ++ [fig] ->
  stats w !! n = Some v -> columns v <> [] -> axes fig !! i = Some ax ->
  exists w',
    sns.heatmap (SRef n) annot fmt cmap center (Ax (FigRef (length l), i)) w
      = (Ok tt, w') /\
    figures w' = l ++ [mkFigure (figsize fig)
        (<[i := mkAxes (title ax) "" ""
                  (artists ax ++ [Heatmap v annot fmt cmap center])
                  (legend ax)]> (axes fig)
         ++ [sns.colorbar_axes cmap center])
        (tight fig)]
    /\ same_store w w'.
Proof.
  intros Hfig Hv Hcols Hax. unfold sns.heatmap.
  rewrite (bind_run _ _ _ _ _ (read_stats_run _ _ _ Hv)).
  destruct (columns v) as [|c cs] eqn:Hc; [done|].
  cbn [as_axes].
  rewrite (bind_run _ _ _ _ _ (eq_refl : ret _ w = (Ok _, w))).
  edestruct (update_axes_run w l fig Hfig i ax) as (w1 & Hrun1 & Hfig1 & Hs1);
    [exact Hax|].
  rewrite (bind_run _ _ _ _ _ Hrun1).
  destruct (add_axes_run w1 l _ Hfig1 (sns.colorbar_axes cmap center))
    as (w2 & Hrun2 & Hfig2 & Hs2).
  exists w2. cbn [fst]. split; [exact Hrun2|]. split; [exact Hfig2|].
  destruct Hs1 as [Ht1 Hst1], Hs2 as [Ht2 Hst2].
  split; [now rewrite Ht2, Ht1 | now rewrite Hst2, Hst1].
Qed.

Lemma subplots_run w n size :
  n <> O ->
  plt.subplots n size w =
    (Ok (FigRef (length (figures w)),
         match n with
         | 1%nat => Ax (FigRef (length (figures w)), O)
         | _ => AxSeq (map (fun i => Ax (FigRef (length (figures w)), i))
                         (seq 0 n))
         end),
     set_figures (fun l => l ++ [mkFigure size (replicate n empty_axes) false])
       w).
Proof. intros Hn. unfold plt.subplots. now destruct n. Qed.

(** ** The correlation plotter *)

Lemma plot_correlation_heatmap_run w n t title :
  tables w !! n = Some t -> columns t <> [] ->
  exists w',
    plot_correlation_heatmap (TRef n) title w
      = (Ok (FigRef (length (figures w))), w') /\
    tables w' = tables w ++ [pd.resample_M_mean t] /\
    stats w' = stats w ++ [pd.corr (pd.resample_M_mean t)] /\
    figures w' = figures w ++ [correlation_figure t title].
Proof.
  intros Ht Hcols. unfold plot_correlation_heatmap.
  rewrite (bind_run _ _ _ _ _ (resample_M_mean_run _ _ _ Ht)).
  erewrite bind_run; cycle 1.
  { apply corr_run. simpl. now apply list_lookup_middle. }
  erewrite bind_run by (now apply subplots_run).
  cbn [fst snd].
  set (monthly := pd.resample_M_mean t).
  set (w3 := set_figures _ _).
  assert (Hfig3 : figures w3 = figures w ++ [mkFigure (7, 5) [empty_axes] false])
    by done.
  assert (Hlen : length (figures (set_stats (fun l => l ++ [pd.corr monthly])
                   (set_tables (fun l => l ++ [monthly]) w)))
                 = length (figures w)) by done.
  rewrite Hlen. clear Hlen.
  destruct (heatmap_run w3 _ _ (length (stats w)) (pd.corr monthly)
              true ".2f" "RdBu_r" 0 0 empty_axes Hfig3)
    as (w4 & Hrun4 & Hfig4 & Htab4 & Hst4).
  { simpl. now apply list_lookup_middle. }
  { unfold pd.corr, monthly, pd.resample_M_mean. cbn [columns].
    now destruct (columns t). }
  { reflexivity. }
  rewrite (bind_run _ _ _ _ _ Hrun4).
  destruct (set_title_run w4 _ _ Hfig4 0 _ title eq_refl)
    as (w5 & Hrun5 & Hfig5 & Htab5 & Hst5).
  rewrite (bind_run _ _ _ _ _ Hrun5).
  destruct (tight_layout_run w5 _ _ Hfig5)
    as (w6 & Hrun6 & Hfig6 & Htab6 & Hst6).
  rewrite (bind_run _ _ _ _ _ Hrun6).
  exists w6. split; [reflexivity|].
  rewrite Htab6, Htab5, Htab4, Hst6, Hst5, Hst4, Hfig6. done.
Qed.

Lemma spread_varies M col : (0 < M)%R -> spread M col -> varies col.
Proof.
  intros HM (i & j & x & y & Hi & Hj & Hgap).
  exists i, j, x, y. split; [done|]. split; [done|].
  intros ->. rewrite Rminus_diag, Rabs_R0 in Hgap. lra.
Qed.

Lemma nondegenerate_all_vary t :
  nondegenerate t -> all_vary (pd.resample_M_mean t).
Proof.
  intros (Hcols & _ & M & [HM _] & _ & Hspread). split.
  - unfold pd.resample_M_mean. cbn [columns]. now destruct (columns t).
  - eapply Forall_impl; [exact Hspread|]. intros c Hc.
    apply (spread_varies M); [|exact Hc].
    unfold scale_bound in HM.
    assert (0 < / 1e50)%R by (apply Rinv_0_lt_compat; lra). lra.
Qed.


Lemma two_months_nondegenerate : nondegenerate two_months.
Proof.
  split; [discriminate|]. split; [vm_compute; discriminate|].
  exists 3%R. split; [unfold scale_bound; lra|]. split.
  - repeat (apply List.Forall_cons || apply List.Forall_nil); simpl;
      try exact I; rewrite Rabs_pos_eq; lra.
  - assert (H : columns (pd.resample_M_mean two_months)
                = [("a", [Some ((1 + 0) / 1)%R; Some ((2 + 0) / 1)%R]);
                   ("b", [Some ((3 + 0) / 1)%R; Some ((1 + 0) / 1)%R])])
      by reflexivity.
    rewrite H.
    apply List.Forall_cons; [|apply List.Forall_cons; [|apply List.Forall_nil]];
      unfold spread; simpl.
    + exists 0%nat, 1%nat, ((1 + 0) / 1)%R, ((2 + 0) / 1)%R.
      split; [done|]. split; [done|].
      replace ((1 + 0) / 1 - (2 + 0) / 1)%R with (- (1))%R by lra.
      rewrite Rabs_Ropp, Rabs_R1. lra.
    + exists 0%nat, 1%nat, ((3 + 0) / 1)%R, ((1 + 0) / 1)%R.
      split; [done|]. split; [done|].
      replace ((3 + 0) / 1 - (1 + 0) / 1)%R with 2%R by lra.
      rewrite Rabs_pos_eq; lra.
Qed.


(** ** The distribution plotter *)

Section Distribution.
Variables (n : nat) (t : DataFrame) (l : list Figure).

Lemma assoc_elem {V} c (cols : list (string * V)) :
  c ∈ cols.*1 -> exists v, pd.assoc c cols = Some v.
Proof.
  induction cols as [|[k v] cols IH]; simpl.
  - intros H. inversion H.
  - destruct (String.eqb c k) eqn:E; [eauto|].
    apply String.eqb_neq in E. rewrite elem_of_cons. intros [?|?]; [done|].
    now apply IH.
Qed.

Lemma getitem_run w c :
  tables w !! n = Some t -> c ∈ labels t ->
  obj.getitem (TRef n) c w
  = (Ok (c, zip (index t) (default [] (pd.assoc c (columns t)))), w).
Proof.
  intros Ht Hc. unfold obj.getitem.
  rewrite (bind_run _ _ _ _ _ (read_table_run _ _ _ Ht)).
  unfold lift, pd.getitem.
  destruct (assoc_elem c (columns t) Hc) as [v ->]. reflexivity.
Qed.

Lemma distribution_body_run w fig done rest c :
  figures w = l ++ [fig] ->
  axes fig = done ++ empty_axes :: rest ->
  tables w !! n = Some t -> c ∈ labels t ->
  exists w',
    distribution_body n tt (Ax (FigRef (length l), length done), c) w
      = (Ok tt, w') /\
    figures w' = l ++ [mkFigure (figsize fig)
                         (done ++ distribution_axes t c :: rest)
                         (tight fig)] /\
    same_store w w'.
Proof.
  intros Hfig Hax Ht Hc. unfold distribution_body. cbn [fst snd].
  rewrite (bind_run _ _ _ _ _ (getitem_run w c Ht Hc)).
  assert (Hi : axes fig !! length done = Some empty_axes)
    by (rewrite Hax; now apply list_lookup_middle).
  destruct (histplot_run w l fig Hfig (length done) empty_axes
              (c, column_values t c) true Hi)
    as (w1 & Hrun1 & Hfig1 & Htab1 & Hst1).
  cbn [fst snd]. fold (column_values t c).
  rewrite (bind_run _ _ _ _ _ Hrun1).
  edestruct (set_title_run w1 l _ Hfig1 (length done))
    as (w2 & Hrun2 & Hfig2 & Htab2 & Hst2).
  { unfold with_axes. cbn [axes]. apply list_lookup_insert_eq.
    now apply lookup_lt_Some in Hi. }
  exists w2. split; [exact Hrun2|]. split.
  - rewrite Hfig2. unfold with_axes. cbn [axes figsize tight].
    rewrite list_insert_insert_eq, Hax.
    rewrite insert_app_r_alt, Nat.sub_diag by done.
    unfold distribution_axes. cbn [fst snd].
    now destruct (column_values t c).
  - split; [now rewrite Htab2, Htab1 | now rewrite Hst2, Hst1].
Qed.

Lemma distribution_loop cols : forall done w fig,
  figures w = l ++ [fig] ->
  axes fig = done ++ replicate (length cols) empty_axes ->
  tables w !! n = Some t ->
  Forall (fun c => c ∈ labels t) cols ->
  exists w',
    for_in (zip (map (fun i => Ax (FigRef (length l), i))
                   (seq (length done) (length cols))) cols)
      tt (distribution_body n) w = (Ok tt, w') /\
    figures w' = l ++ [mkFigure (figsize fig)
                         (done ++ map (distribution_axes t) cols)
                         (tight fig)] /\
    same_store w w'.
Proof.
  induction cols as [|c cols IH]; intros done w fig Hfig Hax Ht Hall.
  - exists w. simpl in *. rewrite app_nil_r in *.
    split; [done|]. split; [|done]. rewrite Hfig, <- Hax. now destruct fig.
  - inversion Hall as [|? ? Hc Hrest]; subst. simpl in Hax.
    cbn [length seq map zip zip_with for_in].
    destruct (distribution_body_run w fig done _ c Hfig Hax Ht Hc)
      as (w2 & Hrun2 & Hfig2 & Htab2 & Hst2).
    rewrite (bind_run _ _ _ _ _ Hrun2).
    destruct (IH (done ++ [distribution_axes t c]) w2 _ Hfig2)
      as (w3 & Hrun3 & Hfig3 & Htab3 & Hst3).
    { cbn [axes]. now rewrite <- app_assoc. }
    { now rewrite Htab2. }
    { exact Hrest. }
    rewrite length_app, Nat.add_comm in Hrun3. simpl in Hrun3.
    exists w3. split; [exact Hrun3|]. split.
    + rewrite Hfig3. cbn [figsize tight]. now rewrite <- app_assoc.
    + split; [now rewrite Htab3, Htab2 | now rewrite Hst3, Hst2].
Qed.
End Distribution.

(** What a call of the distribution plotter does on a non-empty selection
    of columns of the table. *)
Lemma plot_distribution_run w n t columns :
  tables w !! n = Some t ->
  selection t columns <> [] ->
  Forall (fun c => c ∈ labels t) (selection t columns) ->
  exists w',
    plot_distribution (TRef n) columns w
      = (Ok (FigRef (length (figures w))), w') /\
    figures w' = figures w ++
      [mkFigure (8, 3 * Z.of_nat (length (selection t columns)))
         (map (distribution_axes t) (selection t columns)) true] /\
    same_store w w'.
Proof.
  intros Ht Hne Hall. unfold plot_distribution.
  set (cols := selection t columns) in *.
  erewrite bind_run; cycle 1.
  { instantiate (1 := w). instantiate (1 := cols).
    destruct columns; [reflexivity | exact (eval_run w n t labels Ht)]. }
  erewrite bind_run by (apply subplots_run; now destruct cols).
  cbn [fst snd].
  set (f := FigRef (length (figures w))).
  set (w1 := set_figures _ w).
  assert (Hseq : (if (length cols =? 1)%nat
                  then AxSeq [match length cols with
                              | 1%nat => Ax (f, O)
                              | _ => AxSeq (map (fun i => Ax (f, i))
                                              (seq 0 (length cols)))
                              end]
                  else match length cols with
                       | 1%nat => Ax (f, O)
                       | _ => AxSeq (map (fun i => Ax (f, i))
                                       (seq 0 (length cols)))
                       end)
                 = AxSeq (map (fun i => Ax (f, i)) (seq 0 (length cols)))).
  { destruct cols as [|c1 [|c2 cs]]; [done | reflexivity | reflexivity]. }
  rewrite Hseq. cbn [py_zip]. unfold bind at 1, ret at 1.
  destruct (distribution_loop n t (figures w) cols [] w1
              (mkFigure (8, 3 * Z.of_nat (length cols))
                 (replicate (length cols) empty_axes) false))
    as (w2 & Hrun2 & Hfig2 & Htab2 & Hst2); try done.
  change (for_in ?it tt ?body w1) with (for_in it tt (distribution_body n) w1).
  cbn [length] in Hrun2. rewrite (bind_run _ _ _ _ _ Hrun2).
  destruct (tight_layout_run w2 _ _ Hfig2)
    as (w3 & Hrun3 & Hfig3 & Htab3 & Hst3).
  rewrite (bind_run _ _ _ _ _ Hrun3).
  exists w3. split; [reflexivity|]. split; [exact Hfig3|].
  split; [now rewrite Htab3, Htab2 | now rewrite Hst3, Hst2].
Qed.

Lemma dropna_present (s : Series Date float) :
  Forall (fun p => p.2 <> NaN) (pd.dropna s).
Proof.
  unfold pd.dropna. apply Forall_forall. intros [d x] Hin.
  apply list_elem_of_filter in Hin as [Hx _]. now destruct x.
Qed.

Lemma plot_distribution_default w n t :
  tables w !! n = Some t ->
  plot_distribution (TRef n) None w
  = plot_distribution (TRef n) (Some (labels t)) w.
Proof.
  intros Ht. unfold plot_distribution.
  now rewrite (bind_run _ _ _ _ _ (eval_run w n t labels Ht)).
Qed.



(** C10.  For a selection of exactly one column of the table the
    distribution plotter returns a figure with exactly one subplot, the
    one of that column: it has the title of the column and holds the
    histogram of its values.  The creation of one subplot hands back a
    lone Axes object, which cannot be iterated: the program wraps it into
    a one-element sequence before the loop. *)
Theorem plot_distribution_single_column w n t c :
  tables w !! n = Some t ->
  c ∈ labels t ->
  exists f w' fig ax,
    plot_distribution (TRef n) (Some [c]) w = (Ok (FigRef f), w') /\
    figures w' !! f = Some fig /\
    axes fig = [ax] /\
    title ax = "Distribution of " +:+ c /\
    artists ax = [Histogram (column_values t c) true] /\
    (plt.subplots 1 (8, 3) w).1 = Ok (FigRef f, Ax (FigRef f, O)) /\
    (forall w0, (py_zip (Ax (FigRef f, O)) [c] w0).1
                = Raise (TypeError "'Axes' object is not iterable")) /\
    (forall w0, (py_zip (AxSeq [Ax (FigRef f, O)]) [c] w0).1
                = Ok [(Ax (FigRef f, O), c)]).
Proof.
  intros Ht Hc.
  destruct (plot_distribution_run w n t (Some [c]) Ht) as (w' & Hrun & Hfig & _).
  - discriminate.
  - constructor; [exact Hc | constructor].
  - eexists _, w', _, (distribution_axes t c). split; [exact Hrun|].
    split; [rewrite Hfig; now apply list_lookup_middle|].
    repeat split.
Qed.

Lemma plot_distribution_single_column_witness :
  exists f w' fig ax,
    plot_distribution (TRef 0) (Some ["b"]) scenario_store
      = (Ok (FigRef f), w') /\
    figures w' !! f = Some fig /\
    axes fig = [ax] /\
    title ax = "Distribution of b".
Proof.
  destruct (plot_distribution_single_column scenario_store 0 Scenario.merged
              "b") as (f & w' & fig & ax & Hrun & Hfig & Hax & Htitle & _).
  - reflexivity.
  - apply (bool_decide_unpack _). vm_compute. exact I.
  - exists f, w', fig, ax. auto.
Defined.

(** ** The time-series plotter *)

Lemma line_labels_lines (t : DataFrame) :
  line_labels (mkAxes "" "" ""
                 (map (fun c => Line2D c.1 (index t) c.2) (columns t)) None)
  = labels t.
Proof.
  unfold line_labels, labels. cbn [artists].
  induction (columns t) as [|c cs IH]; simpl; [done|]. f_equal. exact IH.
Qed.

Lemma plot_time_series_run w n t title :
  tables w !! n = Some t -> columns t <> [] ->
  exists w',
    plot_time_series (TRef n) title w = (Ok (FigRef (length (figures w))), w')
    /\ figures w' = figures w ++ [time_series_figure t title]
    /\ same_store w w'.
Proof.
  intros Ht Hcols. unfold plot_time_series.
  erewrite bind_run by (now apply subplots_run).
  cbn [fst snd].
  set (w1 := set_figures _ w).
  assert (Hfig1 : figures w1 = figures w ++ [mkFigure (12, 6) [empty_axes] false])
    by done.
  destruct (plot_run w1 _ _ Hfig1 n t 0 empty_axes Ht Hcols eq_refl)
    as (w2 & Hrun2 & Hfig2 & Htab2 & Hst2).
  rewrite (bind_run _ _ _ _ _ Hrun2).
  destruct (set_title_run w2 _ _ Hfig2 0 _ title eq_refl)
    as (w3 & Hrun3 & Hfig3 & Htab3 & Hst3).
  rewrite (bind_run _ _ _ _ _ Hrun3).
  destruct (set_xlabel_run w3 _ _ Hfig3 0 _ "Date" eq_refl)
    as (w4 & Hrun4 & Hfig4 & Htab4 & Hst4).
  rewrite (bind_run _ _ _ _ _ Hrun4).
  destruct (set_ylabel_run w4 _ _ Hfig4 0 _ "Value" eq_refl)
    as (w5 & Hrun5 & Hfig5 & Htab5 & Hst5).
  rewrite (bind_run _ _ _ _ _ Hrun5).
  destruct (legend_run w5 _ _ Hfig5 0 _ "Series" (1.05, 1)%R "upper left"
              eq_refl)
    as (w6 & Hrun6 & Hfig6 & Htab6 & Hst6).
  rewrite (bind_run _ _ _ _ _ Hrun6).
  destruct (tight_layout_run w6 _ _ Hfig6)
    as (w7 & Hrun7 & Hfig7 & Htab7 & Hst7).
  rewrite (bind_run _ _ _ _ _ Hrun7).
  exists w7. split; [reflexivity|]. split.
  - rewrite Hfig7. unfold time_series_figure, with_axes. simpl.
    now rewrite <- (line_labels_lines t).
  - split; [now rewrite Htab7, Htab6, Htab5, Htab4, Htab3, Htab2
           | now rewrite Hst7, Hst6, Hst5, Hst4, Hst3, Hst2].
Qed.

(** The time-series plot of the scenario has two lines, one per series. *)
Example scenario_time_series :
  exists w' fig ax,
    plot_time_series (TRef 0) plot_time_series_title scenario_store
      = (Ok (FigRef 0), w') /\
    figures w' !! 0%nat = Some fig /\
    axes fig = [ax] /\
    line_labels ax = ["a"; "b"].
Proof. eexists _, _, _. repeat split; lazy; reflexivity. Qed.

(** ** The tables of the store are only read *)

Lemma summarize_timeseries_no_columns w n t :
  tables w !! n = Some t -> columns t = [] ->
  summarize_timeseries (TRef n) w
  = (Raise (ValueError "Cannot describe a DataFrame without columns"), w).
Proof.
  intros Ht Hcols. unfold summarize_timeseries, obj.describe.
  unfold bind at 1.
  rewrite (bind_run _ _ _ _ _ (read_table_run _ _ _ Ht)).
  unfold bind, lift, pd.describe. now rewrite Hcols.
Qed.

(** The correlation plotter adds two tables to the store, whether the
    drawing that follows succeeds or not. *)
Lemma plot_correlation_heatmap_store w n t title :
  tables w !! n = Some t ->
  tables (plot_correlation_heatmap (TRef n) title w).2
    = tables w ++ [pd.resample_M_mean t] /\
  stats (plot_correlation_heatmap (TRef n) title w).2
    = stats w ++ [pd.corr (pd.resample_M_mean t)].
Proof.
  intros Ht. unfold plot_correlation_heatmap.
  rewrite (bind_run _ _ _ _ _ (resample_M_mean_run _ _ _ Ht)).
  erewrite bind_run; cycle 1.
  { apply corr_run. simpl. now apply list_lookup_middle. }
  match goal with
  | |- context [bind ?m ?k _] =>
      assert (Ht' : preserves tables (bind m k)) by frame;
      assert (Hs' : preserves stats (bind m k)) by frame
  end.
  now rewrite Ht', Hs'.
Qed.

(** C8.  None of the summarizer and the three plotters changes a table
    that exists when it is called, the input table in particular: the
    time-series and distribution plotters leave the store of tables as it
    is, the correlation plotter adds to it the resampled table and the
    correlation matrix as two new objects, and the summarizer adds new
    objects only, the summary it returns being one of them. *)
Theorem input_table_never_mutated w n t title selected :
  tables w !! n = Some t ->
  let w1 := (summarize_timeseries (TRef n) w).2 in
  let w2 := (plot_time_series (TRef n) title w).2 in
  let w3 := (plot_correlation_heatmap (TRef n) title w).2 in
  let w4 := (plot_distribution (TRef n) selected w).2 in
  (tables w1 !! n = Some t /\ tables w2 !! n = Some t /\
   tables w3 !! n = Some t /\ tables w4 !! n = Some t) /\
  (tables w1 = tables w /\ exists new, stats w1 = stats w ++ new) /\
  (tables w2 = tables w /\ stats w2 = stats w) /\
  (tables w3 = tables w ++ [pd.resample_M_mean t] /\
   stats w3 = stats w ++ [pd.corr (pd.resample_M_mean t)]) /\
  (tables w4 = tables w /\ stats w4 = stats w) /\
  (forall m, (summarize_timeseries (TRef n) w).1 = Ok (SRef m) ->
             (length (stats w) <= m)%nat /\
             stats w1 !! m = Some (summary_table t)).
Proof.
  intros Ht w1 w2 w3 w4.
  assert (H1 : tables w1 = tables w)
    by (apply (summarize_timeseries_frame tables); reflexivity).
  assert (H2 : tables w2 = tables w)
    by (apply (plot_time_series_frame tables); reflexivity).
  assert (H2' : stats w2 = stats w)
    by (apply (plot_time_series_frame stats); reflexivity).
  assert (H4 : tables w4 = tables w)
    by (apply (plot_distribution_frame tables); reflexivity).
  assert (H4' : stats w4 = stats w)
    by (apply (plot_distribution_frame stats); reflexivity).
  destruct (plot_correlation_heatmap_store w n t title Ht) as (Htab3 & Hst3).
  fold w3 in Htab3, Hst3.
  split.
  { rewrite H1, H2, H4, Htab3. repeat split; try done.
    now apply lookup_app_l_Some. }
  split.
  { split; [exact H1|].
    destruct (decide (columns t = [])) as [Hc|Hc].
    - exists []. unfold w1.
      rewrite (summarize_timeseries_no_columns w n t Ht Hc). simpl.
      now rewrite app_nil_r.
    - destruct (summarize_timeseries_run w n t Ht Hc) as (w' & Hrun & Hst & _).
      eexists. unfold w1. rewrite Hrun. exact Hst. }
  split; [done|]. split; [done|]. split; [done|].
  intros m Hm.
  destruct (decide (columns t = [])) as [Hc|Hc].
  - rewrite (summarize_timeseries_no_columns w n t Ht Hc) in Hm. done.
  - destruct (summarize_timeseries_run w n t Ht Hc) as (w' & Hrun & Hst & _).
    unfold w1. rewrite Hrun in Hm |- *. simpl in Hm. injection Hm as <-.
    split; [lia|]. simpl. rewrite Hst.
    change (stats w ++ [describe_table t; summary_table t])
      with (stats w ++ [describe_table t] ++ [summary_table t]).
    rewrite app_assoc. apply list_lookup_middle.
    rewrite length_app. simpl. lia.
Qed.

Lemma input_table_never_mutated_witness :
  let w := scenario_store in
  let w1 := (summarize_timeseries (TRef 0) w).2 in
  let w3 := (plot_correlation_heatmap (TRef 0)
               plot_correlation_heatmap_title w).2 in
  tables w1 !! 0%nat = Some Scenario.merged /\
  tables w3 !! 0%nat = Some Scenario.merged /\
  tables w3 = tables w ++ [pd.resample_M_mean Scenario.merged].
Proof.
  intros w w1 w3.
  pose proof (input_table_never_mutated scenario_store 0 Scenario.merged
                plot_correlation_heatmap_title None eq_refl)
    as ((Ha & _ & Hc & _) & _ & _ & (Hd & _) & _).
  repeat split; assumption.
Defined.

(** ** The orchestrator *)

Lemma summarize_timeseries_quiet df : quiet (summarize_timeseries df).
Proof.
  intros w. repeat split.
  - apply (summarize_timeseries_frame files); reflexivity.
  - apply (summarize_timeseries_frame requests); reflexivity.
  - apply (summarize_timeseries_frame stdout); reflexivity.
Qed.

Lemma plot_time_series_quiet df title : quiet (plot_time_series df title).
Proof.
  intros w. repeat split.
  - apply (plot_time_series_frame files); reflexivity.
  - apply (plot_time_series_frame requests); reflexivity.
  - apply (plot_time_series_frame stdout); reflexivity.
Qed.

Lemma plot_correlation_heatmap_quiet df title :
  quiet (plot_correlation_heatmap df title).
Proof.
  intros w. repeat split.
  - apply (plot_correlation_heatmap_frame files); reflexivity.
  - apply (plot_correlation_heatmap_frame requests); reflexivity.
  - apply (plot_correlation_heatmap_frame stdout); reflexivity.
Qed.

Lemma plot_distribution_quiet df columns :
  quiet (plot_distribution df columns).
Proof.
  intros w. repeat split.
  - apply (plot_distribution_frame files); reflexivity.
  - apply (plot_distribution_frame requests); reflexivity.
  - apply (plot_distribution_frame stdout); reflexivity.
Qed.

(** A write either adds the file as the last one or raises and changes
    nothing. *)
Lemma write_file_outcome path content w :
  write_file path content w
    = (Ok tt, set_files (fun l => l ++ [(path, content)]) w) \/
  write_file path content w = (Raise (OSError path), w).
Proof.
  unfold write_file. destruct (dirname path); [case_bool_decide|]; auto.
Qed.

Lemma to_csv_writes s path : writes_at_most path (obj.to_csv s path).
Proof.
  intros w. unfold obj.to_csv, bind. destruct s as [n]. unfold read_stats.
  destruct (stats w !! n) as [v|]; simpl.
  - destruct (write_file_outcome path (Csv v) w) as [-> | ->]; simpl.
    + repeat split. left. split; [eauto|]. now rewrite fmap_app.
    + repeat split. right. eauto.
  - repeat split. right. eauto.
Qed.

Lemma savefig_writes fig path dpi : writes_at_most path (plt.savefig fig path dpi).
Proof.
  intros w. unfold plt.savefig, bind. destruct fig as [n]. unfold read_figure.
  destruct (figures w !! n) as [v|]; simpl.
  - destruct (write_file_outcome path (Png v dpi) w) as [-> | ->]; simpl.
    + repeat split. left. split; [eauto|]. now rewrite fmap_app.
    + repeat split. right. eauto.
  - repeat split. right. eauto.
Qed.

(** The fetcher asks for each series at most once, in the order of the
    mapping, and for all of them when it returns. *)
Lemma fetch_body_requests start end_ frames item w :
  requests (fetch_body start end_ frames item w).2 = requests w ++ [item.2].
Proof.
  unfold fetch_body, web.DataReader. unfold bind at 1.
  destruct (provider w item.2 start end_) as [obs|e]; [|done].
  unfold new_table.
  match goal with
  | |- requests (bind ?m ?k ?w1).2 = _ =>
      assert (Hp : preserves requests (bind m k)) by frame;
      now rewrite Hp
  end.
Qed.

Lemma fetch_loop_requests start end_ series : forall frames w,
  exists j,
    requests (for_in series frames (fetch_body start end_) w).2
      = requests w ++ take j series.*2 /\
    (forall fr, (for_in series frames (fetch_body start end_) w).1 = Ok fr ->
                j = length series).
Proof.
  induction series as [|item series IH]; intros frames w.
  - exists O. simpl. now rewrite app_nil_r.
  - simpl. unfold bind.
    pose proof (fetch_body_requests start end_ frames item w) as Hb.
    destruct (fetch_body start end_ frames item w) as [[fr1|e] w1].
    + destruct (IH fr1 w1) as (j & Hreq & Hj). exists (S j). split.
      * rewrite Hreq. simpl in Hb. rewrite Hb. now rewrite <- app_assoc.
      * intros fr Hfr. f_equal. eauto.
    + exists 1%nat. simpl in *. split; [now rewrite take_0|done].
Qed.

Lemma fetch_fred_series_requests series start end_ w :
  files (fetch_fred_series series start end_ w).2 = files w /\
  stdout (fetch_fred_series series start end_ w).2 = stdout w /\
  exists j,
    requests (fetch_fred_series series start end_ w).2
      = requests w ++ take j series.*2 /\
    (forall r, (fetch_fred_series series start end_ w).1 = Ok r ->
               j = length series).
Proof.
  split; [apply (fetch_fred_series_frame files); reflexivity|].
  split; [apply (fetch_fred_series_frame stdout); reflexivity|].
  unfold fetch_fred_series.
  set (e := default (today w) end_).
  rewrite (bind_run _ _ w e w) by (now destruct end_).
  change (for_in series [] _) with (for_in series [] (fetch_body start e)).
  destruct (fetch_loop_requests start e series [] w) as (j & Hreq & Hj).
  exists j.
  destruct (for_in series [] (fetch_body start e) w) as [[fr|e0] w1] eqn:Hloop;
    simpl in Hreq, Hj.
  - rewrite !(bind_run _ _ _ _ _ Hloop).
    match goal with
    | |- context [bind ?m ?k w1] =>
        assert (Hp : preserves requests (bind m k)) by frame
    end.
    rewrite Hp. split; [exact Hreq|]. intros r _. now apply (Hj fr).
  - rewrite !(bind_raise _ _ _ _ _ Hloop). simpl. split; [exact Hreq | done].
Qed.

Lemma progress_quiet {A} (m : M A) k j w w1 r w2 :
  quiet m -> progress k j w w1 -> m w1 = (r, w2) -> progress k j w w2.
Proof.
  intros Hq (Hf & Hr & Hs) Hrun. specialize (Hq w1). rewrite Hrun in Hq.
  simpl in Hq. destruct Hq as (Hf2 & Hr2 & Hs2).
  unfold progress. now rewrite Hf2, Hr2, Hs2.
Qed.

Lemma progress_write {A} (m : M A) path k j w w1 r w2 :
  writes_at_most path m -> output_paths !! k = Some path ->
  progress k j w w1 -> m w1 = (r, w2) ->
  match r with
  | Ok _ => progress (S k) j w w2
  | Raise _ => progress k j w w2
  end.
Proof.
  intros Hq Hk (Hf & Hr & Hs) Hrun. specialize (Hq w1). rewrite Hrun in Hq.
  simpl in Hq. destruct Hq as (Hr2 & Hs2 & [[[a ->] Hf2]|[[e ->] Hf2]]).
  - unfold progress. rewrite Hf2, Hr2, Hs2, Hf.
    rewrite (take_S_r _ _ _ Hk), app_assoc. done.
  - unfold progress. now rewrite Hf2, Hr2, Hs2.
Qed.

(** One step of a run: either the step raised and the run ended there, or
    it returned and the run went on. *)
Tactic Notation "run_step" hyp(H) "as" ident(a) ident(w1) ident(E) :=
  match type of H with
  | bind ?m ?k ?w = _ =>
      destruct (m w) as [[a|?] w1] eqn:E;
      [ rewrite (bind_run _ _ _ _ _ E) in H
      | rewrite (bind_raise _ _ _ _ _ E) in H; injection H as <- <- ]
  end.

(** How far any run comes, in any state. *)
Lemma run_quick_eda_progress w r w' :
  run_quick_eda w = (r, w') ->
  match r with
  | Ok _ => (files w').*1 = (files w).*1 ++ output_paths /\
            requests w' = requests w ++ fred_series.*2 /\
            stdout w' = stdout w ++ [completion_message]
  | Raise _ =>
      exists k j, (k < 4)%nat /\ progress k j w w' /\
        (k <> O -> j = 4%nat) /\
        ((exists e0, (fetch_fred_series fred_series "2010-01-01" None w).1
                     = Raise e0) -> k = O)
  end.
Proof.
  intros H. unfold run_quick_eda in H.
  destruct (fetch_fred_series_requests fred_series "2010-01-01" None w)
    as (Hf0 & Hs0 & j & Hr0 & Hj).
  run_step H as df w1 E1; simpl in Hf0, Hs0, Hr0, Hj.
  2:{ exists O, j. unfold progress.
      rewrite take_0, app_nil_r, Hf0. auto 6 with lia. }
  specialize (Hj _ eq_refl). subst j.
  assert (P1 : progress 0 4 w w1).
  { unfold progress. now rewrite take_0, app_nil_r, Hf0, Hr0, Hs0. }
  run_step H as summary w2 E2;
    pose proof (progress_quiet _ _ _ _ _ _ _
                  (summarize_timeseries_quiet df) P1 E2) as P2.
  2:{ exists O, 4%nat. repeat split; try apply P2; try lia;
        intros [e0 He]; discriminate He. }
  run_step H as u3 w3 E3;
    pose proof (progress_write _ _ 0%nat _ _ _ _ _
                  (to_csv_writes summary "data/processed/summary.csv")
                  eq_refl P2 E3) as P3; cbv beta iota in P3.
  2:{ exists O, 4%nat. repeat split; try apply P3; try lia;
        intros [e0 He]; discriminate He. }
  run_step H as fig1 w4 E4;
    pose proof (progress_quiet _ _ _ _ _ _ _
                  (plot_time_series_quiet df plot_time_series_title) P3 E4)
      as P4.
  2:{ exists 1%nat, 4%nat. repeat split; try apply P4; try lia;
        intros [e0 He]; discriminate He. }
  run_step H as u5 w5 E5;
    pose proof (progress_write _ _ 1%nat _ _ _ _ _
                  (savefig_writes fig1 "figures/time_series.png" 200)
                  eq_refl P4 E5) as P5; cbv beta iota in P5.
  2:{ exists 1%nat, 4%nat. repeat split; try apply P5; try lia;
        intros [e0 He]; discriminate He. }
  run_step H as fig2 w6 E6;
    pose proof (progress_quiet _ _ _ _ _ _ _
                  (plot_correlation_heatmap_quiet df
                     plot_correlation_heatmap_title) P5 E6) as P6.
  2:{ exists 2%nat, 4%nat. repeat split; try apply P6; try lia;
        intros [e0 He]; discriminate He. }
  run_step H as u7 w7 E7;
    pose proof (progress_write _ _ 2%nat _ _ _ _ _
                  (savefig_writes fig2 "figures/correlation.png" 200)
                  eq_refl P6 E7) as P7; cbv beta iota in P7.
  2:{ exists 2%nat, 4%nat. repeat split; try apply P7; try lia;
        intros [e0 He]; discriminate He. }
  run_step H as fig3 w8 E8;
    pose proof (progress_quiet _ _ _ _ _ _ _
                  (plot_distribution_quiet df
                     (Some ["cpi"; "unemployment_rate"; "fed_funds_rate"]))
                  P7 E8) as P8.
  2:{ exists 3%nat, 4%nat. repeat split; try apply P8; try lia;
        intros [e0 He]; discriminate He. }
  run_step H as u9 w9 E9;
    pose proof (progress_write _ _ 3%nat _ _ _ _ _
                  (savefig_writes fig3 "figures/distributions.png" 200)
                  eq_refl P8 E9) as P9; cbv beta iota in P9.
  2:{ exists 3%nat, 4%nat. repeat split; try apply P9; try lia;
        intros [e0 He]; discriminate He. }
  injection H as <- <-. destruct P9 as (Hf & Hr & Hs).
  simpl. rewrite Hs. auto.
Qed.

(** C5 (as the code has it).  When a run of the orchestrator ends with an
    exception, the step that raised it is the last one executed: nothing
    is printed, every series was requested at most once, and the files
    written are those of the steps that returned before, a strict prefix
    of the four outputs in their order.  No step undoes a file: when a
    later step raises, the files written before it remain.  Files are
    written only once the fetch has returned. *)
Theorem run_quick_eda_failure w e w' :
  run_quick_eda w = (Raise e, w') ->
  exists k j,
    (k < 4)%nat /\
    (files w').*1 = (files w).*1 ++ take k output_paths /\
    requests w' = requests w ++ take j fred_series.*2 /\
    stdout w' = stdout w /\
    (k <> O -> j = 4%nat) /\
    (forall e0 w0,
       fetch_fred_series fred_series "2010-01-01" None w = (Raise e0, w0) ->
       (files w').*1 = (files w).*1).
Proof.
  intros H. pose proof (run_quick_eda_progress _ _ _ H)
    as (k & j & Hk & P & Hj & H0).
  destruct P as (Hf & Hr & Hs). exists k, j.
  repeat split; try assumption.
  intros e0 w0 He. assert (k = O) as -> by (apply H0; exists e0; now rewrite He).
  rewrite take_0, app_nil_r in Hf. exact Hf.
Qed.

(** ** States in closed form *)

Lemma world_eq w1 w2 :
  provider w1 = provider w2 -> today w1 = today w2 -> dirs w1 = dirs w2 ->
  tables w1 = tables w2 -> stats w1 = stats w2 -> figures w1 = figures w2 ->
  files w1 = files w2 -> requests w1 = requests w2 -> stdout w1 = stdout w2 ->
  w1 = w2.
Proof. destruct w1, w2. simpl. now intros -> -> -> -> -> -> -> -> ->. Qed.

Lemma preserved_field {A X} (proj : World -> X) (m : M A) w r w' :
  preserves proj m -> m w = (r, w') -> proj w' = proj w.
Proof. intros Hp Hrun. specialize (Hp w). now rewrite Hrun in Hp. Qed.

(** Closes the goals of [world_eq] for the components a function leaves
    alone, from its frame lemma. *)
Ltac untouched F Hrun :=
  match type of Hrun with
  | _ ?w = (_, ?w') =>
      match goal with
      | |- ?proj _ = _ =>
          try (change (proj w' = proj w);
               eapply preserved_field; [apply F; reflexivity | exact Hrun])
      end
  end.

Lemma fetch_fred_series_world series start end_ w replies t :
  Forall2 (replied start (default (today w) end_) w) series replies ->
  pd.concat_axis1 (zip_with series_frame series replies) = Ok t ->
  fetch_fred_series series start end_ w =
    (Ok (TRef (length (tables w) + length (fetched_objects series replies))),
     set_tables (fun l => l ++ fetched_objects series replies ++ [t])
       (set_requests (fun l => l ++ series.*2) w)).
Proof.
  intros Hall Hcat.
  destruct (fetch_fred_series_run start series end_ w replies Hall)
    as (w1 & Htab & Hreq & Hrun).
  rewrite Hcat in Hrun.
  assert (Hrun' : fetch_fred_series series start end_ w
                  = (Ok (TRef (length (tables w)
                               + length (fetched_objects series replies))),
                     set_tables (fun l => l ++ [t]) w1)).
  { rewrite Hrun. do 3 f_equal. rewrite Htab. apply length_app. }
  rewrite Hrun'. f_equal.
  apply world_eq;
    untouched (fun X (proj : World -> X) =>
                 fetch_fred_series_frame proj series start end_) Hrun';
    simpl.
  - now rewrite Htab, <- app_assoc.
  - exact Hreq.
Qed.

Lemma summarize_timeseries_world w n t :
  tables w !! n = Some t -> columns t <> [] ->
  summarize_timeseries (TRef n) w =
    (Ok (SRef (S (length (stats w)))),
     set_stats (fun l => l ++ [describe_table t; summary_table t]) w).
Proof.
  intros Ht Hcols.
  destruct (summarize_timeseries_run w n t Ht Hcols) as (w' & Hrun & Hst & Htab).
  rewrite Hrun. f_equal.
  apply world_eq;
    untouched (fun X (proj : World -> X) =>
                 summarize_timeseries_frame proj (TRef n)) Hrun.
  exact Hst.
Qed.

Lemma plot_time_series_world w n t title :
  tables w !! n = Some t -> columns t <> [] ->
  plot_time_series (TRef n) title w =
    (Ok (FigRef (length (figures w))),
     set_figures (fun l => l ++ [time_series_figure t title]) w).
Proof.
  intros Ht Hcols.
  destruct (plot_time_series_run w n t title Ht Hcols)
    as (w' & Hrun & Hfig & _).
  rewrite Hrun. f_equal.
  apply world_eq;
    untouched (fun X (proj : World -> X) =>
                 plot_time_series_frame proj (TRef n) title) Hrun.
  exact Hfig.
Qed.

Lemma plot_correlation_heatmap_world w n t title :
  tables w !! n = Some t -> columns t <> [] ->
  plot_correlation_heatmap (TRef n) title w =
    (Ok (FigRef (length (figures w))),
     set_figures (fun l => l ++ [correlation_figure t title])
       (set_stats (fun l => l ++ [pd.corr (pd.resample_M_mean t)])
          (set_tables (fun l => l ++ [pd.resample_M_mean t]) w))).
Proof.
  intros Ht Hcols.
  destruct (plot_correlation_heatmap_run w n t title Ht Hcols)
    as (w' & Hrun & Htab & Hst & Hfig).
  rewrite Hrun. f_equal.
  apply world_eq;
    untouched (fun X (proj : World -> X) =>
                 plot_correlation_heatmap_frame proj (TRef n) title) Hrun;
    assumption.
Qed.

Lemma plot_distribution_world w n t columns :
  tables w !! n = Some t ->
  selection t columns <> [] ->
  Forall (fun c => c ∈ labels t) (selection t columns) ->
  plot_distribution (TRef n) columns w =
    (Ok (FigRef (length (figures w))),
     set_figures (fun l => l ++
       [mkFigure (8, 3 * Z.of_nat (length (selection t columns)))
          (map (distribution_axes t) (selection t columns)) true]) w).
Proof.
  intros Ht Hne Hall.
  destruct (plot_distribution_run w n t columns Ht Hne Hall)
    as (w' & Hrun & Hfig & _).
  rewrite Hrun. f_equal.
  apply world_eq;
    untouched (fun X (proj : World -> X) =>
                 plot_distribution_frame proj (TRef n) columns) Hrun.
  exact Hfig.
Qed.

Lemma to_csv_world w n s path d :
  stats w !! n = Some s -> dirname path = Some d -> d ∈ dirs w ->
  obj.to_csv (SRef n) path w
  = (Ok tt, set_files (fun l => l ++ [(path, Csv s)]) w).
Proof.
  intros Hs Hd Hin. unfold obj.to_csv.
  rewrite (bind_run _ _ _ _ _ (read_stats_run _ _ _ Hs)).
  unfold write_file. rewrite Hd. now rewrite bool_decide_eq_true_2.
Qed.

Lemma savefig_world w n fig path dpi d :
  figures w !! n = Some fig -> dirname path = Some d -> d ∈ dirs w ->
  plt.savefig (FigRef n) path dpi w
  = (Ok tt, set_files (fun l => l ++ [(path, Png fig dpi)]) w).
Proof.
  intros Hf Hd Hin. unfold plt.savefig.
  rewrite (bind_run _ _ _ _ _ (read_figure_run _ _ _ Hf)).
  unfold write_file. rewrite Hd. now rewrite bool_decide_eq_true_2.
Qed.

Lemma series_frames_NoDup series : forall replies,
  Forall (fun obs => NoDup obs.*1) replies ->
  Forall (fun g : DataFrame => NoDup (index g))
    (zip_with series_frame series replies).
Proof.
  induction series as [|item series IH]; intros [|obs replies] Hnd;
    simpl; try constructor.
  - now inversion Hnd.
  - apply IH. now inversion Hnd.
Qed.

Lemma series_frames_labels series : forall replies,
  length series = length replies ->
  concat (map labels (zip_with series_frame series replies)) = series.*1.
Proof.
  induction series as [|item series IH]; intros [|obs replies] Hlen;
    simpl in *; try done.
  f_equal. apply IH. lia.
Qed.

Lemma lookup_last {A} (l : list A) x : (l ++ [x]) !! length l = Some x.
Proof. now apply list_lookup_middle. Qed.

Lemma lookup_second {A} (l : list A) x y :
  (l ++ [x; y]) !! S (length l) = Some y.
Proof.
  change (l ++ [x; y]) with (l ++ [x] ++ [y]). rewrite app_assoc.
  apply list_lookup_middle. rewrite length_app. simpl. lia.
Qed.

(** The state a run ends in when the provider answers the four requests,
    without a repeated date in a series, and the two output directories
    exist. *)
Lemma run_quick_eda_returns w replies :
  Forall2 (replied "2010-01-01" (today w) w) fred_series replies ->
  Forall (fun obs => NoDup obs.*1) replies ->
  "data/processed" ∈ dirs w ->
  "figures" ∈ dirs w ->
  exists t w',
    pd.concat_axis1 (zip_with series_frame fred_series replies) = Ok t /\
    run_quick_eda w = (Ok tt, w') /\
    requests w' = requests w ++ ["CPIAUCSL"; "UNRATE"; "FEDFUNDS"; "SP500"] /\
    tables w' = tables w ++ fetched_objects fred_series replies
                  ++ [t; pd.resample_M_mean t] /\
    stats w' = stats w ++ [describe_table t; summary_table t;
                           pd.corr (pd.resample_M_mean t)] /\
    figures w' = figures w ++
                   [time_series_figure t plot_time_series_title;
                    correlation_figure t plot_correlation_heatmap_title;
                    distributions_figure t] /\
    files w' = files w ++
      [("data/processed/summary.csv", Csv (summary_table t));
       ("figures/time_series.png",
        Png (time_series_figure t plot_time_series_title) 200);
       ("figures/correlation.png",
        Png (correlation_figure t plot_correlation_heatmap_title) 200);
       ("figures/distributions.png", Png (distributions_figure t) 200)] /\
    stdout w' = stdout w ++ [completion_message].
Proof.
  intros Hall Hnd Hd1 Hd2.
  assert (Hlen : length fred_series = length replies)
    by now apply Forall2_length in Hall.
  destruct (concat_axis1_succeeds (zip_with series_frame fred_series replies))
    as [t Hcat].
  { destruct replies; [done|]. simpl. done. }
  { now apply series_frames_NoDup. }
  assert (Hlab : labels t = fred_series.*1).
  { rewrite (concat_axis1_labels _ _ Hcat). now apply series_frames_labels. }
  assert (Hcols : columns t <> []).
  { intros Hc. unfold labels in Hlab. now rewrite Hc in Hlab. }
  exists t. eexists. split; [exact Hcat|].
  unfold run_quick_eda.
  (* df = fetch_fred_series(fred_series, start="2010-01-01") *)
  rewrite (bind_run _ _ _ _ _
             (fetch_fred_series_world fred_series "2010-01-01" None w
                replies t Hall Hcat)).
  set (objs := fetched_objects fred_series replies).
  set (df := (length (tables w) + length objs)%nat).
  set (wA := set_tables _ (set_requests _ w)).
  assert (HtA : tables wA !! df = Some t).
  { unfold wA, df. simpl. rewrite app_assoc, <- length_app.
    apply lookup_last. }
  (* summary = summarize_timeseries(df) *)
  rewrite (bind_run _ _ _ _ _ (summarize_timeseries_world wA df t HtA Hcols)).
  set (wB := set_stats _ wA).
  (* summary.to_csv(...) *)
  rewrite (bind_run _ _ _ _ _
             (to_csv_world wB (S (length (stats wA))) (summary_table t)
                "data/processed/summary.csv" "data/processed"
                (lookup_second _ _ _) eq_refl Hd1)).
  set (wC := set_files _ wB).
  (* fig1 = plot_time_series(df); fig1.savefig(...) *)
  rewrite (bind_run _ _ _ _ _
             (plot_time_series_world wC df t plot_time_series_title HtA Hcols)).
  set (wD := set_figures _ wC).
  rewrite (bind_run _ _ _ _ _
             (savefig_world wD (length (figures wC)) _
                "figures/time_series.png" 200 "figures"
                (lookup_last _ _) eq_refl Hd2)).
  set (wE := set_files _ wD).
  (* fig2 = plot_correlation_heatmap(df); fig2.savefig(...) *)
  rewrite (bind_run _ _ _ _ _
             (plot_correlation_heatmap_world wE df t
                plot_correlation_heatmap_title HtA Hcols)).
  set (wF := set_figures _ (set_stats _ (set_tables _ wE))).
  rewrite (bind_run _ _ _ _ _
             (savefig_world wF (length (figures wE)) _
                "figures/correlation.png" 200 "figures"
                (lookup_last _ _) eq_refl Hd2)).
  set (wG := set_files _ wF).
  (* fig3 = plot_distribution(df, columns=[...]); fig3.savefig(...) *)
  assert (HtG : tables wG !! df = Some t).
  { unfold wG, wF. simpl. now apply lookup_app_l_Some. }
  assert (Hsel : Forall (fun c => c ∈ labels t)
                   ["cpi"; "unemployment_rate"; "fed_funds_rate"]).
  { rewrite Hlab. apply (bool_decide_unpack _). vm_compute. exact I. }
  rewrite (bind_run _ _ _ _ _
             (plot_distribution_world wG df t
                (Some ["cpi"; "unemployment_rate"; "fed_funds_rate"])
                HtG ltac:(discriminate) Hsel)).
  set (wH := set_figures _ wG).
  rewrite (bind_run _ _ _ _ _
             (savefig_world wH (length (figures wG)) _
                "figures/distributions.png" 200 "figures"
                (lookup_last _ _) eq_refl Hd2)).
  (* print(...) *)
  split; [reflexivity|]. simpl.
  rewrite <- !app_assoc. simpl. repeat split; reflexivity.
Qed.



Lemma run_quick_eda_failure_witness :
  exists e w' k j,
    run_quick_eda Runs.no_figures_directory = (Raise e, w') /\
    (k < 4)%nat /\
    (files w').*1 = take k output_paths /\
    requests w' = take j fred_series.*2 /\
    stdout w' = [] /\
    (k <> O -> j = 4%nat).
Proof.
  destruct (run_quick_eda Runs.no_figures_directory) as [[u|e] w'] eqn:Hrun.
  - exfalso. revert Hrun. lazy. discriminate.
  - destruct (run_quick_eda_failure Runs.no_figures_directory e w' Hrun)
      as (k & j & Hk & Hf & Hr & Hs & Hj & _).
    exists e, w', k, j. split; [reflexivity|]. auto.
Defined.

(** C5, the figures directory missing: the run raises when it saves the
    first figure, and the summary written before is there. *)
Lemma run_quick_eda_leaves_partial_outputs :
  exists w',
    run_quick_eda Runs.no_figures_directory
      = (Raise (OSError "figures/time_series.png"), w') /\
    (files w').*1 = ["data/processed/summary.csv"].
Proof.
  eexists. split.
  - lazy. reflexivity.
  - lazy. reflexivity.
Qed.

(** * Further properties *)

(** What the functions do besides what the specification says of them:
    how they fail, what they leave alone, and what holds of the values
    they compute. *)

(** ** The fetcher: failures of the provider and of the merge *)

Section FetchFailures.
Variables start end_ : string.

Lemma fetch_loop_raise pre : forall replies item post frames w e,
  Forall2 (replied start end_ w) pre replies ->
  provider w item.2 start end_ = Raise e ->
  exists w',
    for_in (pre ++ item :: post) frames (fetch_body start end_) w
      = (Raise e, w') /\
    tables w' = tables w ++ fetched_objects pre replies /\
    requests w' = requests w ++ pre.*2 ++ [item.2] /\
    files w' = files w /\ stdout w' = stdout w.
Proof.
  induction pre as [|it pre IH]; intros replies item post frames w e Hall He.
  - inversion Hall; subst. simpl.
    unfold bind at 1. unfold fetch_body, web.DataReader. unfold bind at 1.
    rewrite He. eexists. split; [reflexivity|]. simpl.
    now rewrite app_nil_r.
  - inversion Hall as [|? obs ? replies' Hp Hrest]; subst. simpl.
    erewrite bind_run by (apply fetch_body_run; eassumption).
    match goal with
    | |- context [for_in _ ?fr (fetch_body start end_) ?w2] =>
        destruct (IH replies' item post fr w2 e)
          as (w' & Hrun & Htab & Hreq & Hfiles & Hout)
    end.
    { eapply Forall2_impl; [exact Hrest|]. intros i o Hr; exact Hr. }
    { exact He. }
    exists w'. rewrite Hrun, Htab, Hreq, Hfiles, Hout. simpl.
    rewrite <- !app_assoc. simpl. done.
Qed.

End FetchFailures.

Lemma fetch_fred_series_returns series start end_ w r w' :
  fetch_fred_series series start end_ w = (Ok r, w') ->
  exists replies t,
    Forall2 (replied start (default (today w) end_) w) series replies /\
    pd.concat_axis1 (zip_with series_frame series replies) = Ok t /\
    r = TRef (length (tables w) + length (fetched_objects series replies)) /\
    w' = set_tables (fun l => l ++ fetched_objects series replies ++ [t])
           (set_requests (fun l => l ++ series.*2) w).
Proof.
  intros Hrun. pose proof Hrun as Hrun0. unfold fetch_fred_series in Hrun.
  apply bind_ok_inv in Hrun as (e & w0 & He & Hrun).
  assert (e = default (today w) end_ /\ w0 = w) as [-> ->].
  { destruct end_; unfold ret, today_strftime in He; simpl in *;
      now injection He as <- <-. }
  apply bind_ok_inv in Hrun as (frames & w1 & Hloop & _).
  apply fetch_loop_inv in Hloop as [replies Hall].
  destruct (pd.concat_axis1 (zip_with series_frame series replies))
    as [t|err] eqn:Hcat.
  - exists replies, t. split; [done|]. split; [done|].
    rewrite (fetch_fred_series_world _ _ _ _ _ _ Hall Hcat) in Hrun0.
    now injection Hrun0 as <- <-.
  - destruct (fetch_fred_series_run start series end_ w replies Hall)
      as (w2 & _ & _ & Heq).
    rewrite Hcat in Heq. congruence.
Qed.

Lemma fetch_fred_series_raise series pre item post start end_ w replies e :
  series = pre ++ item :: post ->
  Forall2 (replied start (default (today w) end_) w) pre replies ->
  provider w item.2 start (default (today w) end_) = Raise e ->
  exists w',
    fetch_fred_series series start end_ w = (Raise e, w') /\
    requests w' = requests w ++ pre.*2 ++ [item.2] /\
    tables w' = tables w ++ fetched_objects pre replies /\
    files w' = files w /\ stdout w' = stdout w.
Proof.
  intros -> Hall He.
  destruct (fetch_loop_raise start (default (today w) end_) pre replies item
              post [] w e Hall He) as (w' & Hrun & Htab & Hreq & Hf & Ho).
  exists w'. split; [|done].
  unfold fetch_fred_series.
  erewrite bind_run; cycle 1.
  { instantiate (1 := w). instantiate (1 := default (today w) end_).
    now destruct end_. }
  now rewrite (bind_raise _ _ _ _ _ Hrun).
Qed.

(** X1.  The fetcher handles no error of the provider: when the provider
    raises on the request of a series, after having answered those of the
    series before it in the mapping, the fetcher raises the same exception.
    The series after the failing one are never requested, the tables
    retrieved so far are not merged, no file is written and nothing is
    printed. *)
Theorem fetch_fred_series_provider_error series pre item post start end_ w
    replies e :
  series = pre ++ item :: post ->
  Forall2 (replied start (default (today w) end_) w) pre replies ->
  provider w item.2 start (default (today w) end_) = Raise e ->
  exists w',
    fetch_fred_series series start end_ w = (Raise e, w') /\
    requests w' = requests w ++ pre.*2 ++ [item.2] /\
    tables w' = tables w ++ fetched_objects pre replies /\
    files w' = files w /\ stdout w' = stdout w.
Proof. apply fetch_fred_series_raise. Qed.

Lemma fetch_fred_series_provider_error_witness :
  exists w',
    fetch_fred_series [("a", "ID1"); ("c", "ID3"); ("b", "ID2")]
      "2020-01-01" None Scenario.world
      = (Raise (RemoteDataError "ID3"), w') /\
    requests w' = ["ID1"; "ID3"] /\
    files w' = [] /\ stdout w' = [].
Proof.
  destruct (fetch_fred_series_provider_error
              [("a", "ID1"); ("c", "ID3"); ("b", "ID2")]
              [("a", "ID1")] ("c", "ID3") [("b", "ID2")]
              "2020-01-01" None Scenario.world [Scenario.reply_a]
              (RemoteDataError "ID3"))
    as (w' & Hrun & Hreq & _ & Hfiles & Hout).
  - reflexivity.
  - repeat constructor.
  - reflexivity.
  - exists w'. auto.
Defined.

(** X2.  Whatever its outcome, the fetcher requests the series in the order
    of the mapping, once per entry: the requests it makes are a prefix of
    the identifiers of the mapping, and all of them when it returns.  It
    writes no file, prints nothing, and creates no figure and no table of
    statistics. *)
Theorem fetch_fred_series_requests_in_order series start end_ w :
  let run := fetch_fred_series series start end_ w in
  files run.2 = files w /\ stdout run.2 = stdout w /\
  figures run.2 = figures w /\ stats run.2 = stats w /\
  exists j,
    requests run.2 = requests w ++ take j series.*2 /\
    (forall r, run.1 = Ok r -> requests run.2 = requests w ++ series.*2).
Proof.
  simpl.
  destruct (fetch_fred_series_requests series start end_ w)
    as (Hfiles & Hout & j & Hreq & Hall).
  split; [exact Hfiles|]. split; [exact Hout|].
  split; [now apply fetch_fred_series_frame|].
  split; [now apply fetch_fred_series_frame|].
  exists j. split; [exact Hreq|]. intros r Hr.
  rewrite Hreq, (Hall r Hr). rewrite <- (length_fmap snd series).
  now rewrite firstn_all.
Qed.

Lemma date_le_total : Total date_le.
Proof. intros a b. unfold date_le. lia. Qed.

Lemma remove_one_fresh d l : NoDup l -> d ∉ pd.remove_one d l.
Proof.
  induction 1 as [|x l Hx Hl IH]; simpl; [apply not_elem_of_nil|].
  destruct (decide (x = d)) as [->|Hne]; [done|].
  apply not_elem_of_cons. split; [congruence | done].
Qed.

Lemma remove_one_NoDup d l : NoDup l -> NoDup (pd.remove_one d l).
Proof.
  induction 1 as [|x l Hx Hl IH]; simpl; [constructor|].
  destruct (decide (x = d)); [done|].
  constructor; [|done]. intros H. now apply elem_of_remove_one in H.
Qed.

Lemma surplus_NoDup a : forall b, NoDup b -> NoDup (pd.surplus a b).
Proof.
  unfold pd.surplus. induction a as [|d a IH]; intros b Hb; simpl; [done|].
  apply IH. now apply remove_one_NoDup.
Qed.

Lemma surplus_disjoint a : forall b x,
  NoDup b -> x ∈ a -> x ∉ pd.surplus a b.
Proof.
  induction a as [|d a IH]; intros b x Hb Hx; [now apply elem_of_nil in Hx|].
  change (pd.surplus (d :: a) b) with (pd.surplus a (pd.remove_one d b)).
  destruct (decide (x = d)) as [->|Hne].
  - intros H%elem_of_surplus. now apply remove_one_fresh in H.
  - apply elem_of_cons in Hx as [->|Hx]; [done|].
    apply IH; [now apply remove_one_NoDup | done].
Qed.

(** The union of two chronological indexes without repeated dates is one
    as well. *)
Lemma union_index_chronological a b :
  NoDup a /\ Sorted date_le a -> NoDup b /\ Sorted date_le b ->
  NoDup (pd.union_index a b) /\ Sorted date_le (pd.union_index a b).
Proof.
  intros Ha Hb. unfold pd.union_index.
  case_bool_decide; [done|]. case_bool_decide; [done|]. split.
  - rewrite merge_sort_Permutation. apply NoDup_app.
    split; [apply Ha|]. split; [|apply surplus_NoDup, Hb].
    intros x Hx. apply surplus_disjoint; [apply Hb | done].
  - apply (@Sorted_merge_sort _ date_le _ date_le_total).
Qed.

Lemma foldl_union_chronological idxs : forall acc,
  NoDup acc /\ Sorted date_le acc ->
  Forall (fun idx => NoDup idx /\ Sorted date_le idx) idxs ->
  NoDup (foldl pd.union_index acc idxs) /\
  Sorted date_le (foldl pd.union_index acc idxs).
Proof.
  induction idxs as [|idx idxs IH]; intros acc Hacc Hall; simpl; [done|].
  inversion Hall; subst. apply IH; [|done].
  now apply union_index_chronological.
Qed.

Lemma union_indexes_chronological idxs :
  Forall (fun idx => NoDup idx /\ Sorted date_le idx) idxs ->
  NoDup (pd.union_indexes idxs) /\ Sorted date_le (pd.union_indexes idxs).
Proof.
  intros Hall. unfold pd.union_indexes.
  destruct idxs as [|idx rest]; [split; constructor|].
  inversion Hall; subst. now apply foldl_union_chronological.
Qed.

Lemma series_frames_index series : forall replies,
  length series = length replies ->
  map index (zip_with series_frame series replies)
  = map (fun obs : list (Date * float) => obs.*1) replies.
Proof.
  induction series as [|item series IH]; intros [|obs replies] Hlen;
    simpl in *; try done.
  f_equal. apply IH. lia.
Qed.

(** X4.  When every retrieved series has distinct dates in chronological
    order, so has the index of the table the fetcher returns. *)
Theorem fetch_fred_series_index_chronological series start end_ w n w' t :
  (forall item obs,
     item ∈ series ->
     provider w item.2 start (default (today w) end_) = Ok obs ->
     NoDup obs.*1 /\ Sorted date_le obs.*1) ->
  fetch_fred_series series start end_ w = (Ok (TRef n), w') ->
  tables w' !! n = Some t ->
  NoDup (index t) /\ Sorted date_le (index t).
Proof.
  intros Hobs Hrun Ht.
  apply fetch_fred_series_returns in Hrun
    as (replies & t0 & Hall & Hcat & Hn & ->).
  injection Hn as ->. simpl in Ht.
  rewrite app_assoc, <- length_app, lookup_last in Ht. injection Ht as <-.
  pose proof Hcat as (_ & ->)%concat_axis1_Ok. cbn [index].
  apply union_indexes_chronological.
  rewrite series_frames_index by now apply Forall2_length in Hall.
  apply Forall_fmap, Forall_forall. intros obs Hin.
  apply list_elem_of_lookup in Hin as [k Hk].
  destruct (Forall2_lookup_r _ _ _ _ _ Hall Hk) as (item & Hitem & Hp).
  apply (Hobs item obs); [|exact Hp].
  apply list_elem_of_lookup. eauto.
Qed.

Lemma fetch_fred_series_index_chronological_witness :
  NoDup (index Scenario.merged) /\ Sorted date_le (index Scenario.merged).
Proof.
  apply (fetch_fred_series_index_chronological Scenario.series "2020-01-01"
           (Some "2020-01-03") Scenario.world 4
           (fetch_fred_series Scenario.series "2020-01-01"
              (Some "2020-01-03") Scenario.world).2).
  - intros item obs Hin Hp.
    assert (Hcases : obs = Scenario.reply_a \/ obs = Scenario.reply_b).
    { apply list_elem_of_In in Hin. simpl in Hin.
      destruct Hin as [<-|[<-|[]]]; vm_compute in Hp; injection Hp as <-;
        [now left | now right]. }
    destruct Hcases as [-> | ->]; split;
      try (apply (bool_decide_unpack _); vm_compute; exact I);
      repeat constructor; unfold date_le; simpl; lia.
  - lazy. reflexivity.
  - lazy. reflexivity.
Defined.

(** X5.  A retrieved series that repeats a date cannot be aligned with the
    others: when it also lacks a date that another retrieved series has,
    the fetcher raises the error of the concatenation, once all the
    requests are made; no merged table is created and no file is
    written. *)
Theorem fetch_fred_series_repeated_date series start end_ w replies
    obs other d :
  Forall2 (replied start (default (today w) end_) w) series replies ->
  obs ∈ replies -> ~ NoDup obs.*1 ->
  other ∈ replies -> d ∈ other.*1 -> d ∉ obs.*1 ->
  exists w',
    fetch_fred_series series start end_ w
      = (Raise (InvalidIndexError
                  "Reindexing only valid with uniquely valued Index objects"),
         w') /\
    requests w' = requests w ++ series.*2 /\
    tables w' = tables w ++ fetched_objects series replies /\
    files w' = files w.
Proof.
  intros Hall Hobs Hdup Hother Hd Hnd.
  destruct (fetch_fred_series_run start series end_ w replies Hall)
    as (w1 & Htab & Hreq & Hrun).
  exists w1.
  assert (Hlen : length series = length replies)
    by now apply Forall2_length in Hall.
  assert (Hix := series_frames_index series replies Hlen).
  assert (Hraise : pd.concat_axis1 (zip_with series_frame series replies)
                   = Raise (InvalidIndexError
                       "Reindexing only valid with uniquely valued Index objects")).
  { destruct (zip_with series_frame series replies) as [|f rest] eqn:Hframes.
    { destruct replies; [now apply elem_of_nil in Hobs | done]. }
    assert (Hin : forall o : list (Date * float),
              o ∈ replies -> exists g, g ∈ f :: rest /\ index g = o.*1).
    { intros o Ho.
      assert (Ho' : o.*1 ∈ map index (f :: rest)).
      { rewrite Hix.
        apply (list_elem_of_fmap_2 (fun o : list (Date * float) => o.*1)).
        exact Ho. }
      apply list_elem_of_fmap in Ho' as (g & -> & Hg). eauto. }
    unfold pd.concat_axis1.
    rewrite bool_decide_eq_false_2; [reflexivity|].
    intros Hall'. rewrite Forall_forall in Hall'.
    destruct (Hin obs Hobs) as (g1 & Hg1 & E1).
    destruct (Hin other Hother) as (g2 & Hg2 & E2).
    destruct (Hall' g1 Hg1) as [Heq|Hnodup].
    - apply Hnd. rewrite <- E1, Heq.
      apply elem_of_union_indexes. exists (index g2). split.
      + now apply list_elem_of_fmap_2.
      + now rewrite E2.
    - apply Hdup. now rewrite <- E1. }
  rewrite Hraise in Hrun. split; [exact Hrun|].
  split; [exact Hreq|]. split; [exact Htab|].
  eapply (preserved_field files); [|exact Hrun].
  now apply fetch_fred_series_frame.
Qed.

Lemma fetch_fred_series_repeated_date_witness :
  exists w',
    fetch_fred_series Scenario.series "2020-01-01" None Cases.repeating_world
      = (Raise (InvalidIndexError
                  "Reindexing only valid with uniquely valued Index objects"),
         w') /\
    requests w' = ["ID1"; "ID2"].
Proof.
  destruct (fetch_fred_series_repeated_date Scenario.series "2020-01-01" None
              Cases.repeating_world
              [[(Scenario.day 1, Some 1%R); (Scenario.day 1, Some 2%R)];
               Scenario.reply_b]
              [(Scenario.day 1, Some 1%R); (Scenario.day 1, Some 2%R)]
              Scenario.reply_b (Scenario.day 2))
    as (w' & Hrun & Hreq & _).
  - repeat constructor.
  - left.
  - apply (bool_decide_unpack _). vm_compute. exact I.
  - right. left.
  - apply (bool_decide_unpack _). vm_compute. exact I.
  - apply (bool_decide_unpack _). vm_compute. exact I.
  - exists w'. auto.
Defined.

(** ** The summarizer: the cells of the statistics *)

Section SummaryStatistics.
Import pd.

Lemma summary_describe_cell t k c col i name :
  columns t !! k = Some (c, col) ->
  describe_index !! i = Some name ->
  stat_cell (summary_table t) k name = Num <$> (describe_column col !! i).
Proof.
  intros Hk Hi. unfold stat_cell, summary_table, transpose, describe_table.
  cbn [columns index].
  do 8 (destruct i as [|i]; [injection Hi as <-; simpl;
    rewrite !list_lookup_fmap, Hk; reflexivity|]).
  done.
Qed.


Lemma summary_table_labels t :
  labels (summary_table t)
  = describe_index ++ ["missing_pct"; "start_date"; "end_date"].
Proof.
  unfold labels, summary_table. cbn [columns]. rewrite fmap_app.
  fold (labels (transpose (describe_table t))).
  now rewrite labels_transpose.
Qed.

Lemma summary_table_well_formed t : well_formed (summary_table t).
Proof.
  unfold well_formed, nrows, summary_table. cbn [columns index].
  apply Forall_app. split.
  - unfold transpose, describe_table. cbn [columns index].
    unfold describe_index. simpl.
    unfold labels.
    repeat constructor; simpl; rewrite ?length_map, ?length_fmap;
      reflexivity.
  - unfold missing_pct_column, start_date_column, end_date_column.
    unfold scale, frame_mean, isna, apply, labels. cbn [columns].
    repeat constructor; simpl;
      rewrite ?series_map_snd, ?length_fmap, ?length_map, ?length_fmap;
      reflexivity.
Qed.

Lemma present_count_na col :
  (length (present col) + count_na col = length col)%nat.
Proof.
  unfold present, count_na. induction col as [|x col IH]; [done|].
  rewrite filter_cons. destruct x as [x|]; simpl.
  - f_equal. exact IH.
  - rewrite Nat.add_succ_r. f_equal. exact IH.
Qed.

Lemma present_all_na col : Forall (fun x => x = NaN) col -> present col = [].
Proof.
  unfold present. induction 1 as [|x col -> _ IH]; [done|]. exact IH.
Qed.

Lemma count_na_all col :
  Forall (fun x => x = NaN) col -> count_na col = length col.
Proof.
  intros Hall. pose proof (present_count_na col) as H.
  rewrite (present_all_na col Hall) in H. exact H.
Qed.

End SummaryStatistics.

(** X6.  On a table with at least one column the summarizer returns a new
    table with one row per column of the input, in order, and eleven
    columns: the eight statistics of [describe] followed by missing_pct,
    start_date and end_date; each of them has one cell per row. *)
Theorem summarize_timeseries_shape w n t :
  tables w !! n = Some t -> columns t <> [] ->
  exists m w' s,
    summarize_timeseries (TRef n) w = (Ok (SRef m), w') /\
    stats w' !! m = Some s /\
    index s = labels t /\
    labels s = ["count"; "mean"; "std"; "min"; "25%"; "50%"; "75%"; "max";
                "missing_pct"; "start_date"; "end_date"] /\
    well_formed s.
Proof.
  intros Hn Hne.
  destruct (summarize_timeseries_run w n t Hn Hne) as (w' & Hrun & Hst & _).
  exists (S (length (stats w))), w', (summary_table t).
  split; [exact Hrun|]. split; [rewrite Hst; apply lookup_second|].
  split; [reflexivity|]. split.
  - apply summary_table_labels.
  - apply summary_table_well_formed.
Qed.

Lemma summarize_timeseries_shape_witness :
  exists m w' s,
    summarize_timeseries (TRef 0) scenario_store = (Ok (SRef m), w') /\
    stats w' !! m = Some s /\
    index s = ["a"; "b"] /\
    labels s = ["count"; "mean"; "std"; "min"; "25%"; "50%"; "75%"; "max";
                "missing_pct"; "start_date"; "end_date"] /\
    well_formed s.
Proof.
  apply (summarize_timeseries_shape scenario_store 0 Scenario.merged).
  - reflexivity.
  - discriminate.
Defined.

(** X7.  In the summary of a table with at least one row, the count of a
    column is the number of its entries that are not NaN: count plus the
    number of NaN entries is the number of rows.  The missing percentage
    is (1 - count / rows) * 100, and lies between 0 and 100. *)
Theorem summarize_timeseries_count w n t k c col :
  tables w !! n = Some t -> well_formed t -> (0 < nrows t)%nat ->
  columns t !! k = Some (c, col) ->
  exists m w' s cnt p,
    summarize_timeseries (TRef n) w = (Ok (SRef m), w') /\
    stats w' !! m = Some s /\
    stat_cell s k "count" = Some (Num (Some (INR cnt))) /\
    (cnt + count_na col = nrows t)%nat /\
    stat_cell s k "missing_pct" = Some (Num (Some p)) /\
    p = ((1 - INR cnt / INR (nrows t)) * 100)%R /\
    (0 <= p <= 100)%R.
Proof.
  intros Hn Hwf Hrows Hk.
  assert (Hne : columns t <> []) by (intros E; now rewrite E in Hk).
  assert (Hlen : length col = nrows t).
  { unfold well_formed in Hwf. rewrite Forall_forall in Hwf.
    apply (Hwf (c, col)). apply list_elem_of_lookup. eauto. }
  destruct (summarize_timeseries_run w n t Hn Hne) as (w' & Hrun & Hst & _).
  exists (S (length (stats w))), w', (summary_table t),
    (length (pd.present col)),
    (INR (count_na col) / INR (length col) * 100)%R.
  split; [exact Hrun|]. split; [rewrite Hst; apply lookup_second|].
  pose proof (present_count_na col) as Hsum.
  assert (Hpos : (0 < INR (length col))%R).
  { apply lt_0_INR. lia. }
  split; [|split; [|split; [|split]]].
  - now rewrite (summary_describe_cell t k c col 0 "count").
  - lia.
  - apply (summary_missing_pct t k c col Hk). intros E. rewrite E in Hlen.
    simpl in Hlen. lia.
  - rewrite <- Hlen.
    assert (Hsum' : INR (length col)
                    = (INR (length (pd.present col)) + INR (count_na col))%R)
      by now rewrite <- plus_INR, Hsum.
    rewrite Hsum' in *. field. lra.
  - assert (Hna : (0 <= INR (count_na col) <= INR (length col))%R).
    { split; [apply pos_INR | apply le_INR; lia]. }
    split.
    + apply Rmult_le_pos; [|lra].
      apply Rmult_le_pos; [lra|]. left. now apply Rinv_0_lt_compat.
    + assert (INR (count_na col) / INR (length col) <= 1)%R; [|lra].
      apply (Rmult_le_reg_r (INR (length col))); [done|].
      unfold Rdiv. rewrite Rmult_assoc, Rinv_l by lra. lra.
Qed.

Lemma summarize_timeseries_count_witness :
  exists m w' s cnt p,
    summarize_timeseries (TRef 0) scenario_store = (Ok (SRef m), w') /\
    stats w' !! m = Some s /\
    stat_cell s 1 "count" = Some (Num (Some (INR cnt))) /\
    (cnt + count_na [Some 10%R; None; Some 30%R] = nrows Scenario.merged)%nat /\
    stat_cell s 1 "missing_pct" = Some (Num (Some p)) /\
    p = ((1 - INR cnt / INR (nrows Scenario.merged)) * 100)%R /\
    (0 <= p <= 100)%R.
Proof.
  apply (summarize_timeseries_count scenario_store 0 Scenario.merged 1 "b"
           [Some 10%R; None; Some 30%R]).
  - reflexivity.
  - repeat constructor.
  - unfold nrows. simpl. lia.
  - reflexivity.
Defined.

(** *** The first and the last row with a value *)

Section ValidIndex.
Context {A : Type} (P : A -> Prop) `{!forall x, Decision (P x)}.

Lemma head_filter_lookup l a :
  head (filter P l) = Some a ->
  exists i, l !! i = Some a /\ P a /\
            forall j b, (j < i)%nat -> l !! j = Some b -> ~ P b.
Proof.
  induction l as [|x l IH]; [done|]. rewrite filter_cons.
  destruct (decide (P x)) as [Hx|Hx]; simpl.
  - intros [= ->]. exists O. split; [done|]. split; [done|]. lia.
  - intros (i & Hi & Ha & Hbefore)%IH. exists (S i).
    split; [done|]. split; [done|].
    intros [|j] b Hj Hb; simpl in Hb.
    + now injection Hb as <-.
    + apply (Hbefore j); [lia | done].
Qed.

Lemma last_filter_lookup l a :
  last (filter P l) = Some a ->
  exists i, l !! i = Some a /\ P a /\
            forall j b, (i < j)%nat -> l !! j = Some b -> ~ P b.
Proof.
  induction l as [|x l IH]; [done|]. rewrite filter_cons.
  destruct (decide (P x)) as [Hx|Hx]; simpl.
  - rewrite last_cons. destruct (last (filter P l)) as [y|] eqn:Hlast.
    + intros [= ->]. destruct (IH eq_refl) as (i & Hi & Ha & Hafter).
      exists (S i). split; [done|]. split; [done|].
      intros [|j] b Hj Hb; [lia|]. apply (Hafter j); [lia | done].
    + intros [= ->]. exists O. split; [done|]. split; [done|].
      intros [|j] b Hj Hb Hpb; [lia|]. simpl in Hb.
      assert (Hin : b ∈ filter P l).
      { apply list_elem_of_filter. split; [done|].
        apply list_elem_of_lookup. eauto. }
      apply last_None in Hlast. rewrite Hlast in Hin.
      now apply elem_of_nil in Hin.
  - intros (i & Hi & Ha & Hafter)%IH. exists (S i).
    split; [done|]. split; [done|].
    intros [|j] b Hj Hb; [lia|]. apply (Hafter j); [lia | done].
Qed.

End ValidIndex.

Lemma isna_cell_true v : isna_cell v <> false -> v = NaN.
Proof. now destruct v. Qed.

Lemma first_valid_index_row idx col d :
  pd.first_valid_index idx col = Some d ->
  exists i x, idx !! i = Some d /\ col !! i = Some (Some x) /\
    forall j, (j < i)%nat -> col !! j = Some NaN.
Proof.
  unfold pd.first_valid_index, pd.valid_dates. intros Hd.
  destruct (head (filter (fun p : Date * float => isna_cell p.2 = false)
                    (zip idx col))) as [[d' v']|] eqn:Hhead; cycle 1.
  { apply head_None in Hhead. now rewrite Hhead in Hd. }
  assert (d' = d) as ->.
  { apply head_Some in Hhead as [l' Hl']. rewrite Hl' in Hd.
    simpl in Hd. congruence. }
  apply head_filter_lookup in Hhead as (i & Hi & Hp & Hbefore).
  apply lookup_zip_with_Some in Hi as (d0 & v0 & [= -> ->] & Hd0 & Hv0).
  simpl in Hp. destruct v0 as [x|]; [|done].
  exists i, x. split; [done|]. split; [done|].
  intros j Hj.
  assert (Hlt1 : (i < length idx)%nat) by (apply lookup_lt_Some in Hd0; lia).
  assert (Hlt2 : (i < length col)%nat) by (apply lookup_lt_Some in Hv0; lia).
  destruct (lookup_lt_is_Some_2 idx j) as [dj Hdj]; [lia|].
  destruct (lookup_lt_is_Some_2 col j) as [vj Hvj]; [lia|].
  rewrite Hvj. f_equal. apply isna_cell_true.
  apply (Hbefore j (dj, vj)); [done|].
  apply lookup_zip_with_Some. eauto.
Qed.

Lemma last_valid_index_row idx col d :
  pd.last_valid_index idx col = Some d ->
  exists i x, idx !! i = Some d /\ col !! i = Some (Some x) /\
    forall j v, (i < j)%nat -> (j < length idx)%nat -> col !! j = Some v ->
                v = NaN.
Proof.
  unfold pd.last_valid_index, pd.valid_dates. intros Hd.
  rewrite fmap_last in Hd.
  destruct (last (filter (fun p : Date * float => isna_cell p.2 = false)
                    (zip idx col))) as [[d' v']|] eqn:Hlast; [|done].
  simpl in Hd. injection Hd as ->.
  apply last_filter_lookup in Hlast as (i & Hi & Hp & Hafter).
  apply lookup_zip_with_Some in Hi as (d0 & v0 & [= -> ->] & Hd0 & Hv0).
  simpl in Hp. destruct v0 as [x|]; [|done].
  exists i, x. split; [done|]. split; [done|].
  intros j v Hj Hlen Hv.
  destruct (lookup_lt_is_Some_2 idx j) as [dj Hdj]; [lia|].
  apply isna_cell_true.
  apply (Hafter j (dj, v)); [done|].
  apply lookup_zip_with_Some. eauto.
Qed.

Lemma valid_dates_present idx col i d x :
  idx !! i = Some d -> col !! i = Some (Some x) ->
  pd.valid_dates idx col <> [].
Proof.
  intros Hd Hx Hnil. unfold pd.valid_dates in Hnil.
  apply fmap_nil_inv in Hnil.
  assert (Hin : (d, Some x) ∈ filter (fun p : Date * float =>
                                        isna_cell p.2 = false) (zip idx col)).
  { apply list_elem_of_filter. split; [done|].
    apply list_elem_of_lookup. exists i.
    apply lookup_zip_with_Some. eauto. }
  rewrite Hnil in Hin. now apply elem_of_nil in Hin.
Qed.

(** X8.  For a column that holds at least one value, start_date and end_date
    are the dates of the first and of the last row that hold a value:
    every entry before the first and after the last is NaN, and neither of
    the two is. *)
Theorem summarize_timeseries_date_range w n t k c col i0 x0 :
  tables w !! n = Some t -> well_formed t ->
  columns t !! k = Some (c, col) ->
  col !! i0 = Some (Some x0) ->
  exists m w' s i1 i2 d1 d2,
    summarize_timeseries (TRef n) w = (Ok (SRef m), w') /\
    stats w' !! m = Some s /\
    stat_cell s k "start_date" = Some (Stamp (Some d1)) /\
    stat_cell s k "end_date" = Some (Stamp (Some d2)) /\
    index t !! i1 = Some d1 /\ index t !! i2 = Some d2 /\
    (i1 <= i0 <= i2)%nat /\
    (forall j v, col !! j = Some v -> (j < i1)%nat \/ (i2 < j)%nat ->
                 v = NaN) /\
    col !! i1 <> Some NaN /\ col !! i2 <> Some NaN.
Proof.
  intros Hn Hwf Hk Hx0.
  assert (Hne : columns t <> []) by (intros E; now rewrite E in Hk).
  assert (Hlen : length col = length (index t)).
  { unfold well_formed in Hwf. rewrite Forall_forall in Hwf.
    apply (Hwf (c, col)). apply list_elem_of_lookup. eauto. }
  destruct (lookup_lt_is_Some_2 (index t) i0) as [d0 Hd0].
  { apply lookup_lt_Some in Hx0. lia. }
  pose proof (valid_dates_present _ _ _ _ _ Hd0 Hx0) as Hvalid.
  destruct (pd.first_valid_index (index t) col) as [d1|] eqn:Hfirst; cycle 1.
  { unfold pd.first_valid_index in Hfirst. now apply head_None in Hfirst. }
  destruct (pd.last_valid_index (index t) col) as [d2|] eqn:Hlast; cycle 1.
  { unfold pd.last_valid_index in Hlast. now apply last_None in Hlast. }
  destruct (first_valid_index_row _ _ _ Hfirst)
    as (i1 & x1 & Hi1 & Hx1 & Hbefore).
  destruct (last_valid_index_row _ _ _ Hlast)
    as (i2 & x2 & Hi2 & Hx2 & Hafter).
  destruct (summarize_timeseries_run w n t Hn Hne) as (w' & Hrun & Hst & _).
  exists (S (length (stats w))), w', (summary_table t), i1, i2, d1, d2.
  split; [exact Hrun|]. split; [rewrite Hst; apply lookup_second|].
  split; [|split].
  - rewrite (summary_column _ _ (start_date_column t)); [|done|].
    + unfold start_date_column, pd.apply.
      rewrite series_map_snd, !list_lookup_fmap, Hk. simpl.
      now rewrite Hfirst.
    + now apply describe_index_fresh.
  - rewrite (summary_column _ _ (end_date_column t)); [|done|].
    + unfold end_date_column, pd.apply.
      rewrite series_map_snd, !list_lookup_fmap, Hk. simpl.
      now rewrite Hlast.
    + now apply describe_index_fresh.
  - split; [done|]. split; [done|]. split; [|split; [|split]].
    + split.
      * destruct (decide (i0 < i1)%nat) as [Hlt|]; [|lia].
        rewrite (Hbefore i0 Hlt) in Hx0. discriminate.
      * destruct (decide (i2 < i0)%nat) as [Hlt|]; [|lia].
        assert (Some x0 = NaN); [|discriminate].
        apply (Hafter i0); [done| |done].
        apply lookup_lt_Some in Hd0. lia.
    + intros j v Hv [Hj|Hj].
      * rewrite (Hbefore j Hj) in Hv. now injection Hv as <-.
      * apply (Hafter j); [done| |done].
        apply lookup_lt_Some in Hv. lia.
    + now rewrite Hx1.
    + now rewrite Hx2.
Qed.

Lemma summarize_timeseries_date_range_witness :
  exists m w' s i1 i2 d1 d2,
    summarize_timeseries (TRef 0) scenario_store = (Ok (SRef m), w') /\
    stats w' !! m = Some s /\
    stat_cell s 1 "start_date" = Some (Stamp (Some d1)) /\
    stat_cell s 1 "end_date" = Some (Stamp (Some d2)) /\
    index Scenario.merged !! i1 = Some d1 /\
    index Scenario.merged !! i2 = Some d2 /\
    (i1 <= 2 <= i2)%nat /\
    (forall j v, [Some 10%R; None; Some 30%R] !! j = Some v ->
                 (j < i1)%nat \/ (i2 < j)%nat -> v = NaN) /\
    [Some 10%R; None; Some 30%R] !! i1 <> Some NaN /\
    [Some 10%R; None; Some 30%R] !! i2 <> Some NaN.
Proof.
  apply (summarize_timeseries_date_range scenario_store 0 Scenario.merged 1
           "b" [Some 10%R; None; Some 30%R] 2 30%R).
  - reflexivity.
  - repeat constructor.
  - reflexivity.
  - reflexivity.
Defined.

(** X10.  For a column with exactly one value that is not NaN, the count is
    1, the standard deviation is NaN (one degree of freedom is removed),
    and the mean, the minimum, the three quartiles and the maximum are that
    value. *)
Theorem summarize_timeseries_single_observation w n t k c col x :
  tables w !! n = Some t -> columns t !! k = Some (c, col) ->
  pd.present col = [x] ->
  exists m w' s,
    summarize_timeseries (TRef n) w = (Ok (SRef m), w') /\
    stats w' !! m = Some s /\
    stat_cell s k "count" = Some (Num (Some 1%R)) /\
    stat_cell s k "std" = Some (Num NaN) /\
    Forall (fun name => stat_cell s k name = Some (Num (Some x)))
      ["mean"; "min"; "25%"; "50%"; "75%"; "max"].
Proof.
  intros Hn Hk Hx.
  assert (Hne : columns t <> []) by (intros E; now rewrite E in Hk).
  destruct (summarize_timeseries_run w n t Hn Hne) as (w' & Hrun & Hst & _).
  exists (S (length (stats w))), w', (summary_table t).
  split; [exact Hrun|]. split; [rewrite Hst; apply lookup_second|].
  assert (Hq : forall p, pd.percentile p [x] = Some x).
  { intros p. unfold pd.percentile. simpl. f_equal. field. }
  split; [|split].
  - rewrite (summary_describe_cell t k c col 0 "count" Hk eq_refl).
    unfold pd.describe_column. now rewrite Hx.
  - rewrite (summary_describe_cell t k c col 2 "std" Hk eq_refl).
    unfold pd.describe_column. now rewrite Hx.
  - repeat apply List.Forall_cons; try apply List.Forall_nil.
    + rewrite (summary_describe_cell t k c col 1 "mean" Hk eq_refl).
      unfold pd.describe_column. rewrite Hx. simpl. do 3 f_equal. lra.
    + rewrite (summary_describe_cell t k c col 3 "min" Hk eq_refl).
      unfold pd.describe_column. now rewrite Hx.
    + rewrite (summary_describe_cell t k c col 4 "25%" Hk eq_refl).
      unfold pd.describe_column. rewrite Hx.
      cbn [lookup list_lookup fmap option_fmap option_map]. now rewrite Hq.
    + rewrite (summary_describe_cell t k c col 5 "50%" Hk eq_refl).
      unfold pd.describe_column. rewrite Hx.
      cbn [lookup list_lookup fmap option_fmap option_map]. now rewrite Hq.
    + rewrite (summary_describe_cell t k c col 6 "75%" Hk eq_refl).
      unfold pd.describe_column. rewrite Hx.
      cbn [lookup list_lookup fmap option_fmap option_map]. now rewrite Hq.
    + rewrite (summary_describe_cell t k c col 7 "max" Hk eq_refl).
      unfold pd.describe_column. now rewrite Hx.
Qed.

Lemma summarize_timeseries_single_observation_witness :
  exists m w' s,
    summarize_timeseries (TRef 0) Cases.sparse_store = (Ok (SRef m), w') /\
    stats w' !! m = Some s /\
    stat_cell s 0 "count" = Some (Num (Some 1%R)) /\
    stat_cell s 0 "std" = Some (Num NaN) /\
    Forall (fun name => stat_cell s 0 name = Some (Num (Some 5%R)))
      ["mean"; "min"; "25%"; "50%"; "75%"; "max"].
Proof.
  apply (summarize_timeseries_single_observation Cases.sparse_store 0
           Cases.sparse 0 "a" [Some 5%R; None] 5%R); reflexivity.
Defined.

(** X11.  For a column of NaN only, in a table with rows, the count is 0, the
    seven other statistics are NaN and the missing percentage is 100. *)
Theorem summarize_timeseries_all_missing w n t k c col :
  tables w !! n = Some t -> columns t !! k = Some (c, col) -> col <> [] ->
  Forall (fun x => x = NaN) col ->
  exists m w' s,
    summarize_timeseries (TRef n) w = (Ok (SRef m), w') /\
    stats w' !! m = Some s /\
    stat_cell s k "count" = Some (Num (Some 0%R)) /\
    Forall (fun name => stat_cell s k name = Some (Num NaN))
      ["mean"; "std"; "min"; "25%"; "50%"; "75%"; "max"] /\
    stat_cell s k "missing_pct" = Some (Num (Some 100%R)).
Proof.
  intros Hn Hk Hrows Hall.
  assert (Hne : columns t <> []) by (intros E; now rewrite E in Hk).
  destruct (summarize_timeseries_run w n t Hn Hne) as (w' & Hrun & Hst & _).
  exists (S (length (stats w))), w', (summary_table t).
  split; [exact Hrun|]. split; [rewrite Hst; apply lookup_second|].
  pose proof (present_all_na col Hall) as Hx.
  split; [|split].
  - rewrite (summary_describe_cell t k c col 0 "count" Hk eq_refl).
    unfold pd.describe_column. now rewrite Hx.
  - repeat apply List.Forall_cons; try apply List.Forall_nil.
    + rewrite (summary_describe_cell t k c col 1 "mean" Hk eq_refl).
      unfold pd.describe_column. now rewrite Hx.
    + rewrite (summary_describe_cell t k c col 2 "std" Hk eq_refl).
      unfold pd.describe_column. now rewrite Hx.
    + rewrite (summary_describe_cell t k c col 3 "min" Hk eq_refl).
      unfold pd.describe_column. now rewrite Hx.
    + rewrite (summary_describe_cell t k c col 4 "25%" Hk eq_refl).
      unfold pd.describe_column. now rewrite Hx.
    + rewrite (summary_describe_cell t k c col 5 "50%" Hk eq_refl).
      unfold pd.describe_column. now rewrite Hx.
    + rewrite (summary_describe_cell t k c col 6 "75%" Hk eq_refl).
      unfold pd.describe_column. now rewrite Hx.
    + rewrite (summary_describe_cell t k c col 7 "max" Hk eq_refl).
      unfold pd.describe_column. now rewrite Hx.
  - rewrite (summary_missing_pct t k c col Hk Hrows).
    rewrite (count_na_all col Hall). do 3 f_equal.
    assert (0 < INR (length col))%R.
    { apply lt_0_INR. destruct col; [done | simpl; lia]. }
    field. lra.
Qed.

Lemma summarize_timeseries_all_missing_witness :
  exists m w' s,
    summarize_timeseries (TRef 0) Cases.sparse_store = (Ok (SRef m), w') /\
    stats w' !! m = Some s /\
    stat_cell s 1 "count" = Some (Num (Some 0%R)) /\
    Forall (fun name => stat_cell s 1 name = Some (Num NaN))
      ["mean"; "std"; "min"; "25%"; "50%"; "75%"; "max"] /\
    stat_cell s 1 "missing_pct" = Some (Num (Some 100%R)).
Proof.
  apply (summarize_timeseries_all_missing Cases.sparse_store 0
           Cases.sparse 1 "b" [None; None]).
  - reflexivity.
  - reflexivity.
  - discriminate.
  - repeat constructor.
Defined.

(** *** Tables without columns, tables without rows *)

(** X12.  On a table without columns the summarizer raises the ValueError of
    [describe] and leaves the state as it was: no table is created. *)
Theorem summarize_timeseries_without_columns w n t :
  tables w !! n = Some t -> columns t = [] ->
  summarize_timeseries (TRef n) w
  = (Raise (ValueError "Cannot describe a DataFrame without columns"), w).
Proof. apply summarize_timeseries_no_columns. Qed.

Lemma summarize_timeseries_without_columns_witness :
  summarize_timeseries (TRef 0) Cases.no_columns_store
  = (Raise (ValueError "Cannot describe a DataFrame without columns"),
     Cases.no_columns_store).
Proof.
  apply (summarize_timeseries_without_columns Cases.no_columns_store 0
           Cases.no_columns); reflexivity.
Defined.

(** X13.  On a table with columns and no row the summarizer returns: the
    count of a column is 0, its mean and its missing percentage are NaN
    (the mean of no value), and it has no start and no end date. *)
Theorem summarize_timeseries_without_rows w n t k c :
  tables w !! n = Some t -> columns t !! k = Some (c, []) ->
  exists m w' s,
    summarize_timeseries (TRef n) w = (Ok (SRef m), w') /\
    stats w' !! m = Some s /\
    stat_cell s k "count" = Some (Num (Some 0%R)) /\
    stat_cell s k "mean" = Some (Num NaN) /\
    stat_cell s k "missing_pct" = Some (Num NaN) /\
    stat_cell s k "start_date" = Some (Stamp None) /\
    stat_cell s k "end_date" = Some (Stamp None).
Proof.
  intros Hn Hk.
  assert (Hne : columns t <> []) by (intros E; now rewrite E in Hk).
  destruct (summarize_timeseries_run w n t Hn Hne) as (w' & Hrun & Hst & _).
  exists (S (length (stats w))), w', (summary_table t).
  split; [exact Hrun|]. split; [rewrite Hst; apply lookup_second|].
  split; [|split; [|split]].
  - now rewrite (summary_describe_cell t k c [] 0 "count" Hk eq_refl).
  - now rewrite (summary_describe_cell t k c [] 1 "mean" Hk eq_refl).
  - exact (summary_missing_pct_no_rows t k c Hk).
  - apply (summary_dates_absent t k c [] Hk). constructor.
Qed.

Lemma summarize_timeseries_without_rows_witness :
  exists m w' s,
    summarize_timeseries (TRef 0) Cases.no_rows_store = (Ok (SRef m), w') /\
    stats w' !! m = Some s /\
    stat_cell s 0 "count" = Some (Num (Some 0%R)) /\
    stat_cell s 0 "mean" = Some (Num NaN) /\
    stat_cell s 0 "missing_pct" = Some (Num NaN) /\
    stat_cell s 0 "start_date" = Some (Stamp None) /\
    stat_cell s 0 "end_date" = Some (Stamp None).
Proof.
  apply (summarize_timeseries_without_rows Cases.no_rows_store 0
           Cases.no_rows 0 "a"); reflexivity.
Defined.

(** ** The time-series plotter: what is drawn *)



(** X15.  On a table without columns the time-series plotter raises the
    TypeError of [DataFrame.plot]; the empty figure created before stays in
    the registry, and nothing else changes. *)
Theorem plot_time_series_no_columns w n t ttl :
  tables w !! n = Some t -> columns t = [] ->
  plot_time_series (TRef n) ttl w
  = (Raise (TypeError "no numeric data to plot"),
     set_figures (fun l => l ++ [mkFigure (12, 6) [empty_axes] false]) w).
Proof.
  intros Hn Hc. unfold plot_time_series.
  rewrite (bind_run _ _ _ _ _ (subplots_run w 1 (12, 6) ltac:(done))).
  cbn [fst snd].
  erewrite bind_raise; [reflexivity|].
  unfold obj.plot.
  erewrite bind_run by (apply read_table_run; exact Hn).
  now rewrite Hc.
Qed.

Lemma plot_time_series_no_columns_witness :
  plot_time_series (TRef 0) plot_time_series_title Cases.no_columns_store
  = (Raise (TypeError "no numeric data to plot"),
     set_figures (fun l => l ++ [mkFigure (12, 6) [empty_axes] false])
       Cases.no_columns_store).
Proof.
  apply (plot_time_series_no_columns Cases.no_columns_store 0
           Cases.no_columns); reflexivity.
Defined.

(** ** The correlation matrix: degenerate columns *)

Section CorrelationRange.
Import pd.
Local Open Scope R_scope.

(** A column whose values are all the same has no coefficient. *)
Lemma rsum_constant v xs :
  Forall (fun x => x = v) xs -> rsum xs = INR (length xs) * v.
Proof.
  induction 1 as [|x xs -> _ IH]; [simpl; lra|].
  change (rsum (v :: xs)) with (v + rsum xs).
  change (length (v :: xs)) with (S (length xs)). rewrite S_INR, IH. lra.
Qed.

Lemma rsum_all_zero {A} (f : A -> R) l :
  Forall (fun x => f x = 0) l -> rsum (map f l) = 0.
Proof.
  induction 1 as [|x xs Hx _ IH]; [done|].
  change (rsum (map f (x :: xs))) with (f x + rsum (map f xs)). lra.
Qed.

Lemma pearson_constant ps v :
  Forall (fun p => p.1 = v) ps -> pearson ps = NaN.
Proof.
  intros Hall. destruct ps as [|p ps]; [done|]. unfold pearson.
  set (l := p :: ps) in *.
  assert (Hn : 0 < INR (length l)) by (apply lt_0_INR; simpl; lia).
  assert (Hmx : rsum l.*1 / INR (length l) = v).
  { rewrite (rsum_constant v).
    - rewrite length_fmap. field. lra.
    - now apply Forall_fmap. }
  rewrite Hmx.
  rewrite (rsum_all_zero (fun q : R * R => (q.1 - v) * (q.1 - v)) l); cycle 1.
  { eapply Forall_impl; [exact Hall|]. intros q ->. simpl. lra. }
  rewrite Rmult_0_l, sqrt_0. now rewrite decide_True.
Qed.

Lemma pairs_fst_present a : forall b v,
  Forall (fun x => x = v) (present a) ->
  Forall (fun p => p.1 = v) (pairs a b).
Proof.
  unfold present, pairs.
  induction a as [|x a IH]; intros [|y b] v Hall; simpl; try constructor.
  destruct x as [x|]; simpl in Hall.
  - inversion Hall as [|? ? Hx Hrest]; subst.
    destruct y as [y|]; simpl; [constructor; [done|]|]; now apply IH.
  - now apply IH.
Qed.

Lemma corr_constant_column t i j ci v :
  columns t !! i = Some ci -> Forall (fun x => x = v) (present ci.2) ->
  (j < length (columns t))%nat ->
  matrix_cell (corr t) i j = Some (Num NaN) /\
  matrix_cell (corr t) j i = Some (Num NaN).
Proof.
  intros Hi Hconst Hj.
  destruct (lookup_lt_is_Some_2 (columns t) j Hj) as [cj Hcj].
  assert (H : matrix_cell (corr t) i j = Some (Num NaN)).
  { unfold matrix_cell, corr. cbn [columns].
    rewrite list_lookup_fmap, Hcj. simpl.
    rewrite list_lookup_fmap, Hi. simpl. do 2 f_equal.
    apply (pearson_constant _ v). now apply pairs_fst_present. }
  split; [exact H|]. now rewrite corr_symmetric.
Qed.

End CorrelationRange.


Section SingleMonth.
Import pd.

Lemma month_bins_single idx mi :
  Forall (fun d => month_index d = mi) idx ->
  month_bins idx = [] \/ month_bins idx = [mi].
Proof.
  intros Hall. unfold month_bins.
  destruct idx as [|d idx]; [now left|]. right.
  inversion Hall as [|? ? Hd Hrest]; subst. cbn [map].
  assert (Hlo : foldr Z.min (month_index d) (map month_index idx)
                = month_index d /\
                foldr Z.max (month_index d) (map month_index idx)
                = month_index d).
  { clear Hall. induction Hrest as [|e idx He _ IH]; [done|].
    simpl. rewrite He. destruct IH as [-> ->]. lia. }
  destruct Hlo as [-> ->].
  now replace (month_index d - month_index d + 1) with 1 by lia.
Qed.

Lemma present_short (col : list float) v :
  (length col <= 1)%nat -> exists v', Forall (fun x => x = v') (present col)
                                      /\ (col = [] -> v' = v).
Proof.
  destruct col as [|[x|] [|y col]]; simpl; intros Hlen; try lia.
  - exists v. split; [constructor | done].
  - exists x. split; [repeat constructor | done].
  - exists v. split; [constructor | done].
Qed.

Lemma resample_single_month_columns t mi ci i :
  Forall (fun d => month_index d = mi) (index t) ->
  columns (resample_M_mean t) !! i = Some ci ->
  (length ci.2 <= 1)%nat.
Proof.
  intros Hall. unfold resample_M_mean. cbn [columns].
  rewrite list_lookup_fmap.
  destruct (columns t !! i) as [c|]; [|done]. simpl. intros [= <-]. simpl.
  rewrite length_map.
  destruct (month_bins_single _ _ Hall) as [-> | ->]; simpl; lia.
Qed.

End SingleMonth.

(** X18.  When all the rows of a table fall in one calendar month, or the
    table has no row, every cell of the matrix the correlation plotter
    computes is NaN. *)
Theorem correlation_single_month w n t ttl mi :
  tables w !! n = Some t ->
  Forall (fun d => month_index d = mi) (index t) ->
  exists m,
    stats (plot_correlation_heatmap (TRef n) ttl w).2 !! length (stats w)
      = Some m /\
    m = pd.corr (pd.resample_M_mean t) /\
    forall i j, (i < length (columns t))%nat ->
                (j < length (columns t))%nat ->
                matrix_cell m i j = Some (Num NaN).
Proof.
  intros Ht Hall. exists (pd.corr (pd.resample_M_mean t)).
  split; [|split; [reflexivity|]].
  - destruct (plot_correlation_heatmap_store w n t ttl Ht) as [_ ->].
    apply lookup_last.
  - intros i j Hi Hj.
    assert (Hlen : length (columns (pd.resample_M_mean t))
                   = length (columns t)).
    { unfold pd.resample_M_mean. cbn [columns]. now rewrite length_map. }
    destruct (lookup_lt_is_Some_2 (columns (pd.resample_M_mean t)) i)
      as [ci Hci]; [lia|].
    pose proof (resample_single_month_columns t mi ci i Hall Hci) as Hshort.
    destruct (present_short ci.2 0%R Hshort) as (v & Hv & _).
    apply (corr_constant_column _ i j ci v Hci Hv). lia.
Qed.

Lemma correlation_single_month_witness :
  exists m,
    stats (plot_correlation_heatmap (TRef 0) plot_correlation_heatmap_title
             scenario_store).2 !! 0%nat = Some m /\
    m = pd.corr (pd.resample_M_mean Scenario.merged) /\
    forall i j, (i < 2)%nat -> (j < 2)%nat ->
                matrix_cell m i j = Some (Num NaN).
Proof.
  apply (correlation_single_month scenario_store 0 Scenario.merged
           plot_correlation_heatmap_title 24240).
  - reflexivity.
  - repeat constructor.
Defined.


(** ** Monthly resampling: the rows of the monthly table *)

Section MonthlyRows.
Import pd.

Lemma bin_values_no_row mi idx : forall col,
  (forall d, d ∈ idx -> month_index d <> mi) -> bin_values mi idx col = [].
Proof.
  unfold bin_values.
  induction idx as [|d idx IH]; intros [|x col] Hno; simpl; try done.
  rewrite decide_False by (apply Hno; left).
  apply IH. intros e He. apply Hno. now right.
Qed.

Lemma month_bins_between idx d1 d2 mi :
  d1 ∈ idx -> d2 ∈ idx -> month_index d1 <= mi <= month_index d2 ->
  exists j, month_bins idx !! j = Some mi.
Proof.
  intros H1 H2 Hmi. unfold month_bins.
  apply (list_elem_of_fmap_2 month_index) in H1, H2.
  change (month_index <$> idx) with (map month_index idx) in H1, H2.
  destruct (map month_index idx) as [|m ms]; [inversion H1|].
  pose proof (foldr_min_le m ms _ H1). pose proof (foldr_max_ge m ms _ H2).
  exists (Z.to_nat (mi - foldr Z.min m ms)). apply lookup_seqZ. lia.
Qed.

Lemma month_bins_consecutive idx j a b :
  month_bins idx !! j = Some a -> month_bins idx !! S j = Some b ->
  b = a + 1.
Proof.
  unfold month_bins. destruct (map month_index idx) as [|m ms]; [done|].
  intros [-> _]%lookup_seqZ [-> _]%lookup_seqZ. lia.
Qed.

Lemma resample_M_mean_well_formed t : well_formed (resample_M_mean t).
Proof.
  unfold well_formed, nrows, resample_M_mean. cbn [index columns].
  apply Forall_fmap, Forall_forall. intros c _. simpl.
  now rewrite !length_map.
Qed.

Lemma resample_M_mean_labels t : labels (resample_M_mean t) = labels t.
Proof.
  unfold labels, resample_M_mean. cbn [columns].
  rewrite <- list_fmap_compose. now apply list_fmap_ext.
Qed.

End MonthlyRows.

(** X19.  A calendar month that lies between the months of two dates of the
    table, and in which the table has no row, still has a row in the
    monthly table the correlation plotter builds, and every cell of that
    row is NaN. *)
Theorem resample_empty_month w n t ttl d1 d2 mi :
  tables w !! n = Some t ->
  d1 ∈ index t -> d2 ∈ index t ->
  month_index d1 <= mi <= month_index d2 ->
  (forall d, d ∈ index t -> month_index d <> mi) ->
  exists monthly j,
    tables (plot_correlation_heatmap (TRef n) ttl w).2 !! length (tables w)
      = Some monthly /\
    index monthly !! j = Some (month_end mi) /\
    forall c, c ∈ columns monthly -> c.2 !! j = Some NaN.
Proof.
  intros Ht H1 H2 Hmi Hno.
  destruct (month_bins_between _ _ _ _ H1 H2 Hmi) as [j Hj].
  exists (pd.resample_M_mean t), j. split; [|split].
  - destruct (plot_correlation_heatmap_store w n t ttl Ht) as [-> _].
    apply lookup_last.
  - unfold pd.resample_M_mean. cbn [index].
    now rewrite list_lookup_fmap, Hj.
  - intros c Hc. unfold pd.resample_M_mean in Hc. cbn [columns] in Hc.
    apply list_elem_of_fmap in Hc as (c0 & -> & _). cbn [snd].
    rewrite list_lookup_fmap, Hj. simpl.
    now rewrite bin_values_no_row.
Qed.

Lemma resample_empty_month_witness :
  exists monthly j,
    tables (plot_correlation_heatmap (TRef 0) plot_correlation_heatmap_title
              (set_tables (fun _ => [Cases.gap]) Scenario.world)).2 !! 1%nat
      = Some monthly /\
    index monthly !! j = Some (month_end 24241) /\
    forall c, c ∈ columns monthly -> c.2 !! j = Some NaN.
Proof.
  apply (resample_empty_month
           (set_tables (fun _ => [Cases.gap]) Scenario.world) 0 Cases.gap
           plot_correlation_heatmap_title
           (mkDate 2020 1 15) (mkDate 2020 3 15) 24241).
  - reflexivity.
  - left.
  - right. left.
  - vm_compute. split; discriminate.
  - intros d Hd. apply list_elem_of_In in Hd. simpl in Hd.
    destruct Hd as [<-|[<-|[]]]; vm_compute; discriminate.
Defined.

(** X20.  The monthly table the correlation plotter builds has the columns
    of the input, with one cell per row in each; it has a row for the month
    of every date of the input; every row is labelled by the last day of
    its month, and consecutive rows are consecutive months; when the input
    has no row, it has none. *)
Theorem resample_monthly_rows w n t ttl :
  tables w !! n = Some t ->
  exists monthly,
    tables (plot_correlation_heatmap (TRef n) ttl w).2 !! length (tables w)
      = Some monthly /\
    labels monthly = labels t /\
    well_formed monthly /\
    (forall d, d ∈ index t -> month_end (month_index d) ∈ index monthly) /\
    (forall d, d ∈ index monthly -> d = month_end (month_index d)) /\
    (forall j a b, index monthly !! j = Some a ->
                   index monthly !! S j = Some b ->
                   month_index b = month_index a + 1) /\
    (index t = [] -> index monthly = []).
Proof.
  intros Ht. exists (pd.resample_M_mean t).
  split.
  { destruct (plot_correlation_heatmap_store w n t ttl Ht) as [-> _].
    apply lookup_last. }
  split; [apply resample_M_mean_labels|].
  split; [apply resample_M_mean_well_formed|].
  unfold pd.resample_M_mean. cbn [index]. split; [|split; [|split]].
  - intros d Hd.
    destruct (month_bins_between (index t) d d (month_index d) Hd Hd
                ltac:(lia)) as [j Hj].
    apply list_elem_of_lookup. exists j. now rewrite list_lookup_fmap, Hj.
  - intros d (mi & -> & _)%list_elem_of_fmap.
    now rewrite month_index_month_end.
  - intros j a b. rewrite !list_lookup_fmap.
    destruct (pd.month_bins (index t) !! j) as [x|] eqn:Hx; [|done].
    destruct (pd.month_bins (index t) !! S j) as [y|] eqn:Hy; [|done].
    simpl. intros [= <-] [= <-]. rewrite !month_index_month_end.
    apply (month_bins_consecutive _ _ _ _ Hx Hy).
  - now intros ->.
Qed.

Lemma resample_monthly_rows_witness :
  exists monthly,
    tables (plot_correlation_heatmap (TRef 0) plot_correlation_heatmap_title
              scenario_store).2 !! length (tables scenario_store)
      = Some monthly /\
    labels monthly = labels Scenario.merged /\
    well_formed monthly /\
    (forall d, d ∈ index Scenario.merged ->
               month_end (month_index d) ∈ index monthly) /\
    (forall d, d ∈ index monthly -> d = month_end (month_index d)) /\
    (forall j a b, index monthly !! j = Some a ->
                   index monthly !! S j = Some b ->
                   month_index b = month_index a + 1) /\
    (index Scenario.merged = [] -> index monthly = []).
Proof.
  apply (resample_monthly_rows scenario_store 0 Scenario.merged).
  reflexivity.
Defined.

(** X21.  On a table without columns the correlation plotter raises the
    ValueError of the heatmap of an empty matrix; the empty figure created
    before stays in the registry, no file is written and nothing is
    printed. *)
Theorem plot_correlation_heatmap_without_columns w n t ttl :
  tables w !! n = Some t -> columns t = [] ->
  exists w',
    plot_correlation_heatmap (TRef n) ttl w
      = (Raise (ValueError "zero-size array to reduction operation fmin"),
         w') /\
    figures w' = figures w ++ [mkFigure (7, 5) [empty_axes] false] /\
    files w' = files w /\ stdout w' = stdout w.
Proof.
  intros Ht Hc. unfold plot_correlation_heatmap.
  rewrite (bind_run _ _ _ _ _ (resample_M_mean_run _ _ _ Ht)).
  erewrite bind_run; cycle 1.
  { apply corr_run. simpl. now apply list_lookup_middle. }
  erewrite bind_run by (now apply subplots_run).
  cbn [fst snd]. eexists. split.
  - apply bind_raise. unfold sns.heatmap.
    erewrite bind_run; cycle 1.
    { apply read_stats_run. simpl. now apply list_lookup_middle. }
    unfold pd.corr, pd.resample_M_mean. cbn [columns]. rewrite Hc.
    reflexivity.
  - done.
Qed.

Lemma plot_correlation_heatmap_without_columns_witness :
  exists w',
    plot_correlation_heatmap (TRef 0) plot_correlation_heatmap_title
      Cases.no_columns_store
      = (Raise (ValueError "zero-size array to reduction operation fmin"),
         w') /\
    figures w' = [mkFigure (7, 5) [empty_axes] false].
Proof.
  destruct (plot_correlation_heatmap_without_columns Cases.no_columns_store 0
              Cases.no_columns plot_correlation_heatmap_title)
    as (w' & Hrun & Hfig & _); [reflexivity | reflexivity |].
  exists w'. auto.
Defined.

(** ** The distribution plotter: selections it refuses *)

Section DistributionFailures.
Variables (n : nat) (t : DataFrame) (l : list Figure).

Lemma assoc_fresh {V} c (cols : list (string * V)) :
  c ∉ cols.*1 -> pd.assoc c cols = None.
Proof.
  induction cols as [|[k v] cols IH]; simpl; [done|].
  rewrite not_elem_of_cons. intros [Hne Hnin].
  apply String.eqb_neq in Hne. rewrite Hne. now apply IH.
Qed.

Lemma getitem_unknown w c :
  tables w !! n = Some t -> c ∉ labels t ->
  obj.getitem (TRef n) c w = (Raise (KeyError c), w).
Proof.
  intros Ht Hc. unfold obj.getitem.
  rewrite (bind_run _ _ _ _ _ (read_table_run _ _ _ Ht)).
  unfold lift, pd.getitem. now rewrite (assoc_fresh c (columns t) Hc).
Qed.

Lemma distribution_loop_raise pre : forall done w fig c post,
  figures w = l ++ [fig] ->
  axes fig = done ++ replicate (length pre + S (length post)) empty_axes ->
  tables w !! n = Some t ->
  Forall (fun x => x ∈ labels t) pre ->
  c ∉ labels t ->
  exists w',
    for_in (zip (map (fun i => Ax (FigRef (length l), i))
                   (seq (length done) (length pre + S (length post))))
              (pre ++ c :: post))
      tt (distribution_body n) w = (Raise (KeyError c), w') /\
    figures w' = l ++ [mkFigure (figsize fig)
                         (done ++ map (distribution_axes t) pre
                               ++ replicate (S (length post)) empty_axes)
                         (tight fig)] /\
    same_store w w'.
Proof.
  induction pre as [|x pre IH]; intros done w fig c post Hfig Hax Ht Hall Hc.
  - exists w. cbn [length Nat.add seq map app zip zip_with for_in].
    split; [|split; [|done]].
    + apply bind_raise. unfold distribution_body. cbn [fst snd].
      apply bind_raise. now apply getitem_unknown.
    + rewrite Hfig. destruct fig as [sz ax tg]. simpl in *. now rewrite Hax.
  - inversion Hall as [|? ? Hx Hrest]; subst.
    cbn [length Nat.add replicate] in Hax.
    cbn [length Nat.add seq map app zip zip_with for_in].
    destruct (distribution_body_run n t l w fig done _ x Hfig Hax Ht Hx)
      as (w2 & Hrun2 & Hfig2 & Htab2 & Hst2).
    rewrite (bind_run _ _ _ _ _ Hrun2).
    destruct (IH (done ++ [distribution_axes t x]) w2 _ c post Hfig2)
      as (w3 & Hrun3 & Hfig3 & Htab3 & Hst3).
    { cbn [axes]. now rewrite <- app_assoc. }
    { now rewrite Htab2. }
    { exact Hrest. }
    { exact Hc. }
    rewrite length_app, Nat.add_comm in Hrun3. simpl in Hrun3.
    exists w3. split; [exact Hrun3|]. split.
    + rewrite Hfig3. cbn [figsize tight]. now rewrite <- app_assoc.
    + split; [now rewrite Htab3, Htab2 | now rewrite Hst3, Hst2].
Qed.

End DistributionFailures.

(** The state the distribution plotter leaves when the selection names a
    label that is not a column of the table. *)
Lemma plot_distribution_unknown_column_run w n t pre c post :
  tables w !! n = Some t ->
  Forall (fun x => x ∈ labels t) pre ->
  c ∉ labels t ->
  exists w',
    plot_distribution (TRef n) (Some (pre ++ c :: post)) w
      = (Raise (KeyError c), w') /\
    figures w' = figures w ++
      [mkFigure (8, 3 * Z.of_nat (length (pre ++ c :: post)))
         (map (distribution_axes t) pre
            ++ replicate (S (length post)) empty_axes) false] /\
    tables w' = tables w /\ stats w' = stats w.
Proof.
  intros Ht Hall Hc. unfold plot_distribution.
  set (cols := pre ++ c :: post).
  assert (Hlen : length cols = (length pre + S (length post))%nat).
  { unfold cols. rewrite length_app. reflexivity. }
  unfold bind at 1, ret at 1.
  erewrite bind_run by (apply subplots_run; rewrite Hlen; lia).
  cbn [fst snd].
  set (f := FigRef (length (figures w))).
  set (w1 := set_figures _ w).
  assert (Hseq : (if (length cols =? 1)%nat
                  then AxSeq [match length cols with
                              | 1%nat => Ax (f, O)
                              | _ => AxSeq (map (fun i => Ax (f, i))
                                              (seq 0 (length cols)))
                              end]
                  else match length cols with
                       | 1%nat => Ax (f, O)
                       | _ => AxSeq (map (fun i => Ax (f, i))
                                       (seq 0 (length cols)))
                       end)
                 = AxSeq (map (fun i => Ax (f, i)) (seq 0 (length cols)))).
  { destruct cols as [|c1 [|c2 cs]]; [simpl in Hlen; lia | reflexivity
                                     | reflexivity]. }
  rewrite Hseq. cbn [py_zip]. unfold bind at 1, ret at 1.
  destruct (distribution_loop_raise n t (figures w) pre [] w1
              (mkFigure (8, 3 * Z.of_nat (length cols))
                 (replicate (length cols) empty_axes) false) c post)
    as (w2 & Hrun2 & Hfig2 & Htab2 & Hst2); try done.
  { cbn [axes app]. now rewrite Hlen. }
  cbn [length] in Hrun2. rewrite <- Hlen in Hrun2.
  erewrite bind_raise by exact Hrun2.
  exists w2. split; [reflexivity|]. split; [exact Hfig2|].
  split; [now rewrite Htab2 | now rewrite Hst2].
Qed.

(** X22.  When the selection names a label that is not a column of the
    table, the distribution plotter raises KeyError on the first such
    label.  The figure created before stays in the registry, with one
    subplot per selected label and the size asked for: the subplots of the
    labels before the unknown one have their title and their histogram,
    the others are empty, and the layout was not tightened.  No table is
    touched. *)
Theorem plot_distribution_unknown_column w n t pre c post :
  tables w !! n = Some t ->
  Forall (fun x => x ∈ labels t) pre ->
  c ∉ labels t ->
  exists w' fig,
    plot_distribution (TRef n) (Some (pre ++ c :: post)) w
      = (Raise (KeyError c), w') /\
    figures w' = figures w ++ [fig] /\
    figsize fig = (8, 3 * Z.of_nat (length (pre ++ c :: post))) /\
    tight fig = false /\
    length (axes fig) = length (pre ++ c :: post) /\
    (forall i x, pre !! i = Some x ->
       exists ax, axes fig !! i = Some ax /\
                  title ax = "Distribution of " +:+ x /\
                  artists ax = [Histogram (column_values t x) true]) /\
    (forall i, (length pre <= i < length (pre ++ c :: post))%nat ->
               axes fig !! i = Some empty_axes) /\
    tables w' = tables w /\ stats w' = stats w.
Proof.
  intros Ht Hall Hc.
  destruct (plot_distribution_unknown_column_run w n t pre c post Ht Hall Hc)
    as (w' & Hrun & Hfig & Htab & Hst).
  eexists w', _. split; [exact Hrun|]. split; [exact Hfig|].
  cbn [figsize tight axes]. split; [reflexivity|]. split; [reflexivity|].
  split.
  { rewrite !length_app, length_map, length_replicate. reflexivity. }
  split; [|split; [|done]].
  - intros i x Hi. exists (distribution_axes t x).
    split; [|done].
    rewrite lookup_app_l by (rewrite length_map; now apply lookup_lt_Some in Hi).
    now rewrite list_lookup_fmap, Hi.
  - intros i [Hlo Hhi]. rewrite length_app in Hhi. cbn [length] in Hhi.
    rewrite lookup_app_r by (now rewrite length_map).
    rewrite length_map. apply lookup_replicate_2. lia.
Qed.

Lemma plot_distribution_unknown_column_witness :
  exists w' fig,
    plot_distribution (TRef 0) (Some (["a"] ++ "c" :: ["b"])) scenario_store
      = (Raise (KeyError "c"), w') /\
    figures w' = figures scenario_store ++ [fig] /\
    figsize fig = (8, 9) /\
    length (axes fig) = 3%nat /\
    tables w' = tables scenario_store /\ stats w' = stats scenario_store.
Proof.
  destruct (plot_distribution_unknown_column scenario_store 0 Scenario.merged
              ["a"] "c" ["b"])
    as (w' & fig & Hrun & Hfig & Hsize & _ & Hlen & _ & _ & Htab & Hst).
  - reflexivity.
  - repeat constructor.
  - apply (bool_decide_unpack _). vm_compute. exact I.
  - exists w', fig. auto 6.
Defined.

(** X23.  When the selection resolves to no column (an empty selection, or
    no selection on a table without columns) the distribution plotter
    raises ValueError: a figure of no subplot row is refused.  No table and
    no file is touched. *)
Theorem plot_distribution_nothing_selected w n t selected :
  tables w !! n = Some t -> selection t selected = [] ->
  let run := plot_distribution (TRef n) selected w in
  run.1 = Raise (ValueError "Number of rows must be a positive integer") /\
  tables run.2 = tables w /\ stats run.2 = stats w /\ files run.2 = files w.
Proof.
  intros Ht Hsel. cbv zeta.
  assert (Hrun : plot_distribution (TRef n) selected w
                 = (Raise (ValueError
                             "Number of rows must be a positive integer"),
                    set_figures (fun l => l ++ [mkFigure (8, 0) [] false]) w)).
  { unfold plot_distribution.
    erewrite bind_run; cycle 1.
    { instantiate (1 := w). instantiate (1 := selection t selected).
      destruct selected; [reflexivity | exact (eval_run w n t labels Ht)]. }
    rewrite Hsel. reflexivity. }
  now rewrite Hrun.
Qed.

Lemma plot_distribution_nothing_selected_witness :
  (plot_distribution (TRef 0) None Cases.no_columns_store).1
  = Raise (ValueError "Number of rows must be a positive integer").
Proof.
  apply (plot_distribution_nothing_selected Cases.no_columns_store 0
           Cases.no_columns None); reflexivity.
Defined.

(** ** The orchestrator: what a run needs, and how it fails *)

Lemma to_csv_frame {X} (proj : World -> X) s path :
  (forall g w, proj (set_files g w) = proj w) ->
  preserves proj (obj.to_csv s path).
Proof. intros. frame. Qed.

Lemma savefig_frame {X} (proj : World -> X) fig path dpi :
  (forall g w, proj (set_files g w) = proj w) ->
  preserves proj (plt.savefig fig path dpi).
Proof. intros. frame. Qed.

Lemma run_quick_eda_dirs : preserves dirs run_quick_eda.
Proof.
  unfold run_quick_eda.
  apply preserves_bind; [now apply fetch_fred_series_frame | intros ?].
  apply preserves_bind; [now apply summarize_timeseries_frame | intros ?].
  apply preserves_bind; [now apply to_csv_frame | intros ?].
  apply preserves_bind; [now apply plot_time_series_frame | intros ?].
  apply preserves_bind; [now apply savefig_frame | intros ?].
  apply preserves_bind; [now apply plot_correlation_heatmap_frame | intros ?].
  apply preserves_bind; [now apply savefig_frame | intros ?].
  apply preserves_bind; [now apply plot_distribution_frame | intros ?].
  apply preserves_bind; [now apply savefig_frame | intros ?].
  now apply preserves_print.
Qed.

Lemma write_file_ok_dir path content w w' d :
  write_file path content w = (Ok tt, w') -> dirname path = Some d ->
  d ∈ dirs w.
Proof.
  unfold write_file. intros Hrun Hd. rewrite Hd in Hrun.
  destruct (bool_decide (d ∈ dirs w)) eqn:E; [|done].
  now apply bool_decide_eq_true in E.
Qed.

Lemma to_csv_ok_dir s path w w' d :
  obj.to_csv s path w = (Ok tt, w') -> dirname path = Some d -> d ∈ dirs w.
Proof.
  unfold obj.to_csv. intros (v & w1 & Hread & Hwrite)%bind_ok_inv Hd.
  rewrite <- (preserved_field dirs _ _ _ _ (preserves_read_stats dirs s) Hread).
  eapply write_file_ok_dir; eassumption.
Qed.

Lemma savefig_ok_dir fig path dpi w w' d :
  plt.savefig fig path dpi w = (Ok tt, w') -> dirname path = Some d ->
  d ∈ dirs w.
Proof.
  unfold plt.savefig. intros (v & w1 & Hread & Hwrite)%bind_ok_inv Hd.
  rewrite <- (preserved_field dirs _ _ _ _ (preserves_read_figure dirs fig)
                Hread).
  eapply write_file_ok_dir; eassumption.
Qed.

(** X24.  A run never creates a directory: the directories after a run are
    those before it, whatever its outcome.  So a run that returns has
    found both output directories, data/processed and figures. *)
Theorem run_quick_eda_needs_directories w r w' :
  run_quick_eda w = (r, w') ->
  dirs w' = dirs w /\
  (r = Ok tt -> "data/processed" ∈ dirs w /\ "figures" ∈ dirs w).
Proof.
  intros Hrun. split.
  { exact (preserved_field dirs _ _ _ _ run_quick_eda_dirs Hrun). }
  intros ->. unfold run_quick_eda in Hrun.
  apply bind_ok_inv in Hrun as (df & w1 & E1 & Hrun).
  apply bind_ok_inv in Hrun as (summary & w2 & E2 & Hrun).
  apply bind_ok_inv in Hrun as ([] & w3 & E3 & Hrun).
  apply bind_ok_inv in Hrun as (fig1 & w4 & E4 & Hrun).
  apply bind_ok_inv in Hrun as ([] & w5 & E5 & _).
  assert (D1 : dirs w1 = dirs w).
  { eapply preserved_field; [|exact E1]. now apply fetch_fred_series_frame. }
  assert (D2 : dirs w2 = dirs w1).
  { eapply preserved_field; [|exact E2]. now apply summarize_timeseries_frame. }
  assert (D3 : dirs w3 = dirs w2).
  { eapply preserved_field; [|exact E3]. now apply to_csv_frame. }
  assert (D4 : dirs w4 = dirs w3).
  { eapply preserved_field; [|exact E4]. now apply plot_time_series_frame. }
  split.
  - rewrite <- D1, <- D2. eapply to_csv_ok_dir; [exact E3 | reflexivity].
  - rewrite <- D1, <- D2, <- D3, <- D4.
    eapply savefig_ok_dir; [exact E5 | reflexivity].
Qed.

Lemma run_quick_eda_needs_directories_witness :
  exists w',
    run_quick_eda Runs.complete = (Ok tt, w') /\
    dirs w' = dirs Runs.complete /\
    "data/processed" ∈ dirs Runs.complete /\ "figures" ∈ dirs Runs.complete.
Proof.
  exists (run_quick_eda Runs.complete).2.
  assert (Hrun : run_quick_eda Runs.complete
                 = (Ok tt, (run_quick_eda Runs.complete).2))
    by (lazy; reflexivity).
  destruct (run_quick_eda_needs_directories Runs.complete (Ok tt) _ Hrun)
    as [Hd Hdirs].
  split; [exact Hrun|]. split; [exact Hd|]. now apply Hdirs.
Defined.

Lemma to_csv_refused w n s path d :
  stats w !! n = Some s -> dirname path = Some d -> d ∉ dirs w ->
  obj.to_csv (SRef n) path w = (Raise (OSError path), w).
Proof.
  intros Hs Hd Hin. unfold obj.to_csv.
  rewrite (bind_run _ _ _ _ _ (read_stats_run _ _ _ Hs)).
  unfold write_file. rewrite Hd. now rewrite bool_decide_eq_false_2.
Qed.

Lemma savefig_refused w n fig path dpi d :
  figures w !! n = Some fig -> dirname path = Some d -> d ∉ dirs w ->
  plt.savefig (FigRef n) path dpi w = (Raise (OSError path), w).
Proof.
  intros Hf Hd Hin. unfold plt.savefig.
  rewrite (bind_run _ _ _ _ _ (read_figure_run _ _ _ Hf)).
  unfold write_file. rewrite Hd. now rewrite bool_decide_eq_false_2.
Qed.

Lemma fred_series_merged replies :
  Forall2 (fun (_ : string * string) (_ : list (Date * float)) => True)
    fred_series replies ->
  Forall (fun obs : list (Date * float) => NoDup obs.*1) replies ->
  exists t,
    pd.concat_axis1 (zip_with series_frame fred_series replies) = Ok t /\
    columns t <> [].
Proof.
  intros Hall Hnd.
  assert (Hlen : length fred_series = length replies)
    by now apply Forall2_length in Hall.
  destruct (concat_axis1_succeeds (zip_with series_frame fred_series replies))
    as [t Hcat].
  { destruct replies; [done|]. simpl. done. }
  { now apply series_frames_NoDup. }
  exists t. split; [exact Hcat|].
  assert (Hlab : labels t = fred_series.*1).
  { rewrite (concat_axis1_labels _ _ Hcat). now apply series_frames_labels. }
  intros Hc. unfold labels in Hlab. now rewrite Hc in Hlab.
Qed.

(** X25.  When the provider answers the four requests, without a repeated
    date in a series, and the directory data/processed does not exist, a
    run raises OSError on the summary file, after the four requests and
    the summary: no file is written, no figure is created and nothing is
    printed. *)
Theorem run_quick_eda_no_data_directory w replies :
  Forall2 (replied "2010-01-01" (today w) w) fred_series replies ->
  Forall (fun obs => NoDup obs.*1) replies ->
  "data/processed" ∉ dirs w ->
  exists t w',
    pd.concat_axis1 (zip_with series_frame fred_series replies) = Ok t /\
    run_quick_eda w = (Raise (OSError "data/processed/summary.csv"), w') /\
    requests w' = requests w ++ ["CPIAUCSL"; "UNRATE"; "FEDFUNDS"; "SP500"] /\
    stats w' = stats w ++ [describe_table t; summary_table t] /\
    files w' = files w /\ figures w' = figures w /\ stdout w' = stdout w.
Proof.
  intros Hall Hnd Hd1.
  destruct (fred_series_merged replies) as (t & Hcat & Hcols); [|done|].
  { eapply Forall2_impl; [exact Hall | done]. }
  exists t. eexists. split; [exact Hcat|].
  unfold run_quick_eda.
  rewrite (bind_run _ _ _ _ _
             (fetch_fred_series_world fred_series "2010-01-01" None w
                replies t Hall Hcat)).
  set (objs := fetched_objects fred_series replies).
  set (df := (length (tables w) + length objs)%nat).
  set (wA := set_tables _ (set_requests _ w)).
  assert (HtA : tables wA !! df = Some t).
  { unfold wA, df. simpl. rewrite app_assoc, <- length_app.
    apply lookup_last. }
  rewrite (bind_run _ _ _ _ _ (summarize_timeseries_world wA df t HtA Hcols)).
  set (wB := set_stats _ wA).
  rewrite (bind_raise _ _ _ _ _
             (to_csv_refused wB (S (length (stats wA))) (summary_table t)
                "data/processed/summary.csv" "data/processed"
                (lookup_second _ _ _) eq_refl Hd1)).
  split; [reflexivity|]. simpl. repeat split; reflexivity.
Qed.

Lemma run_quick_eda_no_data_directory_witness :
  exists w',
    run_quick_eda Cases.no_data_directory
      = (Raise (OSError "data/processed/summary.csv"), w') /\
    files w' = [] /\ figures w' = [] /\ stdout w' = [].
Proof.
  destruct (run_quick_eda_no_data_directory Cases.no_data_directory
              [Scenario.reply_b; Scenario.reply_b;
               Scenario.reply_b; Scenario.reply_b])
    as (t & w' & _ & Hrun & _ & _ & Hfiles & Hfigs & Hout).
  - repeat constructor.
  - apply (bool_decide_unpack _). vm_compute. exact I.
  - apply (bool_decide_unpack _). vm_compute. exact I.
  - exists w'. auto.
Defined.

(** X26.  When the provider answers the four requests, without a repeated
    date in a series, and data/processed exists but figures does not, a
    run raises OSError on figures/time_series.png: the summary file is
    written, the time-series figure is in the registry, unsaved, and
    nothing is printed. *)
Theorem run_quick_eda_no_figures_directory w replies :
  Forall2 (replied "2010-01-01" (today w) w) fred_series replies ->
  Forall (fun obs => NoDup obs.*1) replies ->
  "data/processed" ∈ dirs w ->
  "figures" ∉ dirs w ->
  exists t w',
    pd.concat_axis1 (zip_with series_frame fred_series replies) = Ok t /\
    run_quick_eda w = (Raise (OSError "figures/time_series.png"), w') /\
    files w' = files w
                 ++ [("data/processed/summary.csv", Csv (summary_table t))] /\
    figures w' = figures w ++ [time_series_figure t plot_time_series_title] /\
    stdout w' = stdout w.
Proof.
  intros Hall Hnd Hd1 Hd2.
  destruct (fred_series_merged replies) as (t & Hcat & Hcols); [|done|].
  { eapply Forall2_impl; [exact Hall | done]. }
  exists t. eexists. split; [exact Hcat|].
  unfold run_quick_eda.
  rewrite (bind_run _ _ _ _ _
             (fetch_fred_series_world fred_series "2010-01-01" None w
                replies t Hall Hcat)).
  set (objs := fetched_objects fred_series replies).
  set (df := (length (tables w) + length objs)%nat).
  set (wA := set_tables _ (set_requests _ w)).
  assert (HtA : tables wA !! df = Some t).
  { unfold wA, df. simpl. rewrite app_assoc, <- length_app.
    apply lookup_last. }
  rewrite (bind_run _ _ _ _ _ (summarize_timeseries_world wA df t HtA Hcols)).
  set (wB := set_stats _ wA).
  rewrite (bind_run _ _ _ _ _
             (to_csv_world wB (S (length (stats wA))) (summary_table t)
                "data/processed/summary.csv" "data/processed"
                (lookup_second _ _ _) eq_refl Hd1)).
  set (wC := set_files _ wB).
  rewrite (bind_run _ _ _ _ _
             (plot_time_series_world wC df t plot_time_series_title HtA Hcols)).
  set (wD := set_figures _ wC).
  rewrite (bind_raise _ _ _ _ _
             (savefig_refused wD (length (figures wC)) _
                "figures/time_series.png" 200 "figures"
                (lookup_last _ _) eq_refl Hd2)).
  split; [reflexivity|]. simpl. repeat split; reflexivity.
Qed.

Lemma run_quick_eda_no_figures_directory_witness :
  exists w',
    run_quick_eda Runs.no_figures_directory
      = (Raise (OSError "figures/time_series.png"), w') /\
    (files w').*1 = ["data/processed/summary.csv"] /\
    length (figures w') = 1%nat /\ stdout w' = [].
Proof.
  destruct (run_quick_eda_no_figures_directory Runs.no_figures_directory
              [Scenario.reply_b; Scenario.reply_b;
               Scenario.reply_b; Scenario.reply_b])
    as (t & w' & _ & Hrun & Hfiles & Hfigs & Hout).
  - repeat constructor.
  - apply (bool_decide_unpack _). vm_compute. exact I.
  - apply (bool_decide_unpack _). vm_compute. exact I.
  - apply (bool_decide_unpack _). vm_compute. exact I.
  - exists w'. split; [exact Hrun|]. rewrite Hfiles, Hfigs. auto.
Defined.

(** X27.  When the provider raises on one of the four requests of a run,
    after having answered the ones before it, the run raises the same
    exception: the later series are not requested, no file is written, no
    figure and no table of statistics is created, and nothing is
    printed. *)
Theorem run_quick_eda_provider_error w pre item post replies e :
  fred_series = pre ++ item :: post ->
  Forall2 (replied "2010-01-01" (today w) w) pre replies ->
  provider w item.2 "2010-01-01" (today w) = Raise e ->
  exists w',
    run_quick_eda w = (Raise e, w') /\
    requests w' = requests w ++ pre.*2 ++ [item.2] /\
    files w' = files w /\ stdout w' = stdout w /\
    figures w' = figures w /\ stats w' = stats w.
Proof.
  intros Hsplit Hall He.
  destruct (fetch_fred_series_raise fred_series pre item post "2010-01-01"
              None w replies e Hsplit Hall He)
    as (w' & Hrun & Hreq & _ & Hfiles & Hout).
  exists w'. unfold run_quick_eda.
  rewrite (bind_raise _ _ _ _ _ Hrun).
  split; [reflexivity|]. split; [exact Hreq|].
  split; [exact Hfiles|]. split; [exact Hout|].
  split.
  - eapply preserved_field; [|exact Hrun]. now apply fetch_fred_series_frame.
  - eapply preserved_field; [|exact Hrun]. now apply fetch_fred_series_frame.
Qed.

Lemma run_quick_eda_provider_error_witness :
  exists w',
    run_quick_eda Cases.failing_world
      = (Raise (RemoteDataError "FEDFUNDS"), w') /\
    requests w' = ["CPIAUCSL"; "UNRATE"; "FEDFUNDS"] /\
    files w' = [] /\ stdout w' = [] /\ figures w' = [] /\ stats w' = [].
Proof.
  destruct (run_quick_eda_provider_error Cases.failing_world
              [("cpi", "CPIAUCSL"); ("unemployment_rate", "UNRATE")]
              ("fed_funds_rate", "FEDFUNDS") [("sp500", "SP500")]
              [Scenario.reply_b; Scenario.reply_b]
              (RemoteDataError "FEDFUNDS"))
    as (w' & Hrun & Hreq & Hfiles & Hout & Hfigs & Hstats).
  - reflexivity.
  - repeat constructor.
  - reflexivity.
  - exists w'. auto 10.
Defined.

(** X28.  The summarizer and the three plotters do no input or output of
    their own, whatever their outcome: they write no file, request nothing
    from the provider, print nothing and leave the directories as they
    are. *)
Theorem analysis_functions_perform_no_io df ttl selected w :
  let silent (w' : World) :=
    files w' = files w /\ requests w' = requests w /\
    stdout w' = stdout w /\ dirs w' = dirs w in
  silent (summarize_timeseries df w).2 /\
  silent (plot_time_series df ttl w).2 /\
  silent (plot_correlation_heatmap df ttl w).2 /\
  silent (plot_distribution df selected w).2.
Proof.
  cbv zeta.
  destruct (summarize_timeseries_quiet df w) as (? & ? & ?).
  destruct (plot_time_series_quiet df ttl w) as (? & ? & ?).
  destruct (plot_correlation_heatmap_quiet df ttl w) as (? & ? & ?).
  destruct (plot_distribution_quiet df selected w) as (? & ? & ?).
  repeat split; try assumption.
  - now apply summarize_timeseries_frame.
  - now apply plot_time_series_frame.
  - now apply plot_correlation_heatmap_frame.
  - now apply plot_distribution_frame.
Qed.
